(** * Production allocation solver (Solver.py): model and verified properties

    The development embeds [solve_production_problem] of Solver.py.

    Numbers.  Python floats are modelled by exact rationals ([Q]); the two
    special values the code itself creates are explicit: [float("inf")] is
    [PInf] (only capacities can carry it) and [np.nan] is [NaN] (only the
    ratio column can carry it).  Rounding is therefore not modelled: every
    "within tolerance" statement is proved exactly, and every refutation is
    by a margin far above any rounding error.

    Dictionaries.  A Python [dict] is an association list with unique keys in
    insertion order; [d[k] = v] is [dict_set] (overwrite in place, or append).

    Solver.  The modelling library and the LP solver are not part of the
    program.  Building the model is taken to succeed; the solver call either
    raises or returns a termination status and leaves a value (possibly
    [None]) on every variable.  The linear program it is given is modelled
    by decidable predicates over the model's finite index sets, and what
    [sense=minimize] asks for by [optimal]. *)

From Stdlib Require Import List String Bool ZArith QArith Qabs Lqa Lia.
From Stdlib Require Import Permutation Orders Sorting.Sorted Sorting.Mergesort.
Import ListNotations.

Local Open Scope string_scope.
Local Open Scope Q_scope.

(** ** Python dictionaries *)

Section Dict.
Context {K V : Type}.
Variable eqb : K -> K -> bool.

Fixpoint dict_get (d : list (K * V)) (k : K) : option V :=
  match d with
  | [] => None
  | (k', v) :: d' => if eqb k' k then Some v else dict_get d' k
  end.

(** [d.get(k, dflt)] *)
Definition dict_get_or (d : list (K * V)) (k : K) (dflt : V) : V :=
  match dict_get d k with Some v => v | None => dflt end.

(** [k in d] *)
Definition dict_mem (d : list (K * V)) (k : K) : bool :=
  match dict_get d k with Some _ => true | None => false end.

(** [d[k] = v] *)
Fixpoint dict_set (d : list (K * V)) (k : K) (v : V) : list (K * V) :=
  match d with
  | [] => [(k, v)]
  | (k', v') :: d' =>
      if eqb k' k then (k', v) :: d' else (k', v') :: dict_set d' k v
  end.

(** [set(...)] of a generator, iterated in first-occurrence order. *)
Fixpoint dedupb (l : list K) : list K :=
  match l with
  | [] => []
  | x :: t => x :: filter (fun y => negb (eqb x y)) (dedupb t)
  end.
End Dict.

(** ** Keys *)

Definition key2 : Type := string * string.
Definition key3 : Type := string * string * string.
Definition key4 : Type := string * string * string * string.

Definition key2_eqb (a b : key2) : bool :=
  let '(p, c) := a in let '(p', c') := b in
  String.eqb p p' && String.eqb c c'.

Definition key3_eqb (a b : key3) : bool :=
  let '(p, c, l) := a in let '(p', c', l') := b in
  String.eqb p p' && String.eqb c c' && String.eqb l l'.

Definition key4_eqb (a b : key4) : bool :=
  let '(p, c, l, x) := a in let '(p', c', l', x') := b in
  String.eqb p p' && String.eqb c c' && String.eqb l l' && String.eqb x x'.

Definition lex (c1 c2 : comparison) : comparison :=
  match c1 with Eq => c2 | _ => c1 end.

Definition key4_compare (a b : key4) : comparison :=
  let '(p, c, l, x) := a in let '(p', c', l', x') := b in
  lex (String.compare p p')
    (lex (String.compare c c') (lex (String.compare l l') (String.compare x x'))).

(** ** Numbers *)

(** A capacity: a finite number of hours, or [float("inf")]. *)
Inductive ext : Type :=
| Fin (q : Q)
| PInf.

(** The ratio column: [np.nan] or a number. *)
Inductive ratio : Type :=
| NaN
| Num (e : ext).

Definition Qltb (x y : Q) : bool := negb (Qle_bool y x).

(** [q <= e] *)
Definition ext_leb (q : Q) (e : ext) : bool :=
  match e with Fin c => Qle_bool q c | PInf => true end.

(** [e / d] for a positive finite [d]. *)
Definition ext_div (e : ext) (d : Q) : ext :=
  match e with Fin c => Fin (c / d) | PInf => PInf end.

Definition sumQ (l : list Q) : Q := fold_right Qplus 0 l.

(** ** Index Builder: [sorted(list(set(...)))] *)

Module StringOrder <: TotalLeBool.
Definition t := string.
Definition leb := String.leb.
Lemma leb_total : forall x y, leb x y = true \/ leb y x = true.
Proof. exact String.leb_total. Qed.
End StringOrder.

Module StringSort := Sort StringOrder.

Definition sorted_set (l : list string) : list string :=
  StringSort.sort (nodup string_dec l).

Definition demand_t : Type := list (key3 * Q).
Definition capacity_t : Type := list (key3 * ext).
Definition rate_t : Type := list (key4 * Q).

Definition Periods (demand : demand_t) : list string :=
  sorted_set (map (fun e => let '(p, _, _) := fst e in p) demand).

Definition Categories (demand : demand_t) : list string :=
  sorted_set (map (fun e => let '(_, c, _) := fst e in c) demand).

Definition Products (demand : demand_t) : list string :=
  sorted_set (map (fun e => let '(_, _, prod) := fst e in prod) demand).

Definition fictitious_line : string := "Fallback_Line".
Definition fallback_name : string := "Fallback_Line".

(** [Lines] as every later statement sees it: after [Lines.append].  The
    sentinel is appended unconditionally, so it occurs twice when a capacity
    key of the input already uses that name. *)
Definition Lines (line_capacity : capacity_t) : list string :=
  sorted_set (map (fun e => let '(_, _, l) := fst e in l) line_capacity)
    ++ [fictitious_line].

(** ** Feasibility Augmenter (mutates the two dictionaries in place) *)

Definition augment_rate (demand : demand_t) (production_rate : rate_t) : rate_t :=
  fold_left
    (fun r e => let '(p, c, prod) := fst e in
                dict_set key4_eqb r (p, c, fictitious_line, prod) (1 # 100))
    demand production_rate.

Definition demand_pairs (demand : demand_t) : list key2 :=
  dedupb key2_eqb (map (fun e => let '(p, c, _) := fst e in (p, c)) demand).

Definition augment_capacity (demand : demand_t) (line_capacity : capacity_t)
  : capacity_t :=
  fold_left
    (fun cp pc => dict_set key3_eqb cp (fst pc, snd pc, fictitious_line) PInf)
    (demand_pairs demand) line_capacity.

(** The keys the two augmentation loops write. *)
Definition rate_keys (demand : demand_t) : list key4 :=
  map (fun e : key3 * Q =>
         let '(p, c, prod) := fst e in (p, c, fictitious_line, prod)) demand.

Definition capacity_keys (demand : demand_t) : list key3 :=
  map (fun pc : key2 => (fst pc, snd pc, fictitious_line)) (demand_pairs demand).

(** ** Model Builder *)

Record model : Type := mkModel {
  PERIODS : list string;
  CATEGORIES : list string;
  PRODUCTS : list string;
  LINES : list string;
  m_demand : demand_t;
  m_capacity : capacity_t;      (* already augmented *)
  m_rate : rate_t               (* already augmented *)
}.

Definition build_model (demand : demand_t) (line_capacity : capacity_t)
  (production_rate : rate_t) : model :=
  {| PERIODS := Periods demand;
     CATEGORIES := Categories demand;
     PRODUCTS := Products demand;
     LINES := Lines line_capacity;
     m_demand := demand;
     m_capacity := augment_capacity demand line_capacity;
     m_rate := augment_rate demand production_rate |}.

(** A value for every variable [X[p, c, l, prod]]. *)
Definition assignment : Type := key4 -> Q.

Definition demand_rule (m : model) (X : assignment) (p c prod : string) : bool :=
  Qle_bool
    (dict_get_or key3_eqb (m_demand m) (p, c, prod) 0)
    (sumQ (map (fun l => X (p, c, l, prod)
                         * dict_get_or key4_eqb (m_rate m) (p, c, l, prod) 0)
               (LINES m))).

Definition capacity_rule (m : model) (X : assignment) (p c l : string) : bool :=
  ext_leb
    (sumQ (map (fun prod => X (p, c, l, prod))
               (filter (fun prod => dict_mem key4_eqb (m_rate m) (p, c, l, prod))
                       (PRODUCTS m))))
    (dict_get_or key3_eqb (m_capacity m) (p, c, l) (Fin 0)).

(** [domain=NonNegativeReals] *)
Definition domain_rule (m : model) (X : assignment) : bool :=
  forallb (fun p => forallb (fun c => forallb (fun l => forallb (fun prod =>
    Qle_bool 0 (X (p, c, l, prod)))
    (PRODUCTS m)) (LINES m)) (CATEGORIES m)) (PERIODS m).

Definition DemandConstraint (m : model) (X : assignment) : bool :=
  forallb (fun p => forallb (fun c => forallb (fun prod =>
    demand_rule m X p c prod)
    (PRODUCTS m)) (CATEGORIES m)) (PERIODS m).

Definition CapacityConstraint (m : model) (X : assignment) : bool :=
  forallb (fun p => forallb (fun c => forallb (fun l =>
    capacity_rule m X p c l)
    (LINES m)) (CATEGORIES m)) (PERIODS m).

Definition feasible (m : model) (X : assignment) : bool :=
  domain_rule m X && DemandConstraint m X && CapacityConstraint m X.

Definition Objective (m : model) (X : assignment) : Q :=
  sumQ (map (fun p => sumQ (map (fun c => sumQ (map (fun l => sumQ (map (fun prod =>
    X (p, c, l, prod))
    (PRODUCTS m))) (LINES m))) (CATEGORIES m))) (PERIODS m)).

(** What [sense=minimize] asks of the solver. *)
Definition optimal (m : model) (X : assignment) : Prop :=
  feasible m X = true /\
  forall Y, feasible m Y = true -> Objective m X <= Objective m Y.

(** ** Solver Adapter *)

Inductive termination : Type :=
| tc_optimal
| tc_infeasible
| tc_maxTimeLimit
| tc_error.

(** [solver.solve(model)] either raises, or returns a results object and
    leaves a [.value] (a number or [None]) on every variable. *)
Inductive solver_outcome : Type :=
| SolverRaises (err : string)
| SolverReturns (tc : termination) (value : key4 -> option Q).

Definition assigned (X : assignment) : key4 -> option Q := fun k => Some (X k).

(** ** Result Extractor *)

Record row : Type := mkRow {
  Period : string;
  Category : string;
  Line : string;
  Product : string;
  Hours : Q;
  Kg_Produced : Q
}.

Definition row_key (r : row) : key4 := (Period r, Category r, Line r, Product r).

Definition extract_cell (rate : rate_t) (value : key4 -> option Q)
  (p c l prod : string) : list row :=
  match value (p, c, l, prod) with
  | Some val =>
      if Qltb 0 val
      then [mkRow p c l prod val
                  (val * dict_get_or key4_eqb rate (p, c, l, prod) 0)]
      else []
  | None => []
  end.

Definition extract (Ps Cs Ls Prs : list string) (rate : rate_t)
  (value : key4 -> option Q) : list row :=
  flat_map (fun p => flat_map (fun c => flat_map (fun l => flat_map (fun prod =>
    extract_cell rate value p c l prod) Prs) Ls) Cs) Ps.

(** ** Fallback Redistributor *)

Definition is_fallback (r : row) : bool := String.eqb (Line r) fallback_name.

Definition eligible_lines (Ls : list string) (rate : rate_t)
  (p c prod : string) : list string :=
  filter (fun l => dict_mem key4_eqb rate (p, c, l, prod)
                   && negb (String.eqb l fallback_name)) Ls.

Definition redistribute_line (rate : rate_t) (p c prod : string)
  (equal_kgs : Q) (l : string) : list row :=
  match dict_get key4_eqb rate (p, c, l, prod) with
  | Some r =>
      if Qltb 0 r then [mkRow p c l prod (equal_kgs / r) equal_kgs] else []
  | None => []
  end.

Definition redistribute_row (Ls : list string) (rate : rate_t) (r : row)
  : list row :=
  let p := Period r in
  let c := Category r in
  let prod := Product r in
  let total_kgs := Kg_Produced r in
  let el := eligible_lines Ls rate p c prod in
  match el with
  | [] => []
  | _ :: _ =>
      let equal_kgs := total_kgs / inject_Z (Z.of_nat (List.length el)) in
      flat_map (redistribute_line rate p c prod equal_kgs) el
  end.

Definition adjusted_rows (Ls : list string) (rate : rate_t)
  (fallback_rows : list row) : list row :=
  flat_map (redistribute_row Ls rate) fallback_rows.

(** [groupby([...], as_index=False).sum()]: one row per key, in key order. *)
Definition merge_rows (r' r : row) : row :=
  mkRow (Period r') (Category r') (Line r') (Product r')
        (Hours r' + Hours r) (Kg_Produced r' + Kg_Produced r).

Fixpoint add_row (r : row) (acc : list row) : list row :=
  match acc with
  | [] => [r]
  | r' :: acc' =>
      match key4_compare (row_key r) (row_key r') with
      | Eq => merge_rows r' r :: acc'
      | Lt => r :: acc
      | Gt => r' :: add_row r acc'
      end
  end.

Definition groupby_sum (rows : list row) : list row :=
  fold_left (fun acc r => add_row r acc) rows [].

(** ** Utilization Reporter *)

Record ratio_row : Type := mkRatio {
  rPeriod : string;
  rCategory : string;
  rLine : string;
  Capacity_Demand : ratio
}.

Definition line_production (rows : list row) (p l : string) : list row :=
  filter (fun r => String.eqb (Period r) p && String.eqb (Line r) l) rows.

(** The accumulation loop over [line_production.iterrows()]. *)
Definition total_demand_hours (rate : rate_t) (rows : list row)
  (p c l : string) : Q :=
  fold_left
    (fun total r =>
       let rt := dict_get_or key4_eqb rate (p, c, l, Product r) 0 in
       if Qltb 0 rt then total + Kg_Produced r / rt else total + 0)
    (line_production rows p l) 0.

Definition epsilon : Q := 1 # 1000000000.

Definition ratio_of (capacity : ext) (tdh : Q) : ratio :=
  if Qltb 0 tdh then Num (ext_div capacity (tdh + epsilon)) else NaN.

Definition capacity_demand_data (cap : capacity_t) (rate : rate_t)
  (rows : list row) : list ratio_row :=
  map (fun e => let '(p, c, l) := fst e in
                mkRatio p c l
                  (ratio_of (snd e) (total_demand_hours rate rows p c l)))
      cap.

(** ** The pipeline *)

Record tables : Type := mkTables {
  results_df_adjusted : list row;
  capacity_demand_ratio_df : list ratio_row;
  results_df : list row
}.

Inductive outcome : Type :=
| Raised (err : string)
| Returned (t : tables).

(** Everything after [solver.solve] returned; [results] itself is never read. *)
Definition post_solve (demand : demand_t) (line_capacity : capacity_t)
  (production_rate : rate_t) (value : key4 -> option Q) : tables :=
  let m := build_model demand line_capacity production_rate in
  let raw := extract (Periods demand) (Categories demand) (Lines line_capacity)
                     (Products demand) (m_rate m) value in
  let fallback_rows := filter is_fallback raw in
  let non_fallback_rows := filter (fun r => negb (is_fallback r)) raw in
  let adj := adjusted_rows (Lines line_capacity) (m_rate m) fallback_rows in
  let final := groupby_sum (non_fallback_rows ++ adj) in
  mkTables final (capacity_demand_data (m_capacity m) (m_rate m) final) raw.

Definition solve_production_problem (solver : model -> solver_outcome)
  (demand : demand_t) (line_capacity : capacity_t) (production_rate : rate_t)
  : outcome :=
  match solver (build_model demand line_capacity production_rate) with
  | SolverRaises err => Raised err
  | SolverReturns _ value =>
      Returned (post_solve demand line_capacity production_rate value)
  end.

(** The three returned tables, for a solver that returned assignment [X]. *)
Definition AllocationTable (d : demand_t) (cp : capacity_t) (rt : rate_t)
  (X : assignment) : list row :=
  results_df_adjusted (post_solve d cp rt (assigned X)).

Definition UtilizationTable (d : demand_t) (cp : capacity_t) (rt : rate_t)
  (X : assignment) : list ratio_row :=
  capacity_demand_ratio_df (post_solve d cp rt (assigned X)).

Definition RawAllocationTable (d : demand_t) (cp : capacity_t) (rt : rate_t)
  (X : assignment) : list row :=
  results_df (post_solve d cp rt (assigned X)).

(** Sums of a column over the rows selected by a predicate. *)
Definition sum_by (f : row -> Q) (P : row -> bool) (rows : list row) : Q :=
  sumQ (map f (filter P rows)).

Definition on_product (p c prod : string) (r : row) : bool :=
  String.eqb (Period r) p && String.eqb (Category r) c
  && String.eqb (Product r) prod.

Definition on_line (p c l : string) (r : row) : bool :=
  String.eqb (Period r) p && String.eqb (Category r) c
  && String.eqb (Line r) l.

(** The fallback records the redistribution loop skips with [continue]. *)
Definition dropped_fallback_rows (Ls : list string) (rate : rate_t)
  (raw : list row) : list row :=
  filter (fun r =>
            is_fallback r &&
            match eligible_lines Ls rate (Period r) (Category r) (Product r) with
            | [] => true
            | _ :: _ => false
            end) raw.

(** Tables compared up to the value of their numbers. *)
Definition row_eqb (a b : row) : bool :=
  key4_eqb (row_key a) (row_key b)
  && Qeq_bool (Hours a) (Hours b)
  && Qeq_bool (Kg_Produced a) (Kg_Produced b).

Fixpoint rows_eqb (a b : list row) : bool :=
  match a, b with
  | [], [] => true
  | x :: a', y :: b' => row_eqb x y && rows_eqb a' b'
  | _, _ => false
  end.

(** ** Scenarios *)

(** Section 8, first scenario: one real line that is too small. *)
Definition scn_demand : demand_t := [(("P1", "Choc", "A"), 100)].
Definition scn_capacity : capacity_t := [(("P1", "Choc", "L1"), Fin 10)].
Definition scn_rate : rate_t := [(("P1", "Choc", "L1", "A"), 5)].

Definition scn_X : assignment := fun k =>
  if key4_eqb k ("P1", "Choc", "L1", "A") then 10
  else if key4_eqb k ("P1", "Choc", "Fallback_Line", "A") then 5000
  else 0.

(** The same line with a rate entry of zero (what the form fills in for a
    line that cannot make the product). *)
Definition zr_rate : rate_t := [(("P1", "Choc", "L1", "A"), 0)].

Definition zr_X : assignment := fun k =>
  if key4_eqb k ("P1", "Choc", "Fallback_Line", "A") then 10000 else 0.

(** Two lines, the second with a zero rate. *)
Definition two_capacity : capacity_t :=
  [(("P1", "Choc", "L1"), Fin 10); (("P1", "Choc", "L2"), Fin 10)].
Definition two_rate : rate_t :=
  [(("P1", "Choc", "L1", "A"), 5); (("P1", "Choc", "L2", "A"), 0)].

(** The line with no hours available. *)
Definition zc_capacity : capacity_t := [(("P1", "Choc", "L1"), Fin 0)].


(** Two categories sharing period P1 and line L1. *)
Definition cat_demand : demand_t :=
  [(("P1", "C1", "A"), 50); (("P1", "C2", "A"), 25)].
Definition cat_capacity : capacity_t :=
  [(("P1", "C1", "L1"), Fin 10); (("P1", "C2", "L1"), Fin 10)].
Definition cat_rate : rate_t :=
  [(("P1", "C1", "L1", "A"), 5); (("P1", "C2", "L1", "A"), 5)].
Definition cat_X : assignment := fun k =>
  if key4_eqb k ("P1", "C1", "L1", "A") then 10
  else if key4_eqb k ("P1", "C2", "L1", "A") then 5
  else 0.

(** The same input with nothing demanded in category C2. *)
Definition cat0_demand : demand_t :=
  [(("P1", "C1", "A"), 50); (("P1", "C2", "A"), 0)].
Definition cat0_X : assignment := fun k =>
  if key4_eqb k ("P1", "C1", "L1", "A") then 10 else 0.


(** The assignment that serves every demand on the fallback line alone:
    demand / 0.01 hours there, nothing anywhere else. *)
Definition fallback_cover (d : demand_t) : assignment := fun k =>
  let '(p, c, l, prod) := k in
  if String.eqb l fictitious_line
  then dict_get_or key3_eqb d (p, c, prod) 0 * 100
  else 0.

(** Zeroing one variable of an assignment. *)
Definition zero_at (k0 : key4) (X : assignment) : assignment :=
  fun k => if key4_eqb k k0 then 0 else X k.

(** The contribution of one aggregated row to the realized-demand-hours of
    the capacity entry (p, c, l). *)
Definition row_demand_hours (rate : rate_t) (p c l : string) (r : row) : Q :=
  let rt := dict_get_or key4_eqb rate (p, c, l, Product r) 0 in
  if Qltb 0 rt then Kg_Produced r / rt else 0.

(** A table with its Category column rewritten. *)
Definition recategorise (g : string -> string) (r : row) : row :=
  mkRow (Period r) (g (Category r)) (Line r) (Product r)
        (Hours r) (Kg_Produced r).

(** Strict lexicographic order (Python's [<] on [str] and on tuples). *)
Definition string_lt (a b : string) : Prop := String.compare a b = Lt.
Definition key4_lt (a b : key4) : Prop := key4_compare a b = Lt.

(** The line names of a capacity mapping, as [Lines] is first computed. *)
Definition real_Lines (line_capacity : capacity_t) : list string :=
  sorted_set (map (fun e : key3 * ext => let '(_, _, l) := fst e in l)
                  line_capacity).

(** What the extraction keeps of a variable's value: its positive part. *)
Definition positive_part (value : key4 -> option Q) : assignment := fun k =>
  match value k with
  | Some v => if Qltb 0 v then v else 0
  | None => 0
  end.

(** The eligible lines on which the redistribution really adds a row. *)
Definition paying_lines (Ls : list string) (rate : rate_t)
  (p c prod : string) : list string :=
  filter (fun l => Qltb 0 (dict_get_or key4_eqb rate (p, c, l, prod) 0))
         (eligible_lines Ls rate p c prod).

(** The rows of a table that carry a given key. *)
Definition has_key (k : key4) (r : row) : bool := key4_eqb (row_key r) k.

(** Section 8, second scenario: two lines that together just suffice. *)
Definition fit_capacity : capacity_t :=
  [(("P1", "Choc", "L1"), Fin 10); (("P1", "Choc", "L2"), Fin 10)].
Definition fit_rate : rate_t :=
  [(("P1", "Choc", "L1", "A"), 5); (("P1", "Choc", "L2", "A"), 5)].
Definition fit_X : assignment := fun k =>
  if key4_eqb k ("P1", "Choc", "L1", "A") then 10
  else if key4_eqb k ("P1", "Choc", "L2", "A") then 10
  else 0.

(** ** The application (app.py) *)

(** [val < q] and [val >= q] on a ratio cell: every comparison with NaN is
    false, and infinity is above every number.  The float literal 1.1 is
    taken as the rational 11/10. *)
Definition ratio_ltb (val : ratio) (q : Q) : bool :=
  match val with
  | NaN => false
  | Num PInf => false
  | Num (Fin v) => Qltb v q
  end.

Definition ratio_geb (val : ratio) (q : Q) : bool :=
  match val with
  | NaN => false
  | Num PInf => true
  | Num (Fin v) => Qle_bool q v
  end.

Definition color_capacity_demand_ratio (val : ratio) : string :=
  let color :=
    if ratio_ltb val 1 then "red"
    else if ratio_geb val (11 # 10) then "blue"
    else "green" in
  "background-color: " ++ color.

(** A dict built from (key, value) items in order: [dict(zip(...))],
    [Series.to_dict()] and dict comprehensions.  A later item with the same
    key overwrites the value and keeps the first position. *)
Definition dict_of_items {K V : Type} (eqb : K -> K -> bool)
  (items : list (K * V)) : list (K * V) :=
  fold_left (fun d kv => dict_set eqb d (fst kv) (snd kv)) items [].

(** The sheets as the script at the end of Solver.py reads them. *)
Record demand_row : Type := mkDemandRow {
  dPeriod : string; dCategory : string; dProduct : string; dDemand : Q
}.

Record capacity_row : Type := mkCapacityRow {
  cPeriod : string; cCategory : string; cLine : string; cHours : ext
}.

Record production_row : Type := mkProductionRow {
  xPeriod : string; xCategory : string; xLine : string; xProduct : string;
  xRate : Q
}.

Definition demand_of_sheet (demand_df : list demand_row) : demand_t :=
  dict_of_items key3_eqb
    (map (fun r => ((dPeriod r, dCategory r, dProduct r), dDemand r)) demand_df).

Definition line_capacity_of_sheet (line_capacity_df : list capacity_row)
  : capacity_t :=
  dict_of_items key3_eqb
    (map (fun r => ((cPeriod r, cCategory r, cLine r), cHours r))
         line_capacity_df).

Definition production_rate_of_sheet (production_df : list production_row)
  : rate_t :=
  dict_of_items key4_eqb
    (map (fun r => ((xPeriod r, xCategory r, xLine r, xProduct r), xRate r))
         production_df).

(** [simulation_form]: the period range. *)
Definition all_periods : list string :=
  ["2025'Q1"; "2025'Q2"; "2025'Q3"; "2025'Q4";
   "2026'Q1"; "2026'Q2"; "2026'Q3"; "2026'Q4";
   "2027'Q1"; "2027'Q2"; "2027'Q3"; "2027'Q4";
   "2028'Q1"; "2028'Q2"; "2028'Q3"; "2028'Q4";
   "2029'Q1"; "2029'Q2"; "2029'Q3"; "2029'Q4";
   "2030'Q1"; "2030'Q2"; "2030'Q3"; "2030'Q4"; "2031'Q1"].

Definition selected_periods (start_period end_period : string) : list string :=
  filter (fun period => String.leb start_period period
                        && String.leb period end_period) all_periods.

(** [main]: the three dictionaries handed to the solver, flattened from the
    form's nested dictionaries with the fixed category "Chocolate". *)
Definition demand_dict (demand : list (string * list (string * Q))) : demand_t :=
  dict_of_items key3_eqb
    (flat_map (fun pe : string * list (string * Q) =>
                 map (fun de : string * Q =>
                        ((fst de, "Chocolate", fst pe), snd de)) (snd pe))
              demand).

Definition line_capacity_dict (line_capacity : list (string * list (string * Q)))
  : capacity_t :=
  dict_of_items key3_eqb
    (flat_map (fun le : string * list (string * Q) =>
                 map (fun de : string * Q =>
                        ((fst de, "Chocolate", fst le), Fin (snd de))) (snd le))
              line_capacity).

Definition production_rate_dict
  (production_ratio : list (string * list (string * list (string * Q))))
  : rate_t :=
  dict_of_items key4_eqb
    (flat_map (fun pe : string * list (string * list (string * Q)) =>
       flat_map (fun xe : string * list (string * Q) =>
         map (fun le : string * Q =>
                ((fst pe, "Chocolate", fst le, fst xe), snd le)) (snd xe))
         (snd pe))
       production_ratio).

(** A nested dictionary with distinct keys at both levels. *)
Definition nested_ok {V : Type} (n : list (string * list (string * V))) : Prop :=
  NoDup (map fst n) /\ forall e, In e n -> NoDup (map fst (snd e)).

(** [n[a][b]] *)
Definition nested_get {V : Type} (n : list (string * list (string * V)))
  (a b : string) : option V :=
  match dict_get String.eqb n a with
  | Some inner => dict_get String.eqb inner b
  | None => None
  end.

(** A two-level comprehension [{mk(a, b): g(v) for a, inner in n.items()
    for b, v in inner.items()}], before the dict is built. *)
Definition flatten_with {V W K : Type} (mk : string -> string -> K) (g : V -> W)
  (n : list (string * list (string * V))) : list (K * W) :=
  flat_map (fun e : string * list (string * V) =>
              map (fun e2 : string * V => (mk (fst e) (fst e2), g (snd e2)))
                  (snd e)) n.

(** [n[a][b][c]] *)
Definition nested3_get {V : Type}
  (n : list (string * list (string * list (string * V))))
  (a b c : string) : option V :=
  match dict_get String.eqb n a with
  | Some inner => nested_get inner b c
  | None => None
  end.

Definition nested3_ok {V : Type}
  (n : list (string * list (string * list (string * V)))) : Prop :=
  NoDup (map fst n) /\ forall e, In e n -> nested_ok (snd e).

(** [load_simulation_data], from the three sheets once they are read (the
    failure of the read itself is outside the model).  Rows carry the
    columns the function uses. *)
Record demand_rec : Type := mkDemandRec {
  de_Period : string; de_Product : string; de_Demand : Q; de_Sim : string
}.

Record capacity_rec : Type := mkCapacityRec {
  ca_Period : string; ca_Line : string; ca_Hours : Q; ca_Sim : string
}.

Record production_rec : Type := mkProductionRec {
  pr_Period : string; pr_Line : string; pr_Product : string; pr_Rate : Q;
  pr_Sim : string
}.

Record simulation_data : Type := mkSimulationData {
  sd_periods : list string;
  sd_line_capacity : list (string * list (string * Q));
  sd_demand : list (string * list (string * Q));
  sd_production_ratio : list (string * list (string * list (string * Q)))
}.

(** [frame[col].values[0] if not frame.empty else 0] *)
Definition first_value (vals : list Q) : Q :=
  match vals with v :: _ => v | [] => 0 end.

Definition is_empty {A : Type} (l : list A) : bool :=
  match l with [] => true | _ :: _ => false end.

Definition capacity_cell (df : list capacity_rec) (line period : string) : Q :=
  first_value
    (map ca_Hours
       (filter (fun r => String.eqb (ca_Line r) line
                         && String.eqb (ca_Period r) period) df)).

Definition demand_cell (df : list demand_rec) (product period : string) : Q :=
  first_value
    (map de_Demand
       (filter (fun r => String.eqb (de_Product r) product
                         && String.eqb (de_Period r) period) df)).

Definition production_cell (df : list production_rec)
  (period product line : string) : Q :=
  first_value
    (map pr_Rate
       (filter (fun r => String.eqb (pr_Product r) product
                         && String.eqb (pr_Line r) line
                         && String.eqb (pr_Period r) period) df)).

Definition load_simulation_data (simulation_id : string)
  (demand_df : list demand_rec) (line_capacity_df : list capacity_rec)
  (production_df : list production_rec) : option simulation_data :=
  let demand_df :=
    filter (fun r => String.eqb (de_Sim r) simulation_id) demand_df in
  let line_capacity_df :=
    filter (fun r => String.eqb (ca_Sim r) simulation_id) line_capacity_df in
  let production_df :=
    filter (fun r => String.eqb (pr_Sim r) simulation_id) production_df in
  if is_empty demand_df || is_empty line_capacity_df || is_empty production_df
  then None
  else
    let periods := sorted_set (map de_Period demand_df) in
    let lines := sorted_set (map ca_Line line_capacity_df) in
    let products := sorted_set (map de_Product demand_df) in
    Some
      {| sd_periods := periods;
         sd_line_capacity :=
           map (fun line =>
                  (line, map (fun period =>
                                (period,
                                 capacity_cell line_capacity_df line period))
                             periods)) lines;
         sd_demand :=
           map (fun product =>
                  (product, map (fun period =>
                                   (period,
                                    demand_cell demand_df product period))
                                periods)) products;
         sd_production_ratio :=
           map (fun period =>
                  (period,
                   map (fun product =>
                          (product,
                           map (fun line =>
                                  (line,
                                   production_cell production_df
                                     period product line)) lines))
                       products)) periods |}.

(** Three small sheets holding simulation S1 (two periods, two products,
    two lines, one rate row) and a row of another simulation. *)
Definition sim_demand_df : list demand_rec :=
  [mkDemandRec "P1" "A" 100 "S1"; mkDemandRec "P2" "A" 80 "S1";
   mkDemandRec "P1" "B" 40 "S1"; mkDemandRec "P3" "A" 7 "S2"].
Definition sim_capacity_df : list capacity_rec :=
  [mkCapacityRec "P1" "L1" 10 "S1"; mkCapacityRec "P1" "L2" 8 "S1";
   mkCapacityRec "P3" "L3" 9 "S2"].
Definition sim_production_df : list production_rec :=
  [mkProductionRec "P1" "L1" "A" 5 "S1"; mkProductionRec "P1" "L1" "A" 6 "S1"].

(** * Proofs *)

(** ** Keys and comparisons *)

Lemma key2_eqb_eq (a b : key2) : key2_eqb a b = true <-> a = b.
Proof.
  destruct a as [p c], b as [p' c']; unfold key2_eqb.
  rewrite andb_true_iff, !String.eqb_eq.
  split; [intros [-> ->]; reflexivity | intros H; inversion H; auto].
Qed.

Lemma key3_eqb_eq (a b : key3) : key3_eqb a b = true <-> a = b.
Proof.
  destruct a as [[p c] l], b as [[p' c'] l']; unfold key3_eqb.
  rewrite !andb_true_iff, !String.eqb_eq.
  split; [intros [[-> ->] ->]; reflexivity | intros H; inversion H; auto].
Qed.

Lemma key4_eqb_eq (a b : key4) : key4_eqb a b = true <-> a = b.
Proof.
  destruct a as [[[p c] l] x], b as [[[p' c'] l'] x']; unfold key4_eqb.
  rewrite !andb_true_iff, !String.eqb_eq.
  split; [intros [[[-> ->] ->] ->]; reflexivity | intros H; inversion H; auto].
Qed.

Lemma lex_Eq (c1 c2 : comparison) : lex c1 c2 = Eq -> c1 = Eq /\ c2 = Eq.
Proof. destruct c1; simpl; intros H; try discriminate; auto. Qed.

Lemma key4_compare_Eq (a b : key4) : key4_compare a b = Eq -> a = b.
Proof.
  destruct a as [[[p c] l] x], b as [[[p' c'] l'] x']; unfold key4_compare.
  intros H.
  apply lex_Eq in H as [Hp H]. apply lex_Eq in H as [Hc H].
  apply lex_Eq in H as [Hl Hx].
  apply String.compare_eq_iff in Hp, Hc, Hl, Hx. subst. reflexivity.
Qed.

Lemma Qltb_lt (x y : Q) : Qltb x y = true <-> x < y.
Proof.
  unfold Qltb. rewrite negb_true_iff, <- not_true_iff_false, Qle_bool_iff.
  split; [apply Qnot_le_lt | apply Qlt_not_le].
Qed.

Lemma Qltb_ge (x y : Q) : Qltb x y = false <-> y <= x.
Proof.
  unfold Qltb. rewrite negb_false_iff. apply Qle_bool_iff.
Qed.

(** ** Index sets *)

Lemma In_sorted_set (x : string) (l : list string) :
  In x (sorted_set l) <-> In x l.
Proof.
  unfold sorted_set. rewrite <- (nodup_In string_dec l x).
  split; intros H.
  - eapply Permutation_in; [symmetry; apply StringSort.Permuted_sort | exact H].
  - eapply Permutation_in; [apply StringSort.Permuted_sort | exact H].
Qed.

Lemma NoDup_sorted_set (l : list string) : NoDup (sorted_set l).
Proof.
  unfold sorted_set.
  eapply Permutation_NoDup; [apply StringSort.Permuted_sort | apply NoDup_nodup].
Qed.

Lemma In_Periods (d : demand_t) p c prod q :
  In ((p, c, prod), q) d -> In p (Periods d).
Proof.
  intros H. apply In_sorted_set, in_map_iff. exists ((p, c, prod), q). auto.
Qed.

Lemma In_Categories (d : demand_t) p c prod q :
  In ((p, c, prod), q) d -> In c (Categories d).
Proof.
  intros H. apply In_sorted_set, in_map_iff. exists ((p, c, prod), q). auto.
Qed.

Lemma In_Products (d : demand_t) p c prod q :
  In ((p, c, prod), q) d -> In prod (Products d).
Proof.
  intros H. apply In_sorted_set, in_map_iff. exists ((p, c, prod), q). auto.
Qed.

(** ** Dictionaries *)

Section DictFacts.
Context {K V : Type}.
Variable eqb : K -> K -> bool.
Hypothesis eqb_eq : forall a b, eqb a b = true <-> a = b.

Lemma eqb_same (a : K) : eqb a a = true.
Proof. apply eqb_eq. reflexivity. Qed.

Lemma eqb_diff (a b : K) : a <> b -> eqb a b = false.
Proof.
  intros H. destruct (eqb a b) eqn:E; [apply eqb_eq in E; contradiction | easy].
Qed.

Lemma dict_get_In (d : list (K * V)) k v :
  dict_get eqb d k = Some v -> In (k, v) d.
Proof.
  induction d as [|[k' v'] d IH]; simpl; [discriminate|].
  destruct (eqb k' k) eqn:E.
  - intros H. inversion H. apply eqb_eq in E. subst. auto.
  - auto.
Qed.

Lemma dict_get_set_same (d : list (K * V)) k v :
  dict_get eqb (dict_set eqb d k v) k = Some v.
Proof.
  induction d as [|[k' v'] d IH]; simpl.
  - rewrite eqb_same. reflexivity.
  - destruct (eqb k' k) eqn:E; simpl; rewrite E; auto.
Qed.

Lemma dict_get_set_other (d : list (K * V)) k v k0 :
  k <> k0 -> dict_get eqb (dict_set eqb d k v) k0 = dict_get eqb d k0.
Proof.
  intros Hne.
  induction d as [|[k' v'] d IH]; simpl.
  - rewrite eqb_diff; auto.
  - destruct (eqb k' k) eqn:E; simpl.
    + apply eqb_eq in E. subst k'. rewrite eqb_diff; auto.
    + rewrite IH. reflexivity.
Qed.

(** Setting every key of a list to one value. *)
Lemma dict_get_set_all (ks : list K) (v : V) :
  forall d k,
    dict_get eqb (fold_left (fun d k => dict_set eqb d k v) ks d) k
    = if existsb (eqb k) ks then Some v else dict_get eqb d k.
Proof.
  induction ks as [|k0 ks IH]; intros d k; simpl; [reflexivity|].
  rewrite IH. destruct (existsb (eqb k) ks).
  - rewrite orb_true_r. reflexivity.
  - rewrite orb_false_r. destruct (eqb k k0) eqn:E.
    + apply eqb_eq in E. subst k0. apply dict_get_set_same.
    + apply dict_get_set_other. intros ->. rewrite eqb_same in E. discriminate.
Qed.

Lemma dict_get_set_all_in (ks : list K) (v : V) d k :
  In k ks ->
  dict_get eqb (fold_left (fun d k => dict_set eqb d k v) ks d) k = Some v.
Proof.
  intros Hin. rewrite dict_get_set_all.
  replace (existsb (eqb k) ks) with true; [reflexivity|].
  symmetry. apply existsb_exists. exists k. split; [exact Hin | apply eqb_same].
Qed.

Lemma dict_get_set_all_out (ks : list K) (v : V) d k :
  ~ In k ks ->
  dict_get eqb (fold_left (fun d k => dict_set eqb d k v) ks d) k
  = dict_get eqb d k.
Proof.
  intros Hout. rewrite dict_get_set_all.
  destruct (existsb (eqb k) ks) eqn:E; [|reflexivity].
  apply existsb_exists in E as [k' [Hin Hk]].
  apply eqb_eq in Hk. subst k'. contradiction.
Qed.

Lemma In_dedupb (l : list K) (x : K) : In x (dedupb eqb l) <-> In x l.
Proof.
  induction l as [|y l IH]; simpl; [tauto|].
  rewrite filter_In, IH, negb_true_iff. split.
  - intros [H|[H _]]; auto.
  - intros [H|H]; auto.
    destruct (eqb y x) eqn:E; [apply eqb_eq in E; auto | auto].
Qed.
End DictFacts.

Lemma fold_left_map {A B C : Type} (f : A -> C -> A) (g : B -> C)
  (l : list B) (a : A) :
  fold_left (fun acc x => f acc (g x)) l a = fold_left f (map g l) a.
Proof. revert a. induction l as [|x l IH]; intros a; simpl; auto. Qed.

Lemma fold_left_pointwise {A B : Type} (f g : A -> B -> A) (l : list B) (a : A) :
  (forall a x, f a x = g a x) -> fold_left f l a = fold_left g l a.
Proof.
  intros H. revert a. induction l as [|x l IH]; intros a; simpl; [reflexivity|].
  rewrite H. apply IH.
Qed.

(** ** Feasibility Augmenter *)

Lemma augment_rate_fold (d : demand_t) (rt : rate_t) :
  augment_rate d rt
  = fold_left (fun r k => dict_set key4_eqb r k (1 # 100)) (rate_keys d) rt.
Proof.
  unfold augment_rate, rate_keys.
  rewrite <- (fold_left_map (fun r k => dict_set key4_eqb r k (1 # 100))).
  apply fold_left_pointwise. intros r [[[p c] prod] q]. reflexivity.
Qed.

Lemma augment_capacity_fold (d : demand_t) (cp : capacity_t) :
  augment_capacity d cp
  = fold_left (fun r k => dict_set key3_eqb r k PInf) (capacity_keys d) cp.
Proof.
  unfold augment_capacity, capacity_keys.
  rewrite <- (fold_left_map (fun r k => dict_set key3_eqb r k PInf)).
  reflexivity.
Qed.

Lemma In_rate_keys (d : demand_t) p c l prod :
  In (p, c, l, prod) (rate_keys d)
  <-> l = fictitious_line /\ exists q, In ((p, c, prod), q) d.
Proof.
  unfold rate_keys. rewrite in_map_iff. split.
  - intros [[[[p' c'] prod'] q] [H Hin]]. simpl in H. inversion H. subst.
    split; [reflexivity | exists q; exact Hin].
  - intros [-> [q Hin]]. exists ((p, c, prod), q). auto.
Qed.

Lemma In_capacity_keys (d : demand_t) p c l :
  In (p, c, l) (capacity_keys d)
  <-> l = fictitious_line /\ exists prod q, In ((p, c, prod), q) d.
Proof.
  unfold capacity_keys, demand_pairs. rewrite in_map_iff. split.
  - intros [[p' c'] [H Hin]]. simpl in H. inversion H. subst.
    apply (proj1 (In_dedupb key2_eqb key2_eqb_eq _ _)) in Hin.
    apply in_map_iff in Hin as [[[[p' c'] prod] q] [Hpc Hin]].
    simpl in Hpc. inversion Hpc. subst.
    split; [reflexivity | exists prod, q; exact Hin].
  - intros [-> [prod [q Hin]]]. exists (p, c). split; [reflexivity|].
    apply (proj2 (In_dedupb key2_eqb key2_eqb_eq _ _)).
    apply in_map_iff. exists ((p, c, prod), q). auto.
Qed.

(** A fallback rate of 0.01 for every demand triple. *)
Lemma augment_rate_fallback (d : demand_t) (rt : rate_t) p c prod q :
  In ((p, c, prod), q) d ->
  dict_get key4_eqb (augment_rate d rt) (p, c, fictitious_line, prod)
  = Some (1 # 100).
Proof.
  intros Hin. rewrite augment_rate_fold.
  apply (dict_get_set_all_in key4_eqb key4_eqb_eq).
  apply In_rate_keys. split; [reflexivity | exists q; exact Hin].
Qed.

(** No other rate entry is touched. *)
Lemma augment_rate_other (d : demand_t) (rt : rate_t) p c l prod :
  l <> fictitious_line \/ (forall q, ~ In ((p, c, prod), q) d) ->
  dict_get key4_eqb (augment_rate d rt) (p, c, l, prod)
  = dict_get key4_eqb rt (p, c, l, prod).
Proof.
  intros H. rewrite augment_rate_fold.
  apply (dict_get_set_all_out key4_eqb key4_eqb_eq).
  rewrite In_rate_keys. intros [Hl [q Hin]].
  destruct H as [H|H]; [contradiction | exact (H q Hin)].
Qed.

(** Infinite fallback capacity for every demand pair. *)
Lemma augment_capacity_fallback (d : demand_t) (cp : capacity_t) p c prod q :
  In ((p, c, prod), q) d ->
  dict_get key3_eqb (augment_capacity d cp) (p, c, fictitious_line) = Some PInf.
Proof.
  intros Hin. rewrite augment_capacity_fold.
  apply (dict_get_set_all_in key3_eqb key3_eqb_eq).
  apply In_capacity_keys. split; [reflexivity | exists prod, q; exact Hin].
Qed.

(** No other capacity entry is touched. *)
Lemma augment_capacity_other (d : demand_t) (cp : capacity_t) p c l :
  l <> fictitious_line \/ (forall prod q, ~ In ((p, c, prod), q) d) ->
  dict_get key3_eqb (augment_capacity d cp) (p, c, l)
  = dict_get key3_eqb cp (p, c, l).
Proof.
  intros H. rewrite augment_capacity_fold.
  apply (dict_get_set_all_out key3_eqb key3_eqb_eq).
  rewrite In_capacity_keys. intros [Hl [prod [q Hin]]].
  destruct H as [H|H]; [contradiction | exact (H prod q Hin)].
Qed.

(** ** Sums *)

Lemma sumQ_app (a b : list Q) : sumQ (a ++ b) == sumQ a + sumQ b.
Proof.
  induction a as [|x a IH]; simpl; [lra|]. rewrite IH. lra.
Qed.

Lemma sumQ_map_Qeq {A : Type} (f g : A -> Q) (l : list A) :
  (forall x, In x l -> f x == g x) -> sumQ (map f l) == sumQ (map g l).
Proof.
  induction l as [|x l IH]; intros H; simpl; [lra|].
  rewrite IH by (intros; apply H; simpl; auto).
  rewrite (H x) by (simpl; auto). lra.
Qed.

Lemma sumQ_map_le {A : Type} (f g : A -> Q) (l : list A) :
  (forall x, In x l -> f x <= g x) -> sumQ (map f l) <= sumQ (map g l).
Proof.
  induction l as [|x l IH]; intros H; simpl; [lra|].
  assert (f x <= g x) by (apply H; simpl; auto).
  assert (sumQ (map f l) <= sumQ (map g l)) by (apply IH; intros; apply H; simpl; auto).
  lra.
Qed.

Lemma sumQ_map_lt {A : Type} (f g : A -> Q) (l : list A) (x0 : A) :
  (forall x, In x l -> f x <= g x) -> In x0 l -> f x0 < g x0 ->
  sumQ (map f l) < sumQ (map g l).
Proof.
  induction l as [|x l IH]; intros H Hin Hlt; simpl; [contradiction|].
  assert (f x <= g x) by (apply H; simpl; auto).
  assert (sumQ (map f l) <= sumQ (map g l))
    by (apply sumQ_map_le; intros; apply H; simpl; auto).
  destruct Hin as [->|Hin]; [lra|].
  assert (sumQ (map f l) < sumQ (map g l))
    by (apply IH; auto; intros; apply H; simpl; auto).
  lra.
Qed.

Lemma sumQ_map_zero {A : Type} (f : A -> Q) (l : list A) :
  (forall x, In x l -> f x == 0) -> sumQ (map f l) == 0.
Proof.
  induction l as [|x l IH]; intros H; simpl; [lra|].
  rewrite IH by (intros; apply H; simpl; auto).
  rewrite (H x) by (simpl; auto). lra.
Qed.

Lemma sumQ_map_nonneg {A : Type} (f : A -> Q) (l : list A) :
  (forall x, In x l -> 0 <= f x) -> 0 <= sumQ (map f l).
Proof.
  induction l as [|x l IH]; intros H; simpl; [lra|].
  assert (0 <= f x) by (apply H; simpl; auto).
  assert (0 <= sumQ (map f l)) by (apply IH; intros; apply H; simpl; auto).
  lra.
Qed.

(** In a duplicate-free list only the chosen index contributes. *)
Lemma sumQ_pick {A : Type} (f : A -> Q) (l : list A) (x0 : A) :
  NoDup l -> In x0 l -> (forall x, In x l -> x <> x0 -> f x == 0) ->
  sumQ (map f l) == f x0.
Proof.
  induction l as [|x l IH]; intros Hnd Hin Hz; simpl; [contradiction|].
  inversion Hnd as [|? ? Hx Hnd']; subst.
  destruct Hin as [->|Hin].
  - rewrite sumQ_map_zero; [lra|].
    intros y Hy. apply Hz; [simpl; auto | intros ->; contradiction].
  - rewrite IH; auto.
    + rewrite (Hz x); [lra | simpl; auto | intros ->; contradiction].
    + intros y Hy. apply Hz. simpl; auto.
Qed.

Lemma sum_by_nil (f : row -> Q) (P : row -> bool) : sum_by f P [] == 0.
Proof. unfold sum_by. simpl. lra. Qed.

Lemma sum_by_cons (f : row -> Q) (P : row -> bool) (r : row) (rows : list row) :
  sum_by f P (r :: rows) == (if P r then f r else 0) + sum_by f P rows.
Proof. unfold sum_by. simpl. destruct (P r); simpl; lra. Qed.

Lemma sum_by_app (f : row -> Q) (P : row -> bool) (a b : list row) :
  sum_by f P (a ++ b) == sum_by f P a + sum_by f P b.
Proof. unfold sum_by. rewrite filter_app, map_app. apply sumQ_app. Qed.

Lemma sum_by_flat_map {A : Type} (f : row -> Q) (P : row -> bool)
  (g : A -> list row) (l : list A) :
  sum_by f P (flat_map g l) == sumQ (map (fun x => sum_by f P (g x)) l).
Proof.
  induction l as [|x l IH]; simpl; [apply sum_by_nil|].
  rewrite sum_by_app, IH. lra.
Qed.

Lemma sum_by_none (f : row -> Q) (P : row -> bool) (rows : list row) :
  (forall r, In r rows -> P r = false) -> sum_by f P rows == 0.
Proof.
  induction rows as [|r rows IH]; intros H; [apply sum_by_nil|].
  rewrite sum_by_cons, (H r) by (simpl; auto).
  rewrite IH by (intros; apply H; simpl; auto). lra.
Qed.

Lemma sum_by_all (f : row -> Q) (P : row -> bool) (rows : list row) :
  (forall r, In r rows -> P r = true) -> sum_by f P rows == sumQ (map f rows).
Proof.
  induction rows as [|r rows IH]; intros H; [apply sum_by_nil|].
  rewrite sum_by_cons, (H r) by (simpl; auto).
  rewrite IH by (intros; apply H; simpl; auto). simpl. lra.
Qed.

(** Splitting a table by a test, as the fallback / non-fallback split does. *)
Lemma sum_by_split (f : row -> Q) (P T : row -> bool) (rows : list row) :
  sum_by f P rows
  == sum_by f P (filter (fun r => negb (T r)) rows) + sum_by f P (filter T rows).
Proof.
  induction rows as [|r rows IH]; simpl; [rewrite !sum_by_nil; lra|].
  rewrite sum_by_cons, IH.
  destruct (T r); simpl; rewrite sum_by_cons; lra.
Qed.

(** ** Aggregation *)

Section GroupBy.
Variable f : row -> Q.
Hypothesis f_merge : forall r' r, f (merge_rows r' r) == f r' + f r.
Variable P : row -> bool.
Hypothesis P_key : forall r r', row_key r = row_key r' -> P r = P r'.

Lemma sum_by_add_row (r : row) (acc : list row) :
  sum_by f P (add_row r acc) == sum_by f P acc + (if P r then f r else 0).
Proof.
  induction acc as [|r' acc IH]; cbn [add_row].
  - rewrite sum_by_cons, sum_by_nil. lra.
  - destruct (key4_compare (row_key r) (row_key r')) eqn:E.
    + apply key4_compare_Eq in E.
      rewrite !sum_by_cons.
      rewrite (P_key (merge_rows r' r) r') by reflexivity.
      rewrite (P_key r r') by exact E.
      destruct (P r'); [rewrite f_merge|]; lra.
    + rewrite !sum_by_cons. lra.
    + rewrite !sum_by_cons, IH. lra.
Qed.

Lemma sum_by_fold_add_row (rows acc : list row) :
  sum_by f P (fold_left (fun acc r => add_row r acc) rows acc)
  == sum_by f P acc + sum_by f P rows.
Proof.
  revert acc. induction rows as [|r rows IH]; intros acc; simpl.
  - rewrite sum_by_nil. lra.
  - rewrite IH, sum_by_add_row, sum_by_cons. lra.
Qed.

(** Aggregation keeps the total of every key-defined group. *)
Lemma sum_by_groupby_sum (rows : list row) :
  sum_by f P (groupby_sum rows) == sum_by f P rows.
Proof.
  unfold groupby_sum. rewrite sum_by_fold_add_row, sum_by_nil. lra.
Qed.
End GroupBy.

Lemma Hours_merge (r' r : row) : Hours (merge_rows r' r) == Hours r' + Hours r.
Proof. reflexivity. Qed.

Lemma Kg_merge (r' r : row) :
  Kg_Produced (merge_rows r' r) == Kg_Produced r' + Kg_Produced r.
Proof. reflexivity. Qed.

Lemma on_product_key p c prod (r r' : row) :
  row_key r = row_key r' -> on_product p c prod r = on_product p c prod r'.
Proof.
  unfold row_key, on_product. intros H. inversion H as [[Hp Hc Hl Hx]].
  rewrite Hp, Hc, Hx. reflexivity.
Qed.

Lemma on_line_key p c l (r r' : row) :
  row_key r = row_key r' -> on_line p c l r = on_line p c l r'.
Proof.
  unfold row_key, on_line. intros H. inversion H as [[Hp Hc Hl Hx]].
  rewrite Hp, Hc, Hl. reflexivity.
Qed.

(** Every aggregated row carries the key of some input row. *)
Lemma add_row_key (r r0 : row) (acc : list row) :
  In r0 (add_row r acc) ->
  row_key r0 = row_key r \/ exists r1, In r1 acc /\ row_key r0 = row_key r1.
Proof.
  induction acc as [|r' acc IH]; cbn [add_row].
  - intros [<-|[]]. auto.
  - destruct (key4_compare (row_key r) (row_key r')) eqn:E.
    + intros [<-|H].
      * right. exists r'. split; [left; reflexivity | reflexivity].
      * right. exists r0. split; [right; exact H | reflexivity].
    + intros [<-|[<-|H]].
      * left. reflexivity.
      * right. exists r'. split; [left; reflexivity | reflexivity].
      * right. exists r0. split; [right; exact H | reflexivity].
    + intros [<-|H].
      * right. exists r'. split; [left; reflexivity | reflexivity].
      * destruct (IH H) as [Hk|[r1 [Hin Hk]]]; [left; exact Hk|].
        right. exists r1. split; [right; exact Hin | exact Hk].
Qed.

Lemma groupby_sum_key (rows : list row) (r0 : row) :
  In r0 (groupby_sum rows) -> exists r1, In r1 rows /\ row_key r0 = row_key r1.
Proof.
  unfold groupby_sum.
  assert (G : forall acc,
    In r0 (fold_left (fun acc r => add_row r acc) rows acc) ->
    (exists r1, In r1 acc /\ row_key r0 = row_key r1)
    \/ exists r1, In r1 rows /\ row_key r0 = row_key r1).
  { induction rows as [|r rows IH]; intros acc; simpl.
    { intros H. left. exists r0. split; [exact H | reflexivity]. }
    intros H. destruct (IH _ H) as [[r1 [Hin Hk]]|[r1 [Hin Hk]]].
    - destruct (add_row_key _ _ _ Hin) as [Hk'|[r2 [Hin2 Hk2]]].
      + right. exists r. split; [auto | congruence].
      + left. exists r2. split; [auto | congruence].
    - right. exists r1. auto. }
  intros H. destruct (G [] H) as [[r1 [[] _]]|H']; exact H'.
Qed.

(** ** Fallback Redistributor *)

Lemma In_eligible_lines (Ls : list string) (rate : rate_t) p c prod l :
  In l (eligible_lines Ls rate p c prod)
  <-> In l Ls /\ dict_mem key4_eqb rate (p, c, l, prod) = true
      /\ l <> fallback_name.
Proof.
  unfold eligible_lines.
  rewrite filter_In, andb_true_iff, negb_true_iff, String.eqb_neq. tauto.
Qed.

Lemma In_redistribute_line (rate : rate_t) p c prod kgs l r :
  In r (redistribute_line rate p c prod kgs l) ->
  Period r = p /\ Category r = c /\ Line r = l /\ Product r = prod
  /\ Kg_Produced r = kgs.
Proof.
  unfold redistribute_line.
  destruct (dict_get key4_eqb rate (p, c, l, prod)) as [rt|]; [|intros []].
  destruct (Qltb 0 rt); [|intros []].
  intros [<-|[]]. simpl. auto.
Qed.

Lemma In_redistribute_row (Ls : list string) (rate : rate_t) (r0 r : row) :
  In r (redistribute_row Ls rate r0) ->
  Period r = Period r0 /\ Category r = Category r0 /\ Product r = Product r0
  /\ In (Line r)
        (eligible_lines Ls rate (Period r0) (Category r0) (Product r0)).
Proof.
  unfold redistribute_row.
  destruct (eligible_lines Ls rate (Period r0) (Category r0) (Product r0))
    as [|l0 el] eqn:E; [intros []|].
  intros H. apply in_flat_map in H as [l [Hl Hr]].
  apply In_redistribute_line in Hr as (Hp & Hc & Hln & Hx & _).
  rewrite Hln. auto.
Qed.

(** Mass handed out over a list of lines that all have a positive rate. *)
Lemma redistribute_lines_mass (rate : rate_t) p c prod kgs (el : list string) :
  (forall l, In l el -> 0 < dict_get_or key4_eqb rate (p, c, l, prod) 0) ->
  sumQ (map Kg_Produced (flat_map (redistribute_line rate p c prod kgs) el))
  == inject_Z (Z.of_nat (List.length el)) * kgs.
Proof.
  induction el as [|l el IH]; intros Hpos.
  - change (0 == 0 * kgs). lra.
  - cbn [flat_map List.length]. rewrite map_app, sumQ_app, IH
      by (intros; apply Hpos; simpl; auto).
    assert (Hl : 0 < dict_get_or key4_eqb rate (p, c, l, prod) 0)
      by (apply Hpos; simpl; auto).
    unfold redistribute_line, dict_get_or in *.
    destruct (dict_get key4_eqb rate (p, c, l, prod)) as [rt|]; [|lra].
    apply Qltb_lt in Hl. rewrite Hl. cbn [map sumQ fold_right Kg_Produced].
    rewrite Nat2Z.inj_succ, <- Z.add_1_r, inject_Z_plus.
    change (inject_Z 1) with 1. lra.
Qed.

(** Equal split over a non-empty set of lines with positive rates returns
    exactly the mass of the fallback record. *)
Lemma redistribute_row_mass (Ls : list string) (rate : rate_t) (r : row) :
  eligible_lines Ls rate (Period r) (Category r) (Product r) <> [] ->
  (forall l,
     In l (eligible_lines Ls rate (Period r) (Category r) (Product r)) ->
     0 < dict_get_or key4_eqb rate (Period r, Category r, l, Product r) 0) ->
  sumQ (map Kg_Produced (redistribute_row Ls rate r)) == Kg_Produced r.
Proof.
  unfold redistribute_row.
  destruct (eligible_lines Ls rate (Period r) (Category r) (Product r))
    as [|l0 el] eqn:E; [congruence|].
  intros _ Hpos. rewrite redistribute_lines_mass by exact Hpos.
  set (n := inject_Z (Z.of_nat (List.length (l0 :: el)))).
  assert (Hn : 0 < n).
  { unfold n. replace 0 with (inject_Z 0) by reflexivity.
    rewrite <- Zlt_Qlt. simpl List.length. lia. }
  field. lra.
Qed.

(** What the redistributor adds to a product key is what the fallback rows
    of that key carried, when the key's eligible lines all have a positive
    rate. *)
Lemma adjusted_rows_mass (Ls : list string) (rate : rate_t) p c prod
  (fb : list row) :
  eligible_lines Ls rate p c prod <> [] ->
  (forall l, In l (eligible_lines Ls rate p c prod) ->
             0 < dict_get_or key4_eqb rate (p, c, l, prod) 0) ->
  sum_by Kg_Produced (on_product p c prod) (adjusted_rows Ls rate fb)
  == sum_by Kg_Produced (on_product p c prod) fb.
Proof.
  intros Hne Hpos. unfold adjusted_rows.
  induction fb as [|r fb IH]; [simpl; lra|].
  cbn [flat_map]. rewrite sum_by_app, sum_by_cons, IH.
  apply Qplus_inj_r.
  destruct (on_product p c prod r) eqn:E.
  - unfold on_product in E. rewrite !andb_true_iff, !String.eqb_eq in E.
    destruct E as [[Ep Ec] Ex].
    rewrite sum_by_all.
    + apply redistribute_row_mass; rewrite Ep, Ec, Ex; assumption.
    + intros r' Hr'. apply In_redistribute_row in Hr' as (Hp & Hc & Hx & _).
      unfold on_product. rewrite Hp, Hc, Hx, Ep, Ec, Ex, !String.eqb_refl.
      reflexivity.
  - apply sum_by_none. intros r' Hr'.
    apply In_redistribute_row in Hr' as (Hp & Hc & Hx & _).
    unfold on_product in *. rewrite Hp, Hc, Hx. exact E.
Qed.

(** ** The final table *)

Lemma final_table_eq (d : demand_t) (cp : capacity_t) (rt : rate_t) value :
  results_df_adjusted (post_solve d cp rt value)
  = groupby_sum
      (filter (fun r => negb (is_fallback r)) (results_df (post_solve d cp rt value))
       ++ adjusted_rows (Lines cp) (augment_rate d rt)
            (filter is_fallback (results_df (post_solve d cp rt value)))).
Proof. reflexivity. Qed.

Lemma final_no_fallback (d : demand_t) (cp : capacity_t) (rt : rate_t) value r :
  In r (results_df_adjusted (post_solve d cp rt value)) ->
  Line r <> fallback_name.
Proof.
  rewrite final_table_eq. intros H.
  apply groupby_sum_key in H as [r1 [Hin Hk]].
  assert (Hl : Line r = Line r1) by (unfold row_key in Hk; congruence).
  rewrite Hl. clear Hl Hk r.
  apply in_app_or in Hin as [Hin|Hin].
  - apply filter_In in Hin as [_ Hf]. unfold is_fallback in Hf.
    rewrite negb_true_iff in Hf. apply String.eqb_neq. exact Hf.
  - unfold adjusted_rows in Hin. apply in_flat_map in Hin as [r0 [_ Hr]].
    apply In_redistribute_row in Hr as (_ & _ & _ & Hel).
    apply In_eligible_lines in Hel. tauto.
Qed.

(** ** The linear program *)

Lemma feasible_domain (m : model) (X : assignment) p c l prod :
  feasible m X = true ->
  In p (PERIODS m) -> In c (CATEGORIES m) -> In l (LINES m) ->
  In prod (PRODUCTS m) -> 0 <= X (p, c, l, prod).
Proof.
  unfold feasible, domain_rule. rewrite !andb_true_iff.
  intros [[H _] _] Hp Hc Hl Hx.
  rewrite forallb_forall in H. specialize (H p Hp).
  rewrite forallb_forall in H. specialize (H c Hc).
  rewrite forallb_forall in H. specialize (H l Hl).
  rewrite forallb_forall in H. specialize (H prod Hx).
  apply Qle_bool_iff. exact H.
Qed.

Lemma feasible_demand (m : model) (X : assignment) p c prod :
  feasible m X = true ->
  In p (PERIODS m) -> In c (CATEGORIES m) -> In prod (PRODUCTS m) ->
  dict_get_or key3_eqb (m_demand m) (p, c, prod) 0
  <= sumQ (map (fun l => X (p, c, l, prod)
                         * dict_get_or key4_eqb (m_rate m) (p, c, l, prod) 0)
               (LINES m)).
Proof.
  unfold feasible, DemandConstraint. rewrite !andb_true_iff.
  intros [[_ H] _] Hp Hc Hx.
  rewrite forallb_forall in H. specialize (H p Hp).
  rewrite forallb_forall in H. specialize (H c Hc).
  rewrite forallb_forall in H. specialize (H prod Hx).
  apply Qle_bool_iff. exact H.
Qed.

Lemma feasible_capacity (m : model) (X : assignment) p c l :
  feasible m X = true ->
  In p (PERIODS m) -> In c (CATEGORIES m) -> In l (LINES m) ->
  capacity_rule m X p c l = true.
Proof.
  unfold feasible, CapacityConstraint. rewrite !andb_true_iff.
  intros [_ H] Hp Hc Hl.
  rewrite forallb_forall in H. specialize (H p Hp).
  rewrite forallb_forall in H. specialize (H c Hc).
  rewrite forallb_forall in H. exact (H l Hl).
Qed.

(** ** Result Extractor *)

Lemma In_extract_cell (rate : rate_t) value p c l prod r :
  In r (extract_cell rate value p c l prod) ->
  Period r = p /\ Category r = c /\ Line r = l /\ Product r = prod.
Proof.
  unfold extract_cell. destruct (value (p, c, l, prod)) as [v|]; [|intros []].
  destruct (Qltb 0 v); [|intros []]. intros [<-|[]]. simpl. auto.
Qed.

Lemma sum_by_extract (f : row -> Q) (P : row -> bool)
  (Ps Cs Ls Prs : list string) (rate : rate_t) value :
  sum_by f P (extract Ps Cs Ls Prs rate value)
  == sumQ (map (fun p => sumQ (map (fun c => sumQ (map (fun l => sumQ (map
       (fun prod => sum_by f P (extract_cell rate value p c l prod))
       Prs)) Ls)) Cs)) Ps).
Proof.
  unfold extract. rewrite sum_by_flat_map.
  apply sumQ_map_Qeq. intros p _. rewrite sum_by_flat_map.
  apply sumQ_map_Qeq. intros c _. rewrite sum_by_flat_map.
  apply sumQ_map_Qeq. intros l _. apply sum_by_flat_map.
Qed.

(** The mass column of a cell, for a non-negative variable. *)
Lemma cell_mass (rate : rate_t) (X : assignment) p c l prod :
  0 <= X (p, c, l, prod) ->
  sum_by Kg_Produced (on_product p c prod)
         (extract_cell rate (assigned X) p c l prod)
  == X (p, c, l, prod) * dict_get_or key4_eqb rate (p, c, l, prod) 0.
Proof.
  intros Hx. unfold extract_cell, assigned.
  destruct (Qltb 0 (X (p, c, l, prod))) eqn:E.
  - rewrite sum_by_cons, sum_by_nil. unfold on_product. simpl.
    rewrite !String.eqb_refl. simpl. lra.
  - apply Qltb_ge in E. rewrite sum_by_nil.
    assert (X (p, c, l, prod) == 0) as -> by lra. lra.
Qed.

(** The hours column of a cell, for a non-negative variable. *)
Lemma cell_hours (rate : rate_t) (X : assignment) p c l prod :
  0 <= X (p, c, l, prod) ->
  sum_by Hours (on_line p c l) (extract_cell rate (assigned X) p c l prod)
  == X (p, c, l, prod).
Proof.
  intros Hx. unfold extract_cell, assigned.
  destruct (Qltb 0 (X (p, c, l, prod))) eqn:E.
  - rewrite sum_by_cons, sum_by_nil. unfold on_line. simpl.
    rewrite !String.eqb_refl. simpl. lra.
  - apply Qltb_ge in E. rewrite sum_by_nil. lra.
Qed.

Lemma cell_off (f : row -> Q) (P : row -> bool) (rate : rate_t) value
  p c l prod :
  (forall r, Period r = p -> Category r = c -> Line r = l -> Product r = prod ->
             P r = false) ->
  sum_by f P (extract_cell rate value p c l prod) == 0.
Proof.
  intros H. apply sum_by_none. intros r Hr.
  apply In_extract_cell in Hr as (Hp & Hc & Hl & Hx). auto.
Qed.

Lemma on_product_off p0 c0 prod0 (r : row) :
  Period r <> p0 \/ Category r <> c0 \/ Product r <> prod0 ->
  on_product p0 c0 prod0 r = false.
Proof.
  unfold on_product. rewrite !andb_false_iff, !String.eqb_neq. tauto.
Qed.

Lemma on_line_off p0 c0 l0 (r : row) :
  Period r <> p0 \/ Category r <> c0 \/ Line r <> l0 ->
  on_line p0 c0 l0 r = false.
Proof.
  unfold on_line. rewrite !andb_false_iff, !String.eqb_neq. tauto.
Qed.

(** Raw mass of a product key: one term per line. *)
Lemma raw_mass_on_product (Ps Cs Ls Prs : list string) (rate : rate_t)
  (X : assignment) p c prod :
  NoDup Ps -> NoDup Cs -> NoDup Prs ->
  In p Ps -> In c Cs -> In prod Prs ->
  (forall l, In l Ls -> 0 <= X (p, c, l, prod)) ->
  sum_by Kg_Produced (on_product p c prod)
         (extract Ps Cs Ls Prs rate (assigned X))
  == sumQ (map (fun l => X (p, c, l, prod)
                         * dict_get_or key4_eqb rate (p, c, l, prod) 0) Ls).
Proof.
  intros NPs NCs NPrs Hp Hc Hx Hpos.
  rewrite sum_by_extract.
  rewrite (sumQ_pick _ Ps p NPs Hp).
  2:{ intros p' _ Hne. apply sumQ_map_zero. intros c' _.
      apply sumQ_map_zero. intros l' _. apply sumQ_map_zero. intros x' _.
      apply cell_off. intros r Hr _ _ _. apply on_product_off. left. congruence. }
  rewrite (sumQ_pick _ Cs c NCs Hc).
  2:{ intros c' _ Hne. apply sumQ_map_zero. intros l' _.
      apply sumQ_map_zero. intros x' _.
      apply cell_off. intros r _ Hr _ _. apply on_product_off.
      right; left. congruence. }
  apply sumQ_map_Qeq. intros l Hl.
  rewrite (sumQ_pick _ Prs prod NPrs Hx).
  2:{ intros x' _ Hne. apply cell_off. intros r _ _ _ Hr.
      apply on_product_off. right; right. congruence. }
  apply cell_mass. apply Hpos. exact Hl.
Qed.

Lemma sumQ_pick_app {A : Type} (f : A -> Q) (S T : list A) (x0 : A) :
  NoDup S -> In x0 S -> ~ In x0 T ->
  (forall x, In x (S ++ T) -> x <> x0 -> f x == 0) ->
  sumQ (map f (S ++ T)) == f x0.
Proof.
  intros Hnd Hin Hout Hz. rewrite map_app, sumQ_app.
  rewrite (sumQ_pick f S x0 Hnd Hin)
    by (intros; apply Hz; [apply in_or_app; auto | assumption]).
  rewrite sumQ_map_zero; [lra|].
  intros y Hy. apply Hz; [apply in_or_app; auto | intros ->; contradiction].
Qed.

(** Raw hours of a line key: one term per product.  The line list is the
    sorted real lines [S] followed by the appended fallback [T]. *)
Lemma raw_hours_on_line (Ps Cs S T Prs : list string) (rate : rate_t)
  (X : assignment) p c l :
  NoDup Ps -> NoDup Cs -> NoDup S ->
  In p Ps -> In c Cs -> In l S -> ~ In l T ->
  (forall prod, In prod Prs -> 0 <= X (p, c, l, prod)) ->
  sum_by Hours (on_line p c l) (extract Ps Cs (S ++ T) Prs rate (assigned X))
  == sumQ (map (fun prod => X (p, c, l, prod)) Prs).
Proof.
  intros NPs NCs NLs Hp Hc Hl HlT Hpos.
  rewrite sum_by_extract.
  rewrite (sumQ_pick _ Ps p NPs Hp).
  2:{ intros p' _ Hne. apply sumQ_map_zero. intros c' _.
      apply sumQ_map_zero. intros l' _. apply sumQ_map_zero. intros x' _.
      apply cell_off. intros r Hr _ _ _. apply on_line_off. left. congruence. }
  rewrite (sumQ_pick _ Cs c NCs Hc).
  2:{ intros c' _ Hne. apply sumQ_map_zero. intros l' _.
      apply sumQ_map_zero. intros x' _.
      apply cell_off. intros r _ Hr _ _. apply on_line_off.
      right; left. congruence. }
  rewrite (sumQ_pick_app _ S T l NLs Hl HlT).
  2:{ intros l' _ Hne. apply sumQ_map_zero. intros x' _.
      apply cell_off. intros r _ _ Hr _. apply on_line_off.
      right; right. congruence. }
  apply sumQ_map_Qeq. intros prod Hx. apply cell_hours. apply Hpos. exact Hx.
Qed.

(** If one of the indices is not in its index set, the key has no raw row. *)
Lemma raw_off_line (f : row -> Q) (Ps Cs Ls Prs : list string) (rate : rate_t)
  value p c l :
  ~ In p Ps \/ ~ In c Cs \/ ~ In l Ls ->
  sum_by f (on_line p c l) (extract Ps Cs Ls Prs rate value) == 0.
Proof.
  intros Hout. rewrite sum_by_extract.
  apply sumQ_map_zero. intros p' Hp'. apply sumQ_map_zero. intros c' Hc'.
  apply sumQ_map_zero. intros l' Hl'. apply sumQ_map_zero. intros x' _.
  apply cell_off. intros r Hp Hc Hl _. apply on_line_off.
  destruct Hout as [H|[H|H]].
  - left. intros E. apply H. congruence.
  - right; left. intros E. apply H. congruence.
  - right; right. intros E. apply H. congruence.
Qed.

(** ** Concrete linear programs *)

Lemma if_and_true (a b : bool) :
  (if a then b else false) = true -> a = true /\ b = true.
Proof. destruct a, b; auto. Qed.

Ltac lp_norm :=
  cbv -[Qplus Qmult Qle_bool Qle Qlt Qeq Qdiv Qinv Qminus Qopp].

Ltac lp_norm_in H :=
  cbv -[Qplus Qmult Qle_bool Qle Qlt Qeq Qdiv Qinv Qminus Qopp] in H.

Ltac lp_split H :=
  lazymatch type of H with
  | (if _ then _ else false) = true =>
      let H1 := fresh H in
      apply if_and_true in H as [H1 H]; lp_split H1; lp_split H
  | Qle_bool _ _ = true => apply Qle_bool_iff in H
  | true = true => clear H
  | _ => idtac
  end.

Lemma scn_model :
  build_model scn_demand scn_capacity scn_rate
  = mkModel ["P1"] ["Choc"] ["A"] ["L1"; "Fallback_Line"] scn_demand
      [(("P1", "Choc", "L1"), Fin 10); (("P1", "Choc", "Fallback_Line"), PInf)]
      [(("P1", "Choc", "L1", "A"), 5);
       (("P1", "Choc", "Fallback_Line", "A"), 1 # 100)].
Proof. reflexivity. Qed.

Lemma scn_optimal : optimal (build_model scn_demand scn_capacity scn_rate) scn_X.
Proof.
  split; [reflexivity|].
  intros Y HY. rewrite scn_model in *.
  unfold feasible in HY. lp_norm_in HY. lp_split HY.
  lp_norm. lra.
Qed.

Lemma zr_optimal : optimal (build_model scn_demand scn_capacity zr_rate) zr_X.
Proof.
  split; [reflexivity|].
  intros Y HY.
  change (build_model scn_demand scn_capacity zr_rate)
    with (mkModel ["P1"] ["Choc"] ["A"] ["L1"; "Fallback_Line"] scn_demand
            [(("P1", "Choc", "L1"), Fin 10);
             (("P1", "Choc", "Fallback_Line"), PInf)]
            [(("P1", "Choc", "L1", "A"), 0);
             (("P1", "Choc", "Fallback_Line", "A"), 1 # 100)]) in *.
  unfold feasible in HY. lp_norm_in HY. lp_split HY.
  lp_norm. lra.
Qed.

(** ** Coverage of demand *)

Lemma eligible_lines_augment (Ls : list string) (d : demand_t) (rt : rate_t)
  p c prod :
  eligible_lines Ls (augment_rate d rt) p c prod = eligible_lines Ls rt p c prod.
Proof.
  unfold eligible_lines. apply filter_ext. intros l.
  destruct (String.eqb l fallback_name) eqn:E.
  - rewrite !andb_false_r. reflexivity.
  - apply String.eqb_neq in E. unfold dict_mem.
    rewrite augment_rate_other by (left; exact E). reflexivity.
Qed.

Lemma rate_augment_real (d : demand_t) (rt : rate_t) p c l prod :
  l <> fallback_name ->
  dict_get_or key4_eqb (augment_rate d rt) (p, c, l, prod) 0
  = dict_get_or key4_eqb rt (p, c, l, prod) 0.
Proof.
  intros Hl. unfold dict_get_or.
  rewrite augment_rate_other by (left; exact Hl). reflexivity.
Qed.

(** With a non-empty eligible set whose rates are all positive, aggregation
    and redistribution keep the mass of the product key. *)
Lemma final_mass_on_product (d : demand_t) (cp : capacity_t) (rt : rate_t)
  value p c prod :
  eligible_lines (Lines cp) rt p c prod <> [] ->
  (forall l, In l (eligible_lines (Lines cp) rt p c prod) ->
             0 < dict_get_or key4_eqb rt (p, c, l, prod) 0) ->
  sum_by Kg_Produced (on_product p c prod)
         (results_df_adjusted (post_solve d cp rt value))
  == sum_by Kg_Produced (on_product p c prod)
            (results_df (post_solve d cp rt value)).
Proof.
  intros Hne Hpos. rewrite final_table_eq.
  rewrite (sum_by_groupby_sum _ Kg_merge _ (on_product_key p c prod)).
  rewrite sum_by_app, adjusted_rows_mass.
  - symmetry. apply sum_by_split.
  - rewrite eligible_lines_augment. exact Hne.
  - rewrite eligible_lines_augment. intros l Hl.
    rewrite rate_augment_real; [apply Hpos; exact Hl|].
    apply In_eligible_lines in Hl. tauto.
Qed.

Lemma raw_mass_covers (d : demand_t) (cp : capacity_t) (rt : rate_t)
  (X : assignment) p c prod q :
  feasible (build_model d cp rt) X = true ->
  dict_get key3_eqb d (p, c, prod) = Some q ->
  q <= sum_by Kg_Produced (on_product p c prod) (RawAllocationTable d cp rt X).
Proof.
  intros Hf Hq.
  pose proof (dict_get_In key3_eqb key3_eqb_eq _ _ _ Hq) as Hin.
  pose proof (In_Periods _ _ _ _ _ Hin) as Hp.
  pose proof (In_Categories _ _ _ _ _ Hin) as Hc.
  pose proof (In_Products _ _ _ _ _ Hin) as Hx.
  unfold RawAllocationTable, post_solve. cbn [results_df].
  rewrite raw_mass_on_product;
    try apply NoDup_sorted_set; try assumption.
  - pose proof (feasible_demand _ _ p c prod Hf Hp Hc Hx) as Hd.
    cbn [m_demand m_rate LINES build_model] in Hd.
    unfold dict_get_or at 1 in Hd. rewrite Hq in Hd. exact Hd.
  - intros l Hl. apply (feasible_domain _ _ p c l prod Hf); assumption.
Qed.

(** C1 (as amended).  For a demand key that has at least one eligible real
    line and whose eligible real lines all have a positive rate, the final
    allocation table covers the stated demand: the mass summed over its rows
    for that (period, category, product) is at least the demanded quantity,
    for every assignment that satisfies the constraints. *)
Theorem final_allocation_covers_demand (d : demand_t) (cp : capacity_t)
  (rt : rate_t) (X : assignment) p c prod q :
  feasible (build_model d cp rt) X = true ->
  dict_get key3_eqb d (p, c, prod) = Some q ->
  eligible_lines (Lines cp) rt p c prod <> [] ->
  (forall l, In l (eligible_lines (Lines cp) rt p c prod) ->
             0 < dict_get_or key4_eqb rt (p, c, l, prod) 0) ->
  q <= sum_by Kg_Produced (on_product p c prod) (AllocationTable d cp rt X).
Proof.
  intros Hf Hq Hne Hpos. unfold AllocationTable.
  rewrite final_mass_on_product by assumption.
  apply raw_mass_covers; assumption.
Qed.

Lemma final_allocation_covers_demand_witness :
  100 <= sum_by Kg_Produced (on_product "P1" "Choc" "A")
           (AllocationTable scn_demand scn_capacity scn_rate scn_X).
Proof.
  apply (final_allocation_covers_demand scn_demand scn_capacity scn_rate scn_X
           "P1" "Choc" "A" 100).
  - reflexivity.
  - reflexivity.
  - vm_compute. discriminate.
  - intros l Hl. vm_compute in Hl. destruct Hl as [<-|[]]. reflexivity.
Defined.

(** C1 as stated fails: with demand 100 for (P1, Choc, A), one line L1 of
    capacity 10 and a rate entry of 0 for it, the optimal solution puts all
    100 kg on the fallback line; L1 counts as eligible, its share is then
    skipped for want of a positive rate, and the final table is empty. *)
Lemma final_allocation_may_miss_demand :
  optimal (build_model scn_demand scn_capacity zr_rate) zr_X
  /\ dict_get key3_eqb scn_demand ("P1", "Choc", "A") = Some 100
  /\ AllocationTable scn_demand scn_capacity zr_rate zr_X = []
  /\ ~ (100 - (1 # 1000000)
        <= sum_by Kg_Produced (on_product "P1" "Choc" "A")
             (AllocationTable scn_demand scn_capacity zr_rate zr_X)).
Proof.
  split; [exact zr_optimal|].
  split; [reflexivity|].
  split; [reflexivity|].
  vm_compute. intros H. apply H. reflexivity.
Qed.

(** ** Mass conservation of the redistribution *)





(** ** The fallback line in the reported tables *)

Lemma line_production_absent (rows : list row) p l :
  (forall r, In r rows -> Line r <> l) -> line_production rows p l = [].
Proof.
  unfold line_production.
  induction rows as [|r0 rows IH]; intros Hno; [reflexivity|].
  simpl. assert (Hl : Line r0 <> l) by (apply Hno; simpl; auto).
  apply String.eqb_neq in Hl. rewrite Hl, andb_false_r.
  apply IH. intros r' Hr'. apply Hno. simpl; auto.
Qed.

Lemma line_production_fallback (d : demand_t) (cp : capacity_t) (rt : rate_t)
  value p :
  line_production (results_df_adjusted (post_solve d cp rt value))
                  p fallback_name = [].
Proof.
  apply line_production_absent. apply final_no_fallback.
Qed.

(** C4 (as amended).  No row of the final allocation table is on the fallback
    line.  The utilization table, which is built from the augmented capacity
    mapping, does carry a fallback row for every (period, category) pair of
    the demand; the ratio in that row is always NaN. *)
Theorem fallback_in_reported_tables (d : demand_t) (cp : capacity_t)
  (rt : rate_t) (value : key4 -> option Q) :
  (forall r, In r (results_df_adjusted (post_solve d cp rt value)) ->
             Line r <> fallback_name)
  /\ (forall p c prod q, In ((p, c, prod), q) d ->
        In (mkRatio p c fallback_name NaN)
           (capacity_demand_ratio_df (post_solve d cp rt value)))
  /\ (forall u, In u (capacity_demand_ratio_df (post_solve d cp rt value)) ->
                rLine u = fallback_name -> Capacity_Demand u = NaN).
Proof.
  split; [|split].
  - intros r. apply final_no_fallback.
  - intros p c prod q Hin.
    pose proof (augment_capacity_fallback d cp p c prod q Hin) as Hget.
    apply (dict_get_In key3_eqb key3_eqb_eq) in Hget.
    change (capacity_demand_ratio_df (post_solve d cp rt value))
      with (capacity_demand_data (augment_capacity d cp) (augment_rate d rt)
              (results_df_adjusted (post_solve d cp rt value))).
    unfold capacity_demand_data. apply in_map_iff.
    exists ((p, c, fictitious_line), PInf). split; [|exact Hget].
    cbn [fst snd]. unfold total_demand_hours.
    change fictitious_line with fallback_name.
    rewrite line_production_fallback. reflexivity.
  - intros u Hu Hl.
    change (capacity_demand_ratio_df (post_solve d cp rt value))
      with (capacity_demand_data (augment_capacity d cp) (augment_rate d rt)
              (results_df_adjusted (post_solve d cp rt value))) in Hu.
    unfold capacity_demand_data in Hu. apply in_map_iff in Hu.
    destruct Hu as [[[[p c] l] e] [Hu _]]. subst u. cbn in Hl. subst l.
    cbn [fst snd Capacity_Demand]. unfold total_demand_hours.
    rewrite line_production_fallback. reflexivity.
Qed.

Lemma fallback_in_reported_tables_witness :
  In (mkRatio "P1" "Choc" fallback_name NaN)
     (capacity_demand_ratio_df
        (post_solve scn_demand scn_capacity scn_rate (assigned scn_X))).
Proof.
  apply (proj1 (proj2 (fallback_in_reported_tables scn_demand scn_capacity
                         scn_rate (assigned scn_X))) "P1" "Choc" "A" 100).
  simpl. left. reflexivity.
Defined.

(** C4 as stated fails in its second half: on the first scenario of the
    specification the utilization table has a row whose line is the fallback
    sentinel. *)
Lemma utilization_table_has_fallback_row :
  optimal (build_model scn_demand scn_capacity scn_rate) scn_X
  /\ exists u, In u (UtilizationTable scn_demand scn_capacity scn_rate scn_X)
               /\ rLine u = fallback_name.
Proof.
  split; [exact scn_optimal|].
  exists (mkRatio "P1" "Choc" "Fallback_Line" NaN).
  split; [|reflexivity]. vm_compute. auto.
Qed.

(** ** Frame of the feasibility augmentation *)




(** ** Feasibility of the augmented program *)

Lemma dict_get_or_nonneg {K : Type} (eqb : K -> K -> bool)
  (eqb_eq : forall a b, eqb a b = true <-> a = b) (d : list (K * Q)) (k : K) :
  (forall k q, In (k, q) d -> 0 <= q) -> 0 <= dict_get_or eqb d k 0.
Proof.
  intros H. unfold dict_get_or.
  destruct (dict_get eqb d k) as [q|] eqn:E; [|lra].
  apply (H k). apply (dict_get_In eqb eqb_eq). exact E.
Qed.

Lemma dict_get_none_or (d : demand_t) (k : key3) :
  (forall q, ~ In (k, q) d) -> dict_get_or key3_eqb d k 0 = 0.
Proof.
  intros H. unfold dict_get_or.
  destruct (dict_get key3_eqb d k) as [q|] eqn:E; [|reflexivity].
  apply (dict_get_In key3_eqb key3_eqb_eq) in E. destruct (H q E).
Qed.

(** On the fallback line the cover produces exactly the stated demand. *)
Lemma fallback_cover_term (d : demand_t) (rt : rate_t) p c prod :
  fallback_cover d (p, c, fictitious_line, prod)
  * dict_get_or key4_eqb (augment_rate d rt) (p, c, fictitious_line, prod) 0
  == dict_get_or key3_eqb d (p, c, prod) 0.
Proof.
  unfold fallback_cover. rewrite String.eqb_refl.
  destruct (dict_get key3_eqb d (p, c, prod)) as [q|] eqn:E.
  - pose proof (dict_get_In key3_eqb key3_eqb_eq _ _ _ E) as Hin.
    unfold dict_get_or at 2. rewrite (augment_rate_fallback d rt p c prod q Hin).
    field.
  - unfold dict_get_or at 1 3. rewrite E. ring.
Qed.

Lemma fallback_cover_real (d : demand_t) p c l prod :
  l <> fictitious_line -> fallback_cover d (p, c, l, prod) = 0.
Proof.
  intros Hl. unfold fallback_cover. apply String.eqb_neq in Hl.
  rewrite Hl. reflexivity.
Qed.

Lemma fallback_cover_nonneg (d : demand_t) (k : key4) :
  (forall k q, In (k, q) d -> 0 <= q) -> 0 <= fallback_cover d k.
Proof.
  intros Hd. destruct k as [[[p c] l] prod]. unfold fallback_cover.
  destruct (String.eqb l fictitious_line); [|lra].
  pose proof (dict_get_or_nonneg key3_eqb key3_eqb_eq d (p, c, prod) Hd). lra.
Qed.

Lemma augment_capacity_cases (d : demand_t) (cp : capacity_t) p c :
  dict_get key3_eqb (augment_capacity d cp) (p, c, fictitious_line) = Some PInf
  \/ ((forall prod q, ~ In ((p, c, prod), q) d)
      /\ dict_get key3_eqb (augment_capacity d cp) (p, c, fictitious_line)
         = dict_get key3_eqb cp (p, c, fictitious_line)).
Proof.
  rewrite augment_capacity_fold.
  rewrite (dict_get_set_all key3_eqb key3_eqb_eq).
  destruct (existsb (key3_eqb (p, c, fictitious_line)) (capacity_keys d)) eqn:E.
  - left. reflexivity.
  - right. split; [|reflexivity].
    intros prod q Hin.
    assert (Hk : In (p, c, fictitious_line) (capacity_keys d)).
    { apply In_capacity_keys. split; [reflexivity | exists prod, q; exact Hin]. }
    assert (Ht : existsb (key3_eqb (p, c, fictitious_line)) (capacity_keys d)
                 = true).
    { apply existsb_exists. exists (p, c, fictitious_line).
      split; [exact Hk | apply key3_eqb_eq; reflexivity]. }
    congruence.
Qed.

Lemma fallback_cover_demand (d : demand_t) (cp : capacity_t) (rt : rate_t)
  p c prod :
  (forall k q, In (k, q) d -> 0 <= q) ->
  demand_rule (build_model d cp rt) (fallback_cover d) p c prod = true.
Proof.
  intros Hd. unfold demand_rule. apply Qle_bool_iff.
  cbn [m_demand m_rate LINES build_model]. unfold Lines.
  rewrite map_app, sumQ_app. cbn [map sumQ fold_right].
  rewrite fallback_cover_term.
  assert (0 <= sumQ (map (fun l => fallback_cover d (p, c, l, prod)
                * dict_get_or key4_eqb (augment_rate d rt) (p, c, l, prod) 0)
              (sorted_set (map (fun e : key3 * ext =>
                                  let '(_, _, l) := fst e in l) cp)))).
  { apply sumQ_map_nonneg. intros l _.
    destruct (string_dec l fictitious_line) as [->|Hl].
    - rewrite fallback_cover_term.
      apply (dict_get_or_nonneg key3_eqb key3_eqb_eq). exact Hd.
    - rewrite fallback_cover_real by exact Hl. lra. }
  match goal with
  | |- _ <= ?s + _ => set (S := s) in *; change (0 <= S) in H
  end.
  lra.
Qed.

Lemma fallback_cover_capacity (d : demand_t) (cp : capacity_t) (rt : rate_t)
  p c l :
  (forall k e, In (k, e) cp -> exists q, e = Fin q /\ 0 <= q) ->
  capacity_rule (build_model d cp rt) (fallback_cover d) p c l = true.
Proof.
  intros Hc. unfold capacity_rule.
  cbn [m_capacity m_rate PRODUCTS build_model].
  assert (Hin : forall k, ext_leb 0 (dict_get_or key3_eqb cp k (Fin 0)) = true).
  { intros k. unfold dict_get_or.
    destruct (dict_get key3_eqb cp k) as [e|] eqn:E; [|reflexivity].
    apply (dict_get_In key3_eqb key3_eqb_eq) in E.
    destruct (Hc _ _ E) as [q [-> Hq]]. apply Qle_bool_iff. exact Hq. }
  assert (Hle : forall s e, s == 0 -> ext_leb 0 e = true -> ext_leb s e = true).
  { intros s [q|] Hs; [|reflexivity]. simpl. rewrite !Qle_bool_iff. lra. }
  destruct (string_dec l fictitious_line) as [->|Hl].
  - destruct (augment_capacity_cases d cp p c) as [Hinf|[Hno Hsame]].
    + unfold dict_get_or. rewrite Hinf. reflexivity.
    + apply Hle.
      * apply sumQ_map_zero. intros prod _. unfold fallback_cover.
        rewrite String.eqb_refl, dict_get_none_or by (intros q; apply Hno). ring.
      * unfold dict_get_or. rewrite Hsame. apply (Hin (p, c, fictitious_line)).
  - apply Hle.
    + apply sumQ_map_zero. intros prod _.
      rewrite fallback_cover_real by exact Hl. reflexivity.
    + unfold dict_get_or.
      rewrite augment_capacity_other by (left; exact Hl). apply (Hin (p, c, l)).
Qed.

(** C5.  For every input whose demand, capacity and rate values are finite
    and non-negative, the constraint system built after the augmentation has
    a feasible assignment: serve every demand on the fallback line. *)
Theorem augmented_program_is_feasible (d : demand_t) (cp : capacity_t)
  (rt : rate_t) :
  (forall k q, In (k, q) d -> 0 <= q) ->
  (forall k e, In (k, e) cp -> exists q, e = Fin q /\ 0 <= q) ->
  (forall k q, In (k, q) rt -> 0 <= q) ->
  exists X : assignment, feasible (build_model d cp rt) X = true.
Proof.
  intros Hd Hc _. exists (fallback_cover d).
  unfold feasible. rewrite !andb_true_iff. split; [split|].
  - unfold domain_rule.
    apply forallb_forall. intros p _. apply forallb_forall. intros c _.
    apply forallb_forall. intros l _. apply forallb_forall. intros prod _.
    apply Qle_bool_iff. apply fallback_cover_nonneg. exact Hd.
  - unfold DemandConstraint.
    apply forallb_forall. intros p _. apply forallb_forall. intros c _.
    apply forallb_forall. intros prod _.
    apply fallback_cover_demand. exact Hd.
  - unfold CapacityConstraint.
    apply forallb_forall. intros p _. apply forallb_forall. intros c _.
    apply forallb_forall. intros l _.
    apply fallback_cover_capacity. exact Hc.
Qed.

Lemma augmented_program_is_feasible_witness :
  exists X : assignment,
    feasible (build_model scn_demand scn_capacity scn_rate) X = true.
Proof.
  apply (augmented_program_is_feasible scn_demand scn_capacity scn_rate).
  - intros k q [H|[]]. inversion H. discriminate.
  - intros k e [H|[]]. inversion H. exists 10. split; [reflexivity|discriminate].
  - intros k q [H|[]]. inversion H. discriminate.
Defined.

(** ** Capacity *)

Lemma feasible_intro (m : model) (X : assignment) :
  (forall p c l prod, In p (PERIODS m) -> In c (CATEGORIES m) ->
     In l (LINES m) -> In prod (PRODUCTS m) -> 0 <= X (p, c, l, prod)) ->
  (forall p c prod, In p (PERIODS m) -> In c (CATEGORIES m) ->
     In prod (PRODUCTS m) -> demand_rule m X p c prod = true) ->
  (forall p c l, In p (PERIODS m) -> In c (CATEGORIES m) ->
     In l (LINES m) -> capacity_rule m X p c l = true) ->
  feasible m X = true.
Proof.
  intros Hdom Hdem Hcap. unfold feasible. rewrite !andb_true_iff.
  split; [split|].
  - unfold domain_rule.
    apply forallb_forall. intros p Hp. apply forallb_forall. intros c Hc.
    apply forallb_forall. intros l Hl. apply forallb_forall. intros prod Hx.
    apply Qle_bool_iff. auto.
  - unfold DemandConstraint.
    apply forallb_forall. intros p Hp. apply forallb_forall. intros c Hc.
    apply forallb_forall. intros prod Hx. auto.
  - unfold CapacityConstraint.
    apply forallb_forall. intros p Hp. apply forallb_forall. intros c Hc.
    apply forallb_forall. intros l Hl. auto.
Qed.

Lemma ext_leb_Qeq (s s' : Q) (e : ext) :
  s == s' -> ext_leb s' e = true -> ext_leb s e = true.
Proof.
  intros Hs. destruct e as [q|]; [|reflexivity].
  simpl. rewrite !Qle_bool_iff. lra.
Qed.

Lemma sumQ_filter_zero {A : Type} (f : A -> Q) (P : A -> bool) (l : list A) :
  (forall x, In x l -> P x = false -> f x == 0) ->
  sumQ (map f l) == sumQ (map f (filter P l)).
Proof.
  induction l as [|x l IH]; intros H; simpl; [lra|].
  rewrite IH by (intros; apply H; simpl; auto).
  destruct (P x) eqn:E; simpl; [lra|].
  rewrite (H x) by (simpl; auto). lra.
Qed.

Lemma zero_at_same (k0 : key4) (X : assignment) : zero_at k0 X k0 = 0.
Proof.
  unfold zero_at. rewrite (proj2 (key4_eqb_eq k0 k0) eq_refl). reflexivity.
Qed.

Lemma zero_at_other (k0 k : key4) (X : assignment) :
  k <> k0 -> zero_at k0 X k = X k.
Proof.
  intros H. unfold zero_at.
  rewrite (eqb_diff key4_eqb key4_eqb_eq) by exact H. reflexivity.
Qed.

Lemma zero_at_le (k0 k : key4) (X : assignment) :
  0 <= X k0 -> zero_at k0 X k <= X k.
Proof.
  intros H. unfold zero_at. destruct (key4_eqb k k0) eqn:E; [|lra].
  apply key4_eqb_eq in E. subst k. exact H.
Qed.

(** A variable without a rate entry occurs in no constraint, so zeroing it
    keeps an assignment feasible. *)
Lemma zero_at_feasible (m : model) (X : assignment) (k0 : key4) :
  dict_mem key4_eqb (m_rate m) k0 = false ->
  feasible m X = true -> feasible m (zero_at k0 X) = true.
Proof.
  intros Hno Hf.
  assert (Hrate : dict_get_or key4_eqb (m_rate m) k0 0 = 0).
  { unfold dict_mem in Hno. unfold dict_get_or.
    destruct (dict_get key4_eqb (m_rate m) k0); [discriminate|reflexivity]. }
  apply feasible_intro.
  - intros p c l prod Hp Hc Hl Hx.
    pose proof (feasible_domain m X p c l prod Hf Hp Hc Hl Hx) as H0.
    unfold zero_at. destruct (key4_eqb (p, c, l, prod) k0); lra.
  - intros p c prod Hp Hc Hx.
    pose proof (feasible_demand m X p c prod Hf Hp Hc Hx) as Hd.
    unfold demand_rule. apply Qle_bool_iff.
    rewrite (sumQ_map_Qeq _
               (fun l => X (p, c, l, prod)
                         * dict_get_or key4_eqb (m_rate m) (p, c, l, prod) 0));
      [exact Hd|].
    intros l _. unfold zero_at.
    destruct (key4_eqb (p, c, l, prod) k0) eqn:E; [|reflexivity].
    apply key4_eqb_eq in E. rewrite E, Hrate. ring.
  - intros p c l Hp Hc Hl.
    pose proof (feasible_capacity m X p c l Hf Hp Hc Hl) as Hcap.
    unfold capacity_rule in *.
    eapply ext_leb_Qeq; [|exact Hcap].
    apply sumQ_map_Qeq. intros prod Hin.
    apply filter_In in Hin as [_ Hmem].
    rewrite zero_at_other; [reflexivity|]. intros E. congruence.
Qed.

Lemma zero_at_objective (m : model) (X : assignment) p c l prod :
  In p (PERIODS m) -> In c (CATEGORIES m) -> In l (LINES m) ->
  In prod (PRODUCTS m) -> 0 < X (p, c, l, prod) ->
  Objective m (zero_at (p, c, l, prod) X) < Objective m X.
Proof.
  intros Hp Hc Hl Hx Hpos. unfold Objective.
  assert (Hle : forall k, zero_at (p, c, l, prod) X k <= X k)
    by (intros k; apply zero_at_le; lra).
  apply (sumQ_map_lt _ _ _ p); [|exact Hp|].
  { intros p' _. apply sumQ_map_le. intros c' _. apply sumQ_map_le.
    intros l' _. apply sumQ_map_le. intros x' _. apply Hle. }
  apply (sumQ_map_lt _ _ _ c); [|exact Hc|].
  { intros c' _. apply sumQ_map_le. intros l' _. apply sumQ_map_le.
    intros x' _. apply Hle. }
  apply (sumQ_map_lt _ _ _ l); [|exact Hl|].
  { intros l' _. apply sumQ_map_le. intros x' _. apply Hle. }
  apply (sumQ_map_lt _ _ _ prod); [|exact Hx|].
  { intros x' _. apply Hle. }
  rewrite zero_at_same. exact Hpos.
Qed.

(** At an optimum every variable without a rate entry is zero. *)
Lemma optimal_no_rate_zero (m : model) (X : assignment) p c l prod :
  optimal m X ->
  In p (PERIODS m) -> In c (CATEGORIES m) -> In l (LINES m) ->
  In prod (PRODUCTS m) ->
  dict_mem key4_eqb (m_rate m) (p, c, l, prod) = false ->
  X (p, c, l, prod) == 0.
Proof.
  intros [Hf Hopt] Hp Hc Hl Hx Hno.
  pose proof (feasible_domain m X p c l prod Hf Hp Hc Hl Hx) as H0.
  destruct (Qlt_le_dec 0 (X (p, c, l, prod))) as [Hpos|Hle]; [|lra].
  pose proof (zero_at_objective m X p c l prod Hp Hc Hl Hx Hpos) as Hlt.
  pose proof (Hopt _ (zero_at_feasible m X _ Hno Hf)) as Hge.
  lra.
Qed.

Lemma In_real_Lines (cp : capacity_t) p c l e :
  In ((p, c, l), e) cp ->
  In l (sorted_set (map (fun e : key3 * ext => let '(_, _, l) := fst e in l) cp)).
Proof.
  intros H. apply In_sorted_set, in_map_iff. exists ((p, c, l), e). auto.
Qed.

(** What the solver assigns to a real line stays within its stated capacity. *)
Lemma raw_hours_within_capacity (d : demand_t) (cp : capacity_t) (rt : rate_t)
  (X : assignment) p c l e :
  optimal (build_model d cp rt) X ->
  dict_get key3_eqb cp (p, c, l) = Some e ->
  l <> fallback_name ->
  ext_leb 0 e = true ->
  ext_leb (sum_by Hours (on_line p c l) (RawAllocationTable d cp rt X)) e = true.
Proof.
  intros Hopt He Hl Hnn. pose proof Hopt as [Hf _].
  pose proof (dict_get_In key3_eqb key3_eqb_eq _ _ _ He) as Hin.
  pose proof (In_real_Lines _ _ _ _ _ Hin) as HlS.
  assert (HlL : In l (Lines cp)) by (unfold Lines; apply in_or_app; auto).
  unfold RawAllocationTable, post_solve. cbn [results_df].
  destruct (in_dec string_dec p (Periods d)) as [Hp|Hp];
    [destruct (in_dec string_dec c (Categories d)) as [Hc|Hc]|].
  - unfold Lines at 1.
    eapply ext_leb_Qeq.
    + rewrite raw_hours_on_line; try apply NoDup_sorted_set; try assumption.
      * apply (sumQ_filter_zero _
                 (fun prod => dict_mem key4_eqb (augment_rate d rt)
                                       (p, c, l, prod))).
        intros prod Hx Hno.
        apply (optimal_no_rate_zero (build_model d cp rt) X p c l prod);
          assumption.
      * intros [E|[]]. apply Hl. symmetry. exact E.
      * intros prod Hx.
        apply (feasible_domain (build_model d cp rt) X p c l prod);
          assumption.
    + pose proof (feasible_capacity (build_model d cp rt) X p c l Hf Hp Hc HlL)
        as Hcap.
      unfold capacity_rule in Hcap.
      cbn [m_capacity m_rate PRODUCTS build_model] in Hcap.
      unfold dict_get_or in Hcap at 1.
      rewrite augment_capacity_other, He in Hcap by (left; exact Hl).
      exact Hcap.
  - eapply ext_leb_Qeq; [|exact Hnn]. apply raw_off_line. auto.
  - eapply ext_leb_Qeq; [|exact Hnn]. apply raw_off_line. auto.
Qed.

(** The hours of a real line in the final table: what the solver assigned
    plus what the redistribution added. *)
Lemma final_hours_on_line (d : demand_t) (cp : capacity_t) (rt : rate_t)
  value p c l :
  l <> fallback_name ->
  sum_by Hours (on_line p c l) (results_df_adjusted (post_solve d cp rt value))
  == sum_by Hours (on_line p c l) (results_df (post_solve d cp rt value))
     + sum_by Hours (on_line p c l)
         (adjusted_rows (Lines cp) (augment_rate d rt)
            (filter is_fallback (results_df (post_solve d cp rt value)))).
Proof.
  intros Hl. rewrite final_table_eq.
  rewrite (sum_by_groupby_sum _ Hours_merge _ (on_line_key p c l)).
  rewrite sum_by_app. apply Qplus_inj_r.
  rewrite (sum_by_split Hours (on_line p c l) is_fallback
             (results_df (post_solve d cp rt value))).
  rewrite (sum_by_none Hours (on_line p c l)
             (filter is_fallback (results_df (post_solve d cp rt value)))).
  - lra.
  - intros r Hr. apply filter_In in Hr as [_ Hfb].
    unfold is_fallback in Hfb. apply String.eqb_eq in Hfb.
    apply on_line_off. right; right. congruence.
Qed.

(** C2 (as amended).  For every (period, category, line) other than the
    fallback line with a stated non-negative capacity, the hours the optimal
    solution assigns to it (the raw table) are at most the stated capacity,
    and the hours of the final, aggregated table for that key are these raw
    hours plus the hours the redistribution added to the line.  The final
    hours are therefore bounded by capacity plus redistributed hours, not by
    capacity alone. *)
Theorem final_hours_capacity_bound (d : demand_t) (cp : capacity_t)
  (rt : rate_t) (X : assignment) p c l e :
  optimal (build_model d cp rt) X ->
  dict_get key3_eqb cp (p, c, l) = Some e ->
  l <> fallback_name ->
  ext_leb 0 e = true ->
  ext_leb (sum_by Hours (on_line p c l) (RawAllocationTable d cp rt X)) e = true
  /\ sum_by Hours (on_line p c l) (AllocationTable d cp rt X)
     == sum_by Hours (on_line p c l) (RawAllocationTable d cp rt X)
        + sum_by Hours (on_line p c l)
            (adjusted_rows (Lines cp) (augment_rate d rt)
               (filter is_fallback (RawAllocationTable d cp rt X))).
Proof.
  intros Hopt He Hl Hnn. split.
  - eapply raw_hours_within_capacity; eassumption.
  - apply final_hours_on_line. exact Hl.
Qed.

Lemma final_hours_capacity_bound_witness :
  ext_leb (sum_by Hours (on_line "P1" "Choc" "L1")
             (RawAllocationTable scn_demand scn_capacity scn_rate scn_X))
          (Fin 10) = true
  /\ sum_by Hours (on_line "P1" "Choc" "L1")
       (AllocationTable scn_demand scn_capacity scn_rate scn_X)
     == sum_by Hours (on_line "P1" "Choc" "L1")
          (RawAllocationTable scn_demand scn_capacity scn_rate scn_X)
        + sum_by Hours (on_line "P1" "Choc" "L1")
            (adjusted_rows (Lines scn_capacity)
               (augment_rate scn_demand scn_rate)
               (filter is_fallback
                  (RawAllocationTable scn_demand scn_capacity scn_rate scn_X))).
Proof.
  apply (final_hours_capacity_bound scn_demand scn_capacity scn_rate scn_X
           "P1" "Choc" "L1" (Fin 10)).
  - exact scn_optimal.
  - reflexivity.
  - discriminate.
  - reflexivity.
Defined.

(** C2 as stated fails on the first scenario of the specification: L1 has a
    stated capacity of 10 hours, the optimal solution uses all of them, and
    the redistribution then adds the fallback's 50 kg as 10 more hours, so
    the final table shows 20 hours on L1. *)
Lemma final_hours_exceed_capacity :
  optimal (build_model scn_demand scn_capacity scn_rate) scn_X
  /\ dict_get key3_eqb scn_capacity ("P1", "Choc", "L1") = Some (Fin 10)
  /\ sum_by Hours (on_line "P1" "Choc" "L1")
       (AllocationTable scn_demand scn_capacity scn_rate scn_X) == 20
  /\ ~ (sum_by Hours (on_line "P1" "Choc" "L1")
          (AllocationTable scn_demand scn_capacity scn_rate scn_X)
        <= 10 + (1 # 1000000)).
Proof.
  split; [exact scn_optimal|].
  split; [reflexivity|].
  split; [reflexivity|].
  vm_compute. intros H. apply H. reflexivity.
Qed.

(** ** The first scenario of the specification *)

(** The optimum of the first scenario is unique. *)
Lemma scn_optimum_unique (Y : assignment) :
  optimal (build_model scn_demand scn_capacity scn_rate) Y ->
  Y ("P1", "Choc", "L1", "A") == 10
  /\ Y ("P1", "Choc", "Fallback_Line", "A") == 5000.
Proof.
  intros [HY Hopt].
  pose proof (Hopt scn_X (proj1 scn_optimal)) as Hle.
  rewrite scn_model in *.
  unfold feasible in HY. lp_norm_in HY. lp_split HY.
  lp_norm_in Hle. split; lra.
Qed.

(** The tables of the first scenario, for whatever optimal solution the
    solver returns. *)
Ltac scn_tables Y H1 H2 :=
  let T1 := fresh "T" in
  let T2 := fresh "T" in
  assert (T1 : Qltb 0 (Y ("P1", "Choc", "L1", "A")) = true)
    by (apply Qltb_lt; lra);
  assert (T2 : Qltb 0 (Y ("P1", "Choc", "Fallback_Line", "A")) = true)
    by (apply Qltb_lt; lra);
  unfold AllocationTable, RawAllocationTable, post_solve;
  rewrite scn_model;
  change (Periods scn_demand) with ["P1"];
  change (Categories scn_demand) with ["Choc"];
  change (Products scn_demand) with ["A"];
  change (Lines scn_capacity) with ["L1"; "Fallback_Line"];
  cbn [results_df_adjusted results_df m_rate m_capacity];
  unfold extract; cbn [flat_map app]; unfold extract_cell, assigned;
  rewrite T1, T2;
  cbv -[Qplus Qmult Qeq_bool];
  rewrite ?(fun x y (E : x == y) => proj2 (Qeq_bool_iff x y) E) by lra;
  try reflexivity.

(** C6 (as amended).  On demand {(P1,Choc,A): 100}, capacity
    {(P1,Choc,L1): 10}, rate {(P1,Choc,L1,A): 5} every optimal solution
    gives L1 10 hours producing 50 kg and leaves the remaining 50 kg on the
    fallback line (5000 hours at 0.01).  L1 has a rate entry for the key, so
    it is itself the one eligible line: the 50 kg are redistributed onto L1
    as 10 more hours, no fallback record is dropped, and the final table is
    the single row L1 with 20 hours and 100 kg. *)
Theorem scenario_one_line_short (Y : assignment) :
  optimal (build_model scn_demand scn_capacity scn_rate) Y ->
  (Y ("P1", "Choc", "L1", "A") == 10
   /\ Y ("P1", "Choc", "Fallback_Line", "A") == 5000)
  /\ rows_eqb (RawAllocationTable scn_demand scn_capacity scn_rate Y)
       [mkRow "P1" "Choc" "L1" "A" 10 50;
        mkRow "P1" "Choc" "Fallback_Line" "A" 5000 50] = true
  /\ eligible_lines (Lines scn_capacity) (augment_rate scn_demand scn_rate)
       "P1" "Choc" "A" = ["L1"]
  /\ rows_eqb
       (adjusted_rows (Lines scn_capacity) (augment_rate scn_demand scn_rate)
          (filter is_fallback
             (RawAllocationTable scn_demand scn_capacity scn_rate Y)))
       [mkRow "P1" "Choc" "L1" "A" 10 50] = true
  /\ dropped_fallback_rows (Lines scn_capacity)
       (augment_rate scn_demand scn_rate)
       (RawAllocationTable scn_demand scn_capacity scn_rate Y) = []
  /\ rows_eqb (AllocationTable scn_demand scn_capacity scn_rate Y)
       [mkRow "P1" "Choc" "L1" "A" 20 100] = true.
Proof.
  intros HY. destruct (scn_optimum_unique Y HY) as [H1 H2].
  split; [split; assumption|].
  split; [scn_tables Y H1 H2|].
  split; [reflexivity|].
  split; [scn_tables Y H1 H2|].
  split; [scn_tables Y H1 H2|].
  scn_tables Y H1 H2.
Qed.

Lemma scenario_one_line_short_witness :
  optimal (build_model scn_demand scn_capacity scn_rate) scn_X
  /\ rows_eqb (AllocationTable scn_demand scn_capacity scn_rate scn_X)
       [mkRow "P1" "Choc" "L1" "A" 20 100] = true.
Proof.
  split; [exact scn_optimal|].
  apply (scenario_one_line_short scn_X). exact scn_optimal.
Defined.

(** C6 as stated fails in its last part: the claim has 50 kg recorded as
    unmet and L1 left at its 50 kg, but no fallback record is dropped (the
    dropped mass is 0) and L1 ends with 100 kg. *)
Lemma scenario_gap_is_redistributed :
  optimal (build_model scn_demand scn_capacity scn_rate) scn_X
  /\ ~ (sumQ (map Kg_Produced
               (dropped_fallback_rows (Lines scn_capacity)
                  (augment_rate scn_demand scn_rate)
                  (RawAllocationTable scn_demand scn_capacity scn_rate scn_X)))
        == 50)
  /\ ~ (sum_by Kg_Produced (on_line "P1" "Choc" "L1")
          (AllocationTable scn_demand scn_capacity scn_rate scn_X) == 50).
Proof.
  split; [exact scn_optimal|].
  split; vm_compute; discriminate.
Qed.

(** ** Utilization ratios *)

Lemma zc_optimal : optimal (build_model scn_demand zc_capacity scn_rate) zr_X.
Proof.
  split; [reflexivity|].
  intros Y HY.
  change (build_model scn_demand zc_capacity scn_rate)
    with (mkModel ["P1"] ["Choc"] ["A"] ["L1"; "Fallback_Line"] scn_demand
            [(("P1", "Choc", "L1"), Fin 0);
             (("P1", "Choc", "Fallback_Line"), PInf)]
            [(("P1", "Choc", "L1", "A"), 5);
             (("P1", "Choc", "Fallback_Line", "A"), 1 # 100)]) in *.
  unfold feasible in HY. lp_norm_in HY. lp_split HY.
  lp_norm. lra.
Qed.

Lemma cat_optimal : optimal (build_model cat_demand cat_capacity cat_rate) cat_X.
Proof.
  split; [reflexivity|].
  intros Y HY.
  change (build_model cat_demand cat_capacity cat_rate)
    with (mkModel ["P1"] ["C1"; "C2"] ["A"] ["L1"; "Fallback_Line"] cat_demand
            [(("P1", "C1", "L1"), Fin 10); (("P1", "C2", "L1"), Fin 10);
             (("P1", "C1", "Fallback_Line"), PInf);
             (("P1", "C2", "Fallback_Line"), PInf)]
            [(("P1", "C1", "L1", "A"), 5); (("P1", "C2", "L1", "A"), 5);
             (("P1", "C1", "Fallback_Line", "A"), 1 # 100);
             (("P1", "C2", "Fallback_Line", "A"), 1 # 100)]) in *.
  unfold feasible in HY. lp_norm_in HY. lp_split HY.
  lp_norm. lra.
Qed.

(** The accumulation loop is a plain sum of the rows' contributions. *)
Lemma total_demand_hours_sum (rate : rate_t) (rows : list row) p c l :
  total_demand_hours rate rows p c l
  == sumQ (map (row_demand_hours rate p c l) (line_production rows p l)).
Proof.
  unfold total_demand_hours.
  assert (G : forall rs acc,
    fold_left
      (fun total r =>
         let rt := dict_get_or key4_eqb rate (p, c, l, Product r) 0 in
         if Qltb 0 rt then total + Kg_Produced r / rt else total + 0)
      rs acc
    == acc + sumQ (map (row_demand_hours rate p c l) rs)).
  { induction rs as [|r rs IH]; intros acc; simpl; [lra|].
    rewrite IH. unfold row_demand_hours.
    destruct (Qltb 0 (dict_get_or key4_eqb rate (p, c, l, Product r) 0)); lra. }
  rewrite G. lra.
Qed.

Lemma ratio_of_cases (e : ext) (tdh : Q) :
  (ratio_of e tdh = NaN <-> ~ 0 < tdh)
  /\ (0 < tdh -> ratio_of e tdh = Num (ext_div e (tdh + epsilon))).
Proof.
  unfold ratio_of. destruct (Qltb 0 tdh) eqn:E.
  - apply Qltb_lt in E. split; [|reflexivity].
    split; [discriminate | intros H; contradiction].
  - apply Qltb_ge in E. split; [|intros H; lra].
    split; [intros _ H; lra | reflexivity].
Qed.

Lemma epsilon_pos : 0 < epsilon.
Proof. reflexivity. Qed.

Lemma Qdiv_pos (q x : Q) : 0 < q -> 0 < x -> 0 < q / x.
Proof.
  intros Hq Hx. unfold Qdiv.
  apply Qmult_lt_0_compat; [exact Hq | apply Qinv_lt_0_compat; exact Hx].
Qed.

Lemma Qdiv_nonneg (q x : Q) : 0 <= q -> 0 < x -> 0 <= q / x.
Proof.
  intros Hq Hx. unfold Qdiv.
  apply Qmult_le_0_compat; [exact Hq|].
  apply Qlt_le_weak, Qinv_lt_0_compat. exact Hx.
Qed.

(** Non-negative rates give non-negative masses in every table. *)
Lemma augment_rate_nonneg (d : demand_t) (rt : rate_t) (k : key4) :
  (forall k q, In (k, q) rt -> 0 <= q) ->
  0 <= dict_get_or key4_eqb (augment_rate d rt) k 0.
Proof.
  intros Hrt. unfold dict_get_or.
  rewrite augment_rate_fold, (dict_get_set_all key4_eqb key4_eqb_eq).
  destruct (existsb (key4_eqb k) (rate_keys d)); [discriminate|].
  destruct (dict_get key4_eqb rt k) as [q|] eqn:E; [|lra].
  apply (Hrt k). apply (dict_get_In key4_eqb key4_eqb_eq). exact E.
Qed.

Lemma extract_mass_nonneg (Ps Cs Ls Prs : list string) (rate : rate_t) value r :
  (forall k, 0 <= dict_get_or key4_eqb rate k 0) ->
  In r (extract Ps Cs Ls Prs rate value) -> 0 <= Kg_Produced r.
Proof.
  intros Hrate Hr. unfold extract in Hr.
  apply in_flat_map in Hr as [p [_ Hr]]. apply in_flat_map in Hr as [c [_ Hr]].
  apply in_flat_map in Hr as [l [_ Hr]]. apply in_flat_map in Hr as [x [_ Hr]].
  unfold extract_cell in Hr. destruct (value (p, c, l, x)) as [v|]; [|destruct Hr].
  destruct (Qltb 0 v) eqn:E; [|destruct Hr]. destruct Hr as [<-|[]].
  apply Qltb_lt in E. simpl.
  apply Qmult_le_0_compat; [lra | apply Hrate].
Qed.

Lemma redistribute_mass_nonneg (Ls : list string) (rate : rate_t) (r0 r : row) :
  0 <= Kg_Produced r0 ->
  In r (redistribute_row Ls rate r0) -> 0 <= Kg_Produced r.
Proof.
  intros H0. unfold redistribute_row.
  destruct (eligible_lines Ls rate (Period r0) (Category r0) (Product r0))
    as [|l0 el] eqn:E; [intros []|].
  intros Hr. apply in_flat_map in Hr as [l [_ Hr]].
  apply In_redistribute_line in Hr as (_ & _ & _ & _ & ->).
  apply Qdiv_nonneg; [exact H0|].
  replace 0 with (inject_Z 0) by reflexivity.
  rewrite <- Zlt_Qlt. simpl List.length. lia.
Qed.

Lemma add_row_mass_nonneg (r : row) (acc : list row) :
  0 <= Kg_Produced r ->
  (forall r', In r' acc -> 0 <= Kg_Produced r') ->
  forall r', In r' (add_row r acc) -> 0 <= Kg_Produced r'.
Proof.
  intros Hr. induction acc as [|a acc IH]; intros Hacc r'; cbn [add_row].
  - intros [<-|[]]. exact Hr.
  - destruct (key4_compare (row_key r) (row_key a)).
    + intros [<-|H].
      * simpl. assert (0 <= Kg_Produced a) by (apply Hacc; simpl; auto). lra.
      * apply Hacc. simpl; auto.
    + intros [<-|H]; [exact Hr | apply Hacc; exact H].
    + intros [<-|H]; [apply Hacc; simpl; auto|].
      apply IH; [intros; apply Hacc; simpl; auto | exact H].
Qed.

Lemma groupby_sum_mass_nonneg (rows : list row) :
  (forall r, In r rows -> 0 <= Kg_Produced r) ->
  forall r, In r (groupby_sum rows) -> 0 <= Kg_Produced r.
Proof.
  unfold groupby_sum.
  assert (G : forall acc,
    (forall r, In r rows -> 0 <= Kg_Produced r) ->
    (forall r, In r acc -> 0 <= Kg_Produced r) ->
    forall r, In r (fold_left (fun acc r => add_row r acc) rows acc) ->
              0 <= Kg_Produced r).
  { induction rows as [|r0 rows IH]; intros acc Hrows Hacc; simpl; [exact Hacc|].
    apply IH; [intros; apply Hrows; simpl; auto|].
    apply add_row_mass_nonneg; [apply Hrows; simpl; auto | exact Hacc]. }
  intros Hrows. apply G; [exact Hrows | intros r []].
Qed.

Lemma final_mass_nonneg (d : demand_t) (cp : capacity_t) (rt : rate_t) value r :
  (forall k q, In (k, q) rt -> 0 <= q) ->
  In r (results_df_adjusted (post_solve d cp rt value)) -> 0 <= Kg_Produced r.
Proof.
  intros Hrt. rewrite final_table_eq. apply groupby_sum_mass_nonneg.
  assert (Hraw : forall r0, In r0 (results_df (post_solve d cp rt value)) ->
                            0 <= Kg_Produced r0).
  { intros r0. apply extract_mass_nonneg. intros k.
    apply augment_rate_nonneg. exact Hrt. }
  intros r0 Hr0. apply in_app_or in Hr0 as [Hr0|Hr0].
  - apply filter_In in Hr0 as [Hr0 _]. apply Hraw. exact Hr0.
  - unfold adjusted_rows in Hr0. apply in_flat_map in Hr0 as [r1 [Hr1 Hr0]].
    apply filter_In in Hr1 as [Hr1 _].
    eapply redistribute_mass_nonneg; [apply Hraw; exact Hr1 | exact Hr0].
Qed.

Lemma total_demand_hours_nonneg (rate : rate_t) (rows : list row) p c l :
  (forall r, In r rows -> 0 <= Kg_Produced r) ->
  0 <= total_demand_hours rate rows p c l.
Proof.
  intros Hrows. rewrite total_demand_hours_sum.
  apply sumQ_map_nonneg. intros r Hr.
  unfold line_production in Hr. apply filter_In in Hr as [Hr _].
  unfold row_demand_hours.
  destruct (Qltb 0 (dict_get_or key4_eqb rate (p, c, l, Product r) 0)) eqn:E;
    [|lra].
  apply Qltb_lt in E. apply Qdiv_nonneg; [apply Hrows; exact Hr | exact E].
Qed.

(** C8 (as amended).  Every row of the utilization table comes from an entry
    (p, c, l) -> capacity of the augmented capacity mapping.  Its ratio is
    NaN exactly when the realized-demand-hours are not positive (which, for
    non-negative rates, means exactly when they are zero); otherwise it is
    capacity / (realized-demand-hours + 1e-9), which for a finite capacity is
    strictly positive when the capacity is positive and is zero when the
    capacity is zero. *)
Theorem utilization_ratio_values (d : demand_t) (cp : capacity_t) (rt : rate_t)
  (value : key4 -> option Q) (u : ratio_row) :
  In u (capacity_demand_ratio_df (post_solve d cp rt value)) ->
  exists e,
    In ((rPeriod u, rCategory u, rLine u), e) (augment_capacity d cp)
    /\ let tdh := total_demand_hours (augment_rate d rt)
                    (results_df_adjusted (post_solve d cp rt value))
                    (rPeriod u) (rCategory u) (rLine u) in
       (Capacity_Demand u = NaN <-> ~ 0 < tdh)
       /\ ((forall k q, In (k, q) rt -> 0 <= q) ->
           (Capacity_Demand u = NaN <-> tdh == 0))
       /\ (0 < tdh ->
           Capacity_Demand u = Num (ext_div e (tdh + epsilon))
           /\ forall q, e = Fin q ->
                ext_div e (tdh + epsilon) = Fin (q / (tdh + epsilon))
                /\ (0 < q -> 0 < q / (tdh + epsilon))
                /\ (q == 0 -> q / (tdh + epsilon) == 0)).
Proof.
  intros Hu.
  change (capacity_demand_ratio_df (post_solve d cp rt value))
    with (capacity_demand_data (augment_capacity d cp) (augment_rate d rt)
            (results_df_adjusted (post_solve d cp rt value))) in Hu.
  unfold capacity_demand_data in Hu. apply in_map_iff in Hu.
  destruct Hu as [[[[p c] l] e] [Hu Hin]]. subst u.
  cbn [fst snd rPeriod rCategory rLine Capacity_Demand].
  exists e. split; [exact Hin|]. cbv zeta.
  set (tdh := total_demand_hours (augment_rate d rt)
                (results_df_adjusted (post_solve d cp rt value)) p c l).
  destruct (ratio_of_cases e tdh) as [Hnan Hnum].
  split; [exact Hnan|]. split.
  - intros Hrt.
    assert (H0 : 0 <= tdh).
    { apply total_demand_hours_nonneg. intros r Hr.
      eapply final_mass_nonneg; eassumption. }
    rewrite Hnan. split; intros H; lra.
  - intros Hpos. split; [apply Hnum; exact Hpos|].
    intros q ->. split; [reflexivity|].
    pose proof epsilon_pos as He.
    split.
    + intros Hq. apply Qdiv_pos; lra.
    + intros Hq. rewrite Hq. unfold Qdiv. ring.
Qed.

Lemma utilization_ratio_values_witness :
  exists e,
    In (("P1", "Choc", "L1"), e) (augment_capacity scn_demand scn_capacity)
    /\ (0 < total_demand_hours (augment_rate scn_demand scn_rate)
              (AllocationTable scn_demand scn_capacity scn_rate scn_X)
              "P1" "Choc" "L1" ->
        forall q, e = Fin q ->
          0 < q ->
          0 < q / (total_demand_hours (augment_rate scn_demand scn_rate)
                     (AllocationTable scn_demand scn_capacity scn_rate scn_X)
                     "P1" "Choc" "L1" + epsilon)).
Proof.
  destruct (utilization_ratio_values scn_demand scn_capacity scn_rate
              (assigned scn_X)
              (mkRatio "P1" "Choc" "L1"
                 (ratio_of (Fin 10)
                    (total_demand_hours (augment_rate scn_demand scn_rate)
                       (AllocationTable scn_demand scn_capacity scn_rate scn_X)
                       "P1" "Choc" "L1"))))
    as [e [Hin [_ [_ Hpos]]]].
  - left. reflexivity.
  - exists e. split; [exact Hin|].
    intros Ht q He Hq. exact (proj1 (proj2 (proj2 (Hpos Ht) q He)) Hq).
Defined.

(** C8 as stated fails for a line with no hours available: with capacity 0
    on L1, the fallback's 100 kg are redistributed onto L1 as 20 hours, the
    realized-demand-hours are 20 > 0, and the ratio is 0 / (20 + 1e-9) = 0,
    neither NaN nor strictly positive. *)
Lemma utilization_ratio_can_be_zero :
  optimal (build_model scn_demand zc_capacity scn_rate) zr_X
  /\ total_demand_hours (augment_rate scn_demand scn_rate)
       (AllocationTable scn_demand zc_capacity scn_rate zr_X)
       "P1" "Choc" "L1" == 20
  /\ exists v,
       In (mkRatio "P1" "Choc" "L1" (Num (Fin v)))
          (UtilizationTable scn_demand zc_capacity scn_rate zr_X)
       /\ v == 0 /\ ~ 0 < v.
Proof.
  split; [exact zc_optimal|].
  split; [reflexivity|].
  eexists. split; [vm_compute; left; reflexivity|].
  split; [reflexivity | vm_compute; discriminate].
Qed.

(** ** Cross-category accumulation *)

Lemma line_production_recategorise (g : string -> string) (rows : list row) p l :
  line_production (map (recategorise g) rows) p l
  = map (recategorise g) (line_production rows p l).
Proof.
  unfold line_production.
  induction rows as [|r rows IH]; [reflexivity|].
  cbn [map filter]. cbn [recategorise Period Line]. rewrite IH.
  destruct (String.eqb (Period r) p && String.eqb (Line r) l); reflexivity.
Qed.

Lemma fold_left_recategorise (g : string -> string) (f : Q -> row -> Q)
  (rs : list row) (acc : Q) :
  (forall t r, f t (recategorise g r) = f t r) ->
  fold_left f (map (recategorise g) rs) acc = fold_left f rs acc.
Proof.
  intros Hf. revert acc.
  induction rs as [|r rs IH]; intros acc; [reflexivity|].
  cbn [map fold_left]. rewrite Hf. apply IH.
Qed.

Lemma total_demand_hours_recategorise (g : string -> string) (rate : rate_t)
  (rows : list row) p c l :
  total_demand_hours rate (map (recategorise g) rows) p c l
  = total_demand_hours rate rows p c l.
Proof.
  unfold total_demand_hours. rewrite line_production_recategorise.
  apply fold_left_recategorise. intros t r. reflexivity.
Qed.

Lemma cat0_optimal :
  optimal (build_model cat0_demand cat_capacity cat_rate) cat0_X.
Proof.
  split; [reflexivity|].
  intros Y HY.
  change (build_model cat0_demand cat_capacity cat_rate)
    with (mkModel ["P1"] ["C1"; "C2"] ["A"] ["L1"; "Fallback_Line"] cat0_demand
            [(("P1", "C1", "L1"), Fin 10); (("P1", "C2", "L1"), Fin 10);
             (("P1", "C1", "Fallback_Line"), PInf);
             (("P1", "C2", "Fallback_Line"), PInf)]
            [(("P1", "C1", "L1", "A"), 5); (("P1", "C2", "L1", "A"), 5);
             (("P1", "C1", "Fallback_Line", "A"), 1 # 100);
             (("P1", "C2", "Fallback_Line", "A"), 1 # 100)]) in *.
  unfold feasible in HY. lp_norm_in HY. lp_split HY.
  lp_norm. lra.
Qed.

(** The ratio row of one capacity entry, with its hours written as a sum. *)
Lemma utilization_row_of_entry (d : demand_t) (cp : capacity_t) (rt : rate_t)
  (value : key4 -> option Q) p c l e :
  In ((p, c, l), e) (augment_capacity d cp) ->
  exists tdh,
    tdh == sumQ (map (fun r =>
                        if Qltb 0 (dict_get_or key4_eqb (augment_rate d rt)
                                               (p, c, l, Product r) 0)
                        then Kg_Produced r
                             / dict_get_or key4_eqb (augment_rate d rt)
                                           (p, c, l, Product r) 0
                        else 0)
                     (filter (fun r => String.eqb (Period r) p
                                       && String.eqb (Line r) l)
                             (results_df_adjusted (post_solve d cp rt value))))
    /\ In (mkRatio p c l
             (if Qltb 0 tdh then Num (ext_div e (tdh + epsilon)) else NaN))
          (capacity_demand_ratio_df (post_solve d cp rt value)).
Proof.
  intros Hin.
  exists (total_demand_hours (augment_rate d rt)
            (results_df_adjusted (post_solve d cp rt value)) p c l).
  split; [apply total_demand_hours_sum|].
  change (capacity_demand_ratio_df (post_solve d cp rt value))
    with (capacity_demand_data (augment_capacity d cp) (augment_rate d rt)
            (results_df_adjusted (post_solve d cp rt value))).
  unfold capacity_demand_data. apply in_map_iff.
  exists ((p, c, l), e). split; [reflexivity | exact Hin].
Qed.

(** C10.  For every entry (p, c, l) -> capacity of the augmented capacity
    mapping the utilization table reports capacity / (hours + 1e-9) (NaN
    when the hours are not positive), where the hours sum mass / rate over
    the aggregated rows whose Period is p and whose Line is l, whatever
    their Category (rewriting the Category column changes nothing), with the
    rate looked up at (p, c, l, product) and a zero contribution when that
    rate is absent or not positive.  With categories C1 and C2 sharing P1
    and L1, category C2's 25 kg enter the ratio reported for C1: it is
    10 / (15 + 1e-9) although C1's own hours on L1 are 10, and it becomes
    10 / (10 + 1e-9) when only C2's demand is set to 0. *)
Theorem utilization_hours_ignore_category :
  (forall d cp rt value p c l e,
     In ((p, c, l), e) (augment_capacity d cp) ->
     exists tdh,
       tdh == sumQ (map (fun r =>
                           if Qltb 0 (dict_get_or key4_eqb (augment_rate d rt)
                                                  (p, c, l, Product r) 0)
                           then Kg_Produced r
                                / dict_get_or key4_eqb (augment_rate d rt)
                                              (p, c, l, Product r) 0
                           else 0)
                        (filter (fun r => String.eqb (Period r) p
                                          && String.eqb (Line r) l)
                                (results_df_adjusted
                                   (post_solve d cp rt value))))
       /\ In (mkRatio p c l
                (if Qltb 0 tdh then Num (ext_div e (tdh + epsilon)) else NaN))
             (capacity_demand_ratio_df (post_solve d cp rt value)))
  /\ (forall g rate rows p c l,
        total_demand_hours rate (map (recategorise g) rows) p c l
        = total_demand_hours rate rows p c l)
  /\ (optimal (build_model cat_demand cat_capacity cat_rate) cat_X
      /\ rows_eqb (AllocationTable cat_demand cat_capacity cat_rate cat_X)
           [mkRow "P1" "C1" "L1" "A" 10 50; mkRow "P1" "C2" "L1" "A" 5 25]
         = true
      /\ sum_by Hours (on_line "P1" "C1" "L1")
           (AllocationTable cat_demand cat_capacity cat_rate cat_X) == 10
      /\ exists v,
           In (mkRatio "P1" "C1" "L1" (Num (Fin v)))
              (UtilizationTable cat_demand cat_capacity cat_rate cat_X)
           /\ v == 10 / (15 + epsilon))
  /\ (optimal (build_model cat0_demand cat_capacity cat_rate) cat0_X
      /\ rows_eqb (AllocationTable cat0_demand cat_capacity cat_rate cat0_X)
           [mkRow "P1" "C1" "L1" "A" 10 50] = true
      /\ exists v,
           In (mkRatio "P1" "C1" "L1" (Num (Fin v)))
              (UtilizationTable cat0_demand cat_capacity cat_rate cat0_X)
           /\ v == 10 / (10 + epsilon)).
Proof.
  split; [intros; apply utilization_row_of_entry; assumption|].
  split; [intros; apply total_demand_hours_recategorise|].
  split.
  - split; [exact cat_optimal|]. split; [reflexivity|]. split; [reflexivity|].
    eexists. split; [vm_compute; left; reflexivity | reflexivity].
  - split; [exact cat0_optimal|]. split; [reflexivity|].
    eexists. split; [vm_compute; left; reflexivity | reflexivity].
Qed.

Lemma utilization_hours_ignore_category_witness :
  exists tdh,
    tdh == 15
    /\ In (mkRatio "P1" "C1" "L1"
             (if Qltb 0 tdh then Num (ext_div (Fin 10) (tdh + epsilon))
              else NaN))
          (capacity_demand_ratio_df
             (post_solve cat_demand cat_capacity cat_rate (assigned cat_X))).
Proof.
  destruct (proj1 utilization_hours_ignore_category
              cat_demand cat_capacity cat_rate (assigned cat_X)
              "P1" "C1" "L1" (Fin 10)) as [tdh [Ht Hin]].
  - left. reflexivity.
  - exists tdh. split; [rewrite Ht; reflexivity | exact Hin].
Defined.

(** * Further properties of the solver module *)

(** ** Index Builder *)

Lemma sorted_set_leb (l : list string) :
  Sorted (fun x y => String.leb x y = true) (sorted_set l).
Proof.
  unfold sorted_set.
  exact (StringSort.Sorted_sort (nodup string_dec l)).
Qed.

Lemma leb_neq_lt (x y : string) :
  String.leb x y = true -> x <> y -> string_lt x y.
Proof.
  unfold String.leb, string_lt. intros Hle Hne.
  destruct (String.compare x y) eqn:E; [|reflexivity|discriminate].
  apply String.compare_eq_iff in E. contradiction.
Qed.

Lemma sorted_set_strict (l : list string) : Sorted string_lt (sorted_set l).
Proof.
  pose proof (sorted_set_leb l) as Hs. pose proof (NoDup_sorted_set l) as Hn.
  induction Hs as [|x t Hs IH Hhd]; [constructor|].
  inversion Hn as [|? ? Hx Hn']; subst.
  constructor; [apply IH; exact Hn'|].
  destruct Hhd as [|y t' Hxy]; constructor.
  apply leb_neq_lt; [exact Hxy|]. intros ->. apply Hx. left. reflexivity.
Qed.

(** X1.  The four index sets are strictly increasing in string order (hence
    sorted and duplicate-free) and contain exactly the period, category and
    product components of the demand keys and the line components of the
    capacity keys. *)
Theorem index_sets_sorted_exact (d : demand_t) (cp : capacity_t) :
  (Sorted string_lt (Periods d) /\ NoDup (Periods d)
   /\ forall p, In p (Periods d) <-> exists c x q, In ((p, c, x), q) d)
  /\ (Sorted string_lt (Categories d) /\ NoDup (Categories d)
      /\ forall c, In c (Categories d) <-> exists p x q, In ((p, c, x), q) d)
  /\ (Sorted string_lt (Products d) /\ NoDup (Products d)
      /\ forall x, In x (Products d) <-> exists p c q, In ((p, c, x), q) d)
  /\ (Sorted string_lt (real_Lines cp) /\ NoDup (real_Lines cp)
      /\ forall l, In l (real_Lines cp) <-> exists p c e, In ((p, c, l), e) cp).
Proof.
  repeat split; try apply sorted_set_strict; try apply NoDup_sorted_set.
  - intros H. apply In_sorted_set, in_map_iff in H.
    destruct H as [[[[p' c] x] q] [E Hin]]. simpl in E. subst. eauto.
  - intros (c & x & q & Hin). eapply In_Periods; exact Hin.
  - intros H. apply In_sorted_set, in_map_iff in H.
    destruct H as [[[[p c'] x] q] [E Hin]]. simpl in E. subst. eauto.
  - intros (p & x & q & Hin). eapply In_Categories; exact Hin.
  - intros H. apply In_sorted_set, in_map_iff in H.
    destruct H as [[[[p c] x'] q] [E Hin]]. simpl in E. subst. eauto.
  - intros (p & c & q & Hin). eapply In_Products; exact Hin.
  - intros H. apply In_sorted_set, in_map_iff in H.
    destruct H as [[[[p c] l'] e] [E Hin]]. simpl in E. subst. eauto.
  - intros (p & c & e & Hin). eapply In_real_Lines; exact Hin.
Qed.

Lemma index_sets_sorted_exact_witness : In "P1" (Periods scn_demand).
Proof.
  apply (proj2 (proj2 (proj2 (proj1
           (index_sets_sorted_exact scn_demand scn_capacity))) "P1")).
  exists "Choc", "A", 100. left. reflexivity.
Defined.


Lemma Lines_real (cp : capacity_t) : Lines cp = (real_Lines cp ++ [fictitious_line])%list.
Proof. reflexivity. Qed.

(** X2.  [Lines] is the sorted real line names followed by the sentinel, and
    it is duplicate-free exactly when no capacity key of the input uses the
    sentinel name. *)
Theorem Lines_nodup_iff (cp : capacity_t) :
  Lines cp = (real_Lines cp ++ [fictitious_line])%list
  /\ (NoDup (Lines cp)
      <-> ~ exists p c e, In ((p, c, fictitious_line), e) cp).
Proof.
  split; [reflexivity|]. rewrite Lines_real. split.
  - intros Hnd (p & c & e & Hin).
    apply NoDup_remove_2 in Hnd. rewrite app_nil_r in Hnd.
    apply Hnd. eapply In_real_Lines. exact Hin.
  - intros Hno. apply NoDup_app.
    + apply NoDup_sorted_set.
    + constructor; [intros [] | constructor].
    + intros l Hl [<-|[]].
      apply In_sorted_set, in_map_iff in Hl.
      destruct Hl as [[[[p c] l'] e] [E Hin]]. simpl in E. subst.
      apply Hno. eauto.
Qed.

Lemma Lines_nodup_iff_witness : NoDup (Lines scn_capacity).
Proof.
  apply (proj2 (proj2 (Lines_nodup_iff scn_capacity))).
  intros (p & c & e & [H|[]]). discriminate.
Defined.


(** ** Feasibility Augmenter *)

Section DictSetFacts.
Context {K V : Type}.
Variable eqb : K -> K -> bool.
Hypothesis eqb_eq : forall a b, eqb a b = true <-> a = b.

Lemma dict_set_same_value (d : list (K * V)) k v :
  dict_get eqb d k = Some v -> dict_set eqb d k v = d.
Proof.
  induction d as [|[k' v'] d IH]; simpl; [discriminate|].
  destruct (eqb k' k) eqn:E.
  - intros H. inversion H. reflexivity.
  - intros H. rewrite IH by exact H. reflexivity.
Qed.

Lemma set_all_fixed (ks : list K) (v : V) (d : list (K * V)) :
  (forall k, In k ks -> dict_get eqb d k = Some v) ->
  fold_left (fun d k => dict_set eqb d k v) ks d = d.
Proof.
  induction ks as [|k ks IH]; intros H; simpl; [reflexivity|].
  rewrite dict_set_same_value by (apply H; simpl; auto).
  apply IH. intros k' Hk'. apply H. simpl; auto.
Qed.

Lemma set_all_idempotent (ks : list K) (v : V) (d : list (K * V)) :
  fold_left (fun d k => dict_set eqb d k v) ks
    (fold_left (fun d k => dict_set eqb d k v) ks d)
  = fold_left (fun d k => dict_set eqb d k v) ks d.
Proof.
  apply set_all_fixed. intros k Hk.
  apply (dict_get_set_all_in eqb eqb_eq). exact Hk.
Qed.

(** Keys already present keep their position; new keys go to the end. *)
Lemma dict_set_keys (d : list (K * V)) k v :
  map fst (dict_set eqb d k v)
  = if dict_mem eqb d k then map fst d else (map fst d ++ [k])%list.
Proof.
  unfold dict_mem.
  induction d as [|[k' v'] d IH]; simpl; [reflexivity|].
  destruct (eqb k' k) eqn:E; simpl; [reflexivity|].
  rewrite IH. destruct (dict_get eqb d k); reflexivity.
Qed.

Lemma dict_set_keys_prefix (d : list (K * V)) k v :
  exists new, map fst (dict_set eqb d k v) = (map fst d ++ new)%list
              /\ forall k', In k' new -> k' = k.
Proof.
  rewrite dict_set_keys. destruct (dict_mem eqb d k).
  - exists []. rewrite app_nil_r. split; [reflexivity | intros k' []].
  - exists [k]. split; [reflexivity|]. intros k' [<-|[]]. reflexivity.
Qed.

Lemma set_all_keys_prefix (ks : list K) (v : V) (d : list (K * V)) :
  exists new,
    map fst (fold_left (fun d k => dict_set eqb d k v) ks d)
    = (map fst d ++ new)%list
    /\ forall k, In k new -> In k ks.
Proof.
  revert d. induction ks as [|k ks IH]; intros d; simpl.
  - exists []. rewrite app_nil_r. split; [reflexivity | intros k []].
  - destruct (IH (dict_set eqb d k v)) as [new1 [H1 S1]].
    destruct (dict_set_keys_prefix d k v) as [new0 [H0 S0]].
    exists (new0 ++ new1)%list. split.
    + rewrite H1, H0, app_assoc. reflexivity.
    + intros k' Hk'. apply in_app_or in Hk' as [Hk'|Hk'].
      * left. symmetry. apply S0. exact Hk'.
      * right. apply S1. exact Hk'.
Qed.
End DictSetFacts.

(** X3.  The augmentation is idempotent on both dictionaries: running it on
    its own output (what a second call on the same, already mutated,
    dictionaries does) changes nothing. *)
Theorem augmentation_idempotent (d : demand_t) (cp : capacity_t) (rt : rate_t) :
  augment_rate d (augment_rate d rt) = augment_rate d rt
  /\ augment_capacity d (augment_capacity d cp) = augment_capacity d cp.
Proof.
  split.
  - rewrite !augment_rate_fold. apply (set_all_idempotent key4_eqb key4_eqb_eq).
  - rewrite !augment_capacity_fold.
    apply (set_all_idempotent key3_eqb key3_eqb_eq).
Qed.

(** X4.  Complete lookup law of the augmentation: a rate lookup gives 0.01
    exactly at the fallback keys of the demand triples and the input's
    answer everywhere else (so no other key is created), and likewise
    infinity for capacity at the fallback keys of the demand pairs; the
    input's keys keep their order, new keys are appended after them. *)
Theorem augmentation_lookup (d : demand_t) (cp : capacity_t) (rt : rate_t) :
  (forall p c l x,
     dict_get key4_eqb (augment_rate d rt) (p, c, l, x)
     = if String.eqb l fictitious_line && dict_mem key3_eqb d (p, c, x)
       then Some (1 # 100)
       else dict_get key4_eqb rt (p, c, l, x))
  /\ (forall p c l,
        dict_get key3_eqb (augment_capacity d cp) (p, c, l)
        = if String.eqb l fictitious_line
             && existsb (fun e : key3 * Q =>
                           let '(p', c', _) := fst e in
                           String.eqb p' p && String.eqb c' c) d
          then Some PInf
          else dict_get key3_eqb cp (p, c, l))
  /\ (exists new, map fst (augment_rate d rt) = (map fst rt ++ new)%list)
  /\ (exists new, map fst (augment_capacity d cp) = (map fst cp ++ new)%list).
Proof.
  split; [|split; [|split]].
  - intros p c l x.
    destruct (String.eqb l fictitious_line && dict_mem key3_eqb d (p, c, x))
      eqn:E.
    + apply andb_true_iff in E as [El Em]. apply String.eqb_eq in El. subst l.
      unfold dict_mem in Em.
      destruct (dict_get key3_eqb d (p, c, x)) as [q|] eqn:Eg; [|discriminate].
      apply (dict_get_In key3_eqb key3_eqb_eq) in Eg.
      eapply augment_rate_fallback. exact Eg.
    + apply augment_rate_other. apply andb_false_iff in E as [E|E].
      * left. apply String.eqb_neq. exact E.
      * right. intros q Hin. unfold dict_mem in E.
        destruct (dict_get key3_eqb d (p, c, x)) as [q'|] eqn:Eg;
          [discriminate|].
        clear E. induction d as [|[k' q'] d IH]; [destruct Hin|].
        simpl in Eg. destruct (key3_eqb k' (p, c, x)) eqn:Ek; [discriminate|].
        destruct Hin as [Hin|Hin]; [|exact (IH Eg Hin)].
        inversion Hin. subst k'.
        rewrite (proj2 (key3_eqb_eq _ _) eq_refl) in Ek. discriminate.
  - intros p c l.
    destruct (String.eqb l fictitious_line
              && existsb (fun e : key3 * Q =>
                            let '(p', c', _) := fst e in
                            String.eqb p' p && String.eqb c' c) d) eqn:E.
    + apply andb_true_iff in E as [El Em]. apply String.eqb_eq in El. subst l.
      apply existsb_exists in Em as [[[[p' c'] x] q] [Hin Hk]].
      simpl in Hk. apply andb_true_iff in Hk as [Hp Hc].
      apply String.eqb_eq in Hp, Hc. subst.
      eapply augment_capacity_fallback. exact Hin.
    + apply augment_capacity_other. apply andb_false_iff in E as [E|E].
      * left. apply String.eqb_neq. exact E.
      * right. intros x q Hin.
        assert (Ht : existsb (fun e : key3 * Q =>
                                let '(p', c', _) := fst e in
                                String.eqb p' p && String.eqb c' c) d = true).
        { apply existsb_exists. exists ((p, c, x), q). split; [exact Hin|].
          simpl. rewrite !String.eqb_refl. reflexivity. }
        congruence.
  - rewrite augment_rate_fold.
    destruct (set_all_keys_prefix key4_eqb (rate_keys d) (1 # 100) rt)
      as [new [H _]]. exists new. exact H.
  - rewrite augment_capacity_fold.
    destruct (set_all_keys_prefix key3_eqb (capacity_keys d) PInf cp)
      as [new [H _]]. exists new. exact H.
Qed.



(** X6.  Empty demand: the model has no period, category or product, both
    allocation tables are empty whatever the solver returns, the capacity
    mapping is left as it was, and the utilization table has one NaN row per
    capacity entry. *)
Theorem empty_demand_tables (cp : capacity_t) (rt : rate_t)
  (value : key4 -> option Q) :
  augment_capacity [] cp = cp /\ augment_rate [] rt = rt
  /\ post_solve [] cp rt value
     = mkTables []
         (map (fun e : key3 * ext =>
                 let '(p, c, l) := fst e in mkRatio p c l NaN) cp)
         [].
Proof.
  split; [reflexivity|]. split; [reflexivity|].
  unfold post_solve. cbn [build_model m_rate m_capacity].
  change (extract (Periods []) (Categories []) (Lines cp) (Products [])
                  (augment_rate [] rt) value) with (@nil row).
  cbn [filter adjusted_rows flat_map app]. change (groupby_sum []) with (@nil row).
  f_equal.
Qed.


(** ** Result Extractor *)

Lemma In_extract (Ps Cs Ls Prs : list string) (rate : rate_t) value r :
  In r (extract Ps Cs Ls Prs rate value)
  <-> In (Period r) Ps /\ In (Category r) Cs /\ In (Line r) Ls
      /\ In (Product r) Prs
      /\ value (row_key r) = Some (Hours r) /\ 0 < Hours r
      /\ Kg_Produced r = Hours r * dict_get_or key4_eqb rate (row_key r) 0.
Proof.
  unfold extract. split.
  - intros H.
    apply in_flat_map in H as [p [Hp H]]. apply in_flat_map in H as [c [Hc H]].
    apply in_flat_map in H as [l [Hl H]]. apply in_flat_map in H as [x [Hx H]].
    unfold extract_cell in H.
    destruct (value (p, c, l, x)) as [v|] eqn:Ev; [|destruct H].
    destruct (Qltb 0 v) eqn:E; [|destruct H]. destruct H as [<-|[]].
    apply Qltb_lt in E. unfold row_key. simpl. repeat split; assumption.
  - intros (Hp & Hc & Hl & Hx & Hv & Hpos & Hkg).
    apply in_flat_map. exists (Period r). split; [exact Hp|].
    apply in_flat_map. exists (Category r). split; [exact Hc|].
    apply in_flat_map. exists (Line r). split; [exact Hl|].
    apply in_flat_map. exists (Product r). split; [exact Hx|].
    unfold extract_cell. unfold row_key in Hv, Hkg. rewrite Hv.
    apply Qltb_lt in Hpos. rewrite Hpos. left.
    destruct r as [p c l x h k]. simpl in *. subst k. reflexivity.
Qed.

(** X7.  The raw table has a row exactly for the variables of the index sets
    whose value is set and strictly positive; the row carries that value as
    Hours and Hours times the (augmented) rate, 0 if absent, as Kg_Produced. *)
Theorem raw_rows_exact (d : demand_t) (cp : capacity_t) (rt : rate_t)
  (value : key4 -> option Q) (r : row) :
  In r (results_df (post_solve d cp rt value))
  <-> In (Period r) (Periods d) /\ In (Category r) (Categories d)
      /\ In (Line r) (Lines cp) /\ In (Product r) (Products d)
      /\ value (row_key r) = Some (Hours r) /\ 0 < Hours r
      /\ Kg_Produced r
         = Hours r * dict_get_or key4_eqb (augment_rate d rt) (row_key r) 0.
Proof. apply In_extract. Qed.

Lemma raw_rows_exact_witness :
  In (mkRow "P1" "Choc" "L1" "A" 10 (10 * 5))
     (results_df (post_solve scn_demand scn_capacity scn_rate (assigned scn_X))).
Proof.
  apply (proj2 (raw_rows_exact scn_demand scn_capacity scn_rate
                  (assigned scn_X) (mkRow "P1" "Choc" "L1" "A" 10 (10 * 5)))).
  repeat split; try (left; reflexivity); try (right; left; reflexivity).
Defined.


Lemma extract_cell_positive_part (rate : rate_t) value p c l x :
  extract_cell rate value p c l x
  = extract_cell rate (assigned (positive_part value)) p c l x.
Proof.
  unfold extract_cell, assigned, positive_part.
  destruct (value (p, c, l, x)) as [v|]; [|reflexivity].
  destruct (Qltb 0 v) eqn:E; [rewrite E; reflexivity | reflexivity].
Qed.

(** X8.  Only the positive part of the solver's values matters: a variable
    left unset ([None]), zero or negative is treated exactly like 0, in all
    three returned tables. *)
Theorem unset_values_are_zero (d : demand_t) (cp : capacity_t) (rt : rate_t)
  (value : key4 -> option Q) :
  post_solve d cp rt value
  = post_solve d cp rt (assigned (positive_part value)).
Proof.
  unfold post_solve.
  assert (E : extract (Periods d) (Categories d) (Lines cp) (Products d)
                (m_rate (build_model d cp rt)) value
              = extract (Periods d) (Categories d) (Lines cp) (Products d)
                  (m_rate (build_model d cp rt))
                  (assigned (positive_part value))).
  { unfold extract.
    apply flat_map_ext. intros p. apply flat_map_ext. intros c.
    apply flat_map_ext. intros l. apply flat_map_ext. intros x.
    apply extract_cell_positive_part. }
  cbv zeta. rewrite E. reflexivity.
Qed.

(** ** Fallback Redistributor *)

(** X9.  Every row the redistributor adds for a fallback record keeps the
    record's period, category and product, sits on an eligible (hence real)
    line whose rate is strictly positive, carries the equal share
    mass / (number of eligible lines), and has Hours = share / rate, so that
    Hours times rate gives back its mass. *)
Theorem redistributed_row_shape (Ls : list string) (rate : rate_t) (r0 r : row) :
  In r (redistribute_row Ls rate r0) ->
  Period r = Period r0 /\ Category r = Category r0 /\ Product r = Product r0
  /\ In (Line r) (eligible_lines Ls rate (Period r0) (Category r0) (Product r0))
  /\ Line r <> fallback_name
  /\ 0 < dict_get_or key4_eqb rate (row_key r) 0
  /\ Kg_Produced r
     = Kg_Produced r0
       / inject_Z (Z.of_nat (List.length
           (eligible_lines Ls rate (Period r0) (Category r0) (Product r0))))
  /\ Hours r = Kg_Produced r / dict_get_or key4_eqb rate (row_key r) 0
  /\ Hours r * dict_get_or key4_eqb rate (row_key r) 0 == Kg_Produced r.
Proof.
  intros Hin. pose proof (In_redistribute_row _ _ _ _ Hin) as (Hp & Hc & Hx & Hel).
  split; [exact Hp|]. split; [exact Hc|]. split; [exact Hx|].
  split; [exact Hel|].
  split; [apply In_eligible_lines in Hel; tauto|].
  unfold redistribute_row in Hin.
  destruct (eligible_lines Ls rate (Period r0) (Category r0) (Product r0))
    as [|l0 el] eqn:E; [destruct Hin|].
  apply in_flat_map in Hin as [l [_ Hr]].
  unfold redistribute_line in Hr. unfold row_key. rewrite Hp, Hc, Hx.
  destruct (dict_get key4_eqb rate (Period r0, Category r0, l, Product r0))
    as [q|] eqn:Eq; [|destruct Hr].
  destruct (Qltb 0 q) eqn:Epos; [|destruct Hr]. destruct Hr as [<-|[]].
  apply Qltb_lt in Epos. cbn [Line Kg_Produced Hours].
  unfold dict_get_or. rewrite Eq.
  split; [exact Epos|]. split; [reflexivity|]. split; [reflexivity|].
  generalize (Kg_Produced r0 / inject_Z (Z.of_nat (List.length (l0 :: el)))).
  intros share. field. lra.
Qed.

Lemma redistributed_row_shape_witness :
  Line (mkRow "P1" "Choc" "L1" "A" 10 50) <> fallback_name
  /\ Hours (mkRow "P1" "Choc" "L1" "A" 10 50)
       * dict_get_or key4_eqb (augment_rate scn_demand scn_rate)
           (row_key (mkRow "P1" "Choc" "L1" "A" 10 50)) 0
     == Kg_Produced (mkRow "P1" "Choc" "L1" "A" 10 50).
Proof.
  destruct (redistributed_row_shape (Lines scn_capacity)
              (augment_rate scn_demand scn_rate)
              (mkRow "P1" "Choc" "Fallback_Line" "A" 5000 50)
              (mkRow "P1" "Choc" "L1" "A" (50 / inject_Z 1 / 5)
                     (50 / inject_Z 1)))
    as (_ & _ & _ & _ & Hl & _ & _ & _ & _).
  - left. reflexivity.
  - split; [exact Hl | reflexivity].
Defined.

Lemma redistribute_lines_mass_paying (rate : rate_t) p c prod kgs
  (el : list string) :
  sumQ (map Kg_Produced (flat_map (redistribute_line rate p c prod kgs) el))
  == inject_Z (Z.of_nat (List.length
        (filter (fun l => Qltb 0 (dict_get_or key4_eqb rate (p, c, l, prod) 0))
                el)))
     * kgs.
Proof.
  induction el as [|l el IH].
  - change (0 == 0 * kgs). lra.
  - cbn [flat_map filter]. rewrite map_app, sumQ_app, IH.
    unfold redistribute_line, dict_get_or.
    destruct (dict_get key4_eqb rate (p, c, l, prod)) as [q|].
    + destruct (Qltb 0 q).
      * cbn [map sumQ fold_right Kg_Produced List.length].
        rewrite Nat2Z.inj_succ, <- Z.add_1_r, inject_Z_plus.
        change (inject_Z 1) with 1. lra.
      * cbn [map sumQ fold_right]. lra.
    + change (Qltb 0 0) with false. cbn [map sumQ fold_right]. lra.
Qed.

Lemma length_filter_le {A : Type} (f : A -> bool) (l : list A) :
  (List.length (filter f l) <= List.length l)%nat.
Proof.
  induction l as [|x l IH]; simpl; [lia|]. destruct (f x); simpl; lia.
Qed.

(** X10.  Mass accounting of one fallback record: the mass added to real
    lines is the record's mass times the fraction of its eligible lines that
    have a strictly positive rate (nothing when no line is eligible), so for
    a non-negative record the redistribution never adds more mass than the
    record carried. *)
Theorem redistributed_mass_fraction (Ls : list string) (rate : rate_t) (r : row) :
  sumQ (map Kg_Produced (redistribute_row Ls rate r))
  == Kg_Produced r
     * (inject_Z (Z.of_nat (List.length
          (paying_lines Ls rate (Period r) (Category r) (Product r))))
        / inject_Z (Z.of_nat (List.length
            (eligible_lines Ls rate (Period r) (Category r) (Product r)))))
  /\ (0 <= Kg_Produced r ->
      0 <= sumQ (map Kg_Produced (redistribute_row Ls rate r))
      /\ sumQ (map Kg_Produced (redistribute_row Ls rate r)) <= Kg_Produced r).
Proof.
  unfold redistribute_row, paying_lines.
  destruct (eligible_lines Ls rate (Period r) (Category r) (Product r))
    as [|l0 el] eqn:E.
  - split.
    + cbn [map sumQ fold_right filter List.length Z.of_nat].
      change (inject_Z 0) with 0. unfold Qdiv. ring.
    + intros H. cbn [map sumQ fold_right]. lra.
  - rewrite redistribute_lines_mass_paying.
    set (el' := l0 :: el).
    set (f := fun l => Qltb 0 (dict_get_or key4_eqb rate
                                 (Period r, Category r, l, Product r) 0)).
    set (n := inject_Z (Z.of_nat (List.length el'))).
    set (m := inject_Z (Z.of_nat (List.length (filter f el')))).
    assert (Hn : 0 < n).
    { unfold n. replace 0 with (inject_Z 0) by reflexivity.
      rewrite <- Zlt_Qlt. unfold el'. simpl List.length. lia. }
    assert (Hm0 : 0 <= m).
    { unfold m. replace 0 with (inject_Z 0) by reflexivity.
      rewrite <- Zle_Qle. lia. }
    assert (Hmn : m <= n).
    { unfold m, n. rewrite <- Zle_Qle.
      pose proof (length_filter_le f el'). lia. }
    assert (Heq : m * (Kg_Produced r / n) == Kg_Produced r * (m / n))
      by (field; lra).
    split; [exact Heq|].
    intros Hk. rewrite Heq.
    assert (H01 : 0 <= m / n) by (apply Qdiv_nonneg; assumption).
    assert (H11 : m / n <= 1).
    { apply Qle_shift_div_r; [exact Hn | lra]. }
    revert H01 H11. generalize (m / n). intros t H01 H11.
    split; nra.
Qed.

Lemma redistributed_mass_fraction_witness :
  0 <= sumQ (map Kg_Produced
               (redistribute_row (Lines two_capacity)
                  (augment_rate scn_demand two_rate)
                  (mkRow "P1" "Choc" "Fallback_Line" "A" 5000 50)))
  /\ sumQ (map Kg_Produced
             (redistribute_row (Lines two_capacity)
                (augment_rate scn_demand two_rate)
                (mkRow "P1" "Choc" "Fallback_Line" "A" 5000 50)))
     <= 50.
Proof.
  apply (proj2 (redistributed_mass_fraction (Lines two_capacity)
                  (augment_rate scn_demand two_rate)
                  (mkRow "P1" "Choc" "Fallback_Line" "A" 5000 50))).
  discriminate.
Defined.


(** ** Aggregation: order and uniqueness of keys *)

Lemma ascii_compare_refl (a : Ascii.ascii) : Ascii.compare a a = Eq.
Proof. unfold Ascii.compare. apply N.compare_refl. Qed.

Lemma ascii_compare_lt_trans (a b c : Ascii.ascii) :
  Ascii.compare a b = Lt -> Ascii.compare b c = Lt -> Ascii.compare a c = Lt.
Proof.
  unfold Ascii.compare. rewrite !N.compare_lt_iff. apply N.lt_trans.
Qed.

Lemma string_compare_refl (a : string) : String.compare a a = Eq.
Proof.
  induction a as [|x a IH]; simpl; [reflexivity|].
  rewrite ascii_compare_refl. exact IH.
Qed.

Lemma string_lt_trans (a b c : string) :
  string_lt a b -> string_lt b c -> string_lt a c.
Proof.
  unfold string_lt. revert b c.
  induction a as [|x a IH]; intros [|y b] [|z c]; simpl; try discriminate; auto.
  destruct (Ascii.compare x y) eqn:Exy; try discriminate;
    destruct (Ascii.compare y z) eqn:Eyz; try discriminate; intros H1 H2.
  - apply Ascii.compare_eq_iff in Exy, Eyz. subst.
    rewrite ascii_compare_refl. eapply IH; eassumption.
  - apply Ascii.compare_eq_iff in Exy. subst. rewrite Eyz. reflexivity.
  - apply Ascii.compare_eq_iff in Eyz. subst. rewrite Exy. reflexivity.
  - rewrite (ascii_compare_lt_trans _ _ _ Exy Eyz). reflexivity.
Qed.

Lemma lex_lt_trans (a1 a2 a3 : string) (c12 c23 c13 : comparison) :
  (c12 = Lt -> c23 = Lt -> c13 = Lt) ->
  lex (String.compare a1 a2) c12 = Lt ->
  lex (String.compare a2 a3) c23 = Lt ->
  lex (String.compare a1 a3) c13 = Lt.
Proof.
  intros Hc.
  destruct (String.compare a1 a2) eqn:E12; simpl; try discriminate;
    destruct (String.compare a2 a3) eqn:E23; simpl; try discriminate;
    intros H1 H2.
  - apply String.compare_eq_iff in E12, E23. subst.
    rewrite string_compare_refl. simpl. auto.
  - apply String.compare_eq_iff in E12. subst. rewrite E23. reflexivity.
  - apply String.compare_eq_iff in E23. subst. rewrite E12. reflexivity.
  - rewrite (string_lt_trans _ _ _ E12 E23). reflexivity.
Qed.

Lemma key4_lt_trans (a b c : key4) : key4_lt a b -> key4_lt b c -> key4_lt a c.
Proof.
  destruct a as [[[p1 c1] l1] x1], b as [[[p2 c2] l2] x2],
           c as [[[p3 c3] l3] x3].
  unfold key4_lt, key4_compare.
  apply lex_lt_trans. apply lex_lt_trans. apply lex_lt_trans.
  apply string_lt_trans.
Qed.

Lemma key4_compare_refl (a : key4) : key4_compare a a = Eq.
Proof.
  destruct a as [[[p c] l] x]. unfold key4_compare.
  rewrite !string_compare_refl. reflexivity.
Qed.

Lemma key4_lt_irrefl (a : key4) : ~ key4_lt a a.
Proof. unfold key4_lt. rewrite key4_compare_refl. discriminate. Qed.

Lemma lex_antisym (x y : comparison) :
  lex (CompOpp x) (CompOpp y) = CompOpp (lex x y).
Proof. destruct x; reflexivity. Qed.

Lemma key4_compare_antisym (a b : key4) :
  key4_compare a b = CompOpp (key4_compare b a).
Proof.
  destruct a as [[[p c] l] x], b as [[[p' c'] l'] x']. unfold key4_compare.
  rewrite (String.compare_antisym p p'), (String.compare_antisym c c'),
          (String.compare_antisym l l'), (String.compare_antisym x x').
  rewrite !lex_antisym. reflexivity.
Qed.

Lemma key4_compare_Gt (a b : key4) : key4_compare a b = Gt -> key4_lt b a.
Proof.
  unfold key4_lt. rewrite (key4_compare_antisym b a). intros ->. reflexivity.
Qed.

Lemma add_row_HdRel (k : key4) (r : row) (acc : list row) :
  HdRel key4_lt k (map row_key acc) -> key4_lt k (row_key r) ->
  HdRel key4_lt k (map row_key (add_row r acc)).
Proof.
  intros Hhd Hk. destruct acc as [|r' acc]; cbn [add_row map].
  - constructor. exact Hk.
  - destruct (key4_compare (row_key r) (row_key r')); cbn [map].
    + constructor. apply HdRel_inv in Hhd. exact Hhd.
    + constructor. exact Hk.
    + constructor. apply HdRel_inv in Hhd. exact Hhd.
Qed.

Lemma add_row_sorted (r : row) (acc : list row) :
  Sorted key4_lt (map row_key acc) ->
  Sorted key4_lt (map row_key (add_row r acc)).
Proof.
  induction acc as [|r' acc IH]; intros Hs; cbn [add_row map].
  - constructor; constructor.
  - cbn [map] in Hs. apply Sorted_inv in Hs as [Hs Hhd].
    destruct (key4_compare (row_key r) (row_key r')) eqn:E; cbn [map].
    + constructor; assumption.
    + constructor; [constructor; assumption|]. constructor. exact E.
    + constructor; [apply IH; exact Hs|].
      apply add_row_HdRel; [exact Hhd | apply key4_compare_Gt; exact E].
Qed.

Lemma groupby_sum_sorted (rows : list row) :
  Sorted key4_lt (map row_key (groupby_sum rows)).
Proof.
  unfold groupby_sum.
  assert (G : forall acc, Sorted key4_lt (map row_key acc) ->
    Sorted key4_lt
      (map row_key (fold_left (fun acc r => add_row r acc) rows acc))).
  { induction rows as [|r rows IH]; intros acc Hs; simpl; [exact Hs|].
    apply IH. apply add_row_sorted. exact Hs. }
  apply G. constructor.
Qed.

Lemma sorted_keys_NoDup (ks : list key4) : Sorted key4_lt ks -> NoDup ks.
Proof.
  intros Hs. apply Sorted_StronglySorted in Hs;
    [|intros a b c; apply key4_lt_trans].
  induction Hs as [|k ks Hs IH Hall]; constructor; [|exact IH].
  intros Hin. rewrite Forall_forall in Hall.
  exact (key4_lt_irrefl k (Hall k Hin)).
Qed.

Lemma add_row_keys (r : row) (acc : list row) (k : key4) :
  In k (map row_key (add_row r acc)) <-> k = row_key r \/ In k (map row_key acc).
Proof.
  induction acc as [|r' acc IH]; cbn [add_row map In].
  - split; [intros [H|[]]; auto | intros [H|[]]; auto].
  - destruct (key4_compare (row_key r) (row_key r')) eqn:E; cbn [map In].
    + apply key4_compare_Eq in E.
      change (row_key (merge_rows r' r)) with (row_key r'). rewrite E.
      split; [intros [H|H]; auto | intros [H|[H|H]]; auto].
    + split; [intros [H|[H|H]]; auto | intros [H|[H|H]]; auto].
    + rewrite IH. split; [intros [H|[H|H]]; auto | intros [H|[H|H]]; auto].
Qed.

Lemma groupby_sum_keys (rows : list row) (k : key4) :
  In k (map row_key (groupby_sum rows)) <-> In k (map row_key rows).
Proof.
  unfold groupby_sum.
  assert (G : forall acc,
    In k (map row_key (fold_left (fun acc r => add_row r acc) rows acc))
    <-> In k (map row_key acc) \/ In k (map row_key rows)).
  { induction rows as [|r rows IH]; intros acc; simpl.
    - tauto.
    - rewrite IH, add_row_keys. split.
      + intros [[H|H]|H]; auto.
      + intros [H|[H|H]]; auto. }
  rewrite G. simpl. tauto.
Qed.

Lemma has_key_key (k : key4) (r r' : row) :
  row_key r = row_key r' -> has_key k r = has_key k r'.
Proof. unfold has_key. intros ->. reflexivity. Qed.

Lemma sum_by_unique_key (f : row -> Q) (rows : list row) (r : row) :
  NoDup (map row_key rows) -> In r rows ->
  sum_by f (has_key (row_key r)) rows == f r.
Proof.
  induction rows as [|r' rows IH]; intros Hnd Hin; [destruct Hin|].
  cbn [map] in Hnd. inversion Hnd as [|? ? Hnot Hnd']; subst.
  rewrite sum_by_cons. destruct Hin as [->|Hin].
  - unfold has_key at 1. rewrite (proj2 (key4_eqb_eq _ _) eq_refl).
    rewrite sum_by_none; [lra|].
    intros r0 Hr0. unfold has_key.
    apply (eqb_diff key4_eqb key4_eqb_eq). intros E. apply Hnot.
    rewrite <- E. apply in_map. exact Hr0.
  - rewrite IH by assumption.
    unfold has_key at 1.
    rewrite (eqb_diff key4_eqb key4_eqb_eq); [lra|].
    intros E. apply Hnot. rewrite E. apply in_map. exact Hin.
Qed.

(** X11.  The final table is in strictly increasing key order (Period,
    Category, Line, Product compared lexicographically), so it has exactly
    one row per key; its keys are exactly the keys of the non-fallback raw
    rows and of the rows added by the redistribution. *)
Theorem final_table_sorted_unique (d : demand_t) (cp : capacity_t)
  (rt : rate_t) (value : key4 -> option Q) :
  Sorted key4_lt (map row_key (results_df_adjusted (post_solve d cp rt value)))
  /\ NoDup (map row_key (results_df_adjusted (post_solve d cp rt value)))
  /\ forall k,
       In k (map row_key (results_df_adjusted (post_solve d cp rt value)))
       <-> In k (map row_key
                  (filter (fun r => negb (is_fallback r))
                          (results_df (post_solve d cp rt value))
                   ++ adjusted_rows (Lines cp) (augment_rate d rt)
                        (filter is_fallback
                                (results_df (post_solve d cp rt value))))).
Proof.
  rewrite final_table_eq.
  split; [apply groupby_sum_sorted|].
  split; [apply sorted_keys_NoDup, groupby_sum_sorted|].
  intros k. apply groupby_sum_keys.
Qed.

Lemma final_table_sorted_unique_witness :
  In ("P1", "Choc", "L1", "A")
     (map row_key
        (results_df_adjusted
           (post_solve scn_demand scn_capacity scn_rate (assigned scn_X)))).
Proof.
  apply (proj2 (proj2 (proj2 (final_table_sorted_unique scn_demand scn_capacity
                                scn_rate (assigned scn_X))) _)).
  left. reflexivity.
Defined.


(** X12.  Aggregation sums per key: the Hours and the Kg_Produced of each
    row of the final table are the sums of those columns over all
    non-fallback raw rows and redistributed rows that carry the row's key. *)
Theorem final_row_is_group_sum (d : demand_t) (cp : capacity_t) (rt : rate_t)
  (value : key4 -> option Q) (r : row) :
  In r (results_df_adjusted (post_solve d cp rt value)) ->
  Hours r
  == sum_by Hours (has_key (row_key r))
       (filter (fun r => negb (is_fallback r))
               (results_df (post_solve d cp rt value))
        ++ adjusted_rows (Lines cp) (augment_rate d rt)
             (filter is_fallback (results_df (post_solve d cp rt value))))
  /\ Kg_Produced r
     == sum_by Kg_Produced (has_key (row_key r))
          (filter (fun r => negb (is_fallback r))
                  (results_df (post_solve d cp rt value))
           ++ adjusted_rows (Lines cp) (augment_rate d rt)
                (filter is_fallback (results_df (post_solve d cp rt value)))).
Proof.
  intros Hin.
  assert (Hnd : NoDup (map row_key
                         (results_df_adjusted (post_solve d cp rt value)))).
  { rewrite final_table_eq. apply sorted_keys_NoDup, groupby_sum_sorted. }
  split.
  - rewrite <- (sum_by_unique_key Hours _ r Hnd Hin).
    rewrite final_table_eq.
    apply (sum_by_groupby_sum _ Hours_merge _ (has_key_key (row_key r))).
  - rewrite <- (sum_by_unique_key Kg_Produced _ r Hnd Hin).
    rewrite final_table_eq.
    apply (sum_by_groupby_sum _ Kg_merge _ (has_key_key (row_key r))).
Qed.

Lemma final_row_is_group_sum_witness :
  Hours (mkRow "P1" "Choc" "L1" "A" (10 + 5000 * (1 # 100) / inject_Z 1 / 5)
               (10 * 5 + 5000 * (1 # 100) / inject_Z 1))
  == sum_by Hours (has_key ("P1", "Choc", "L1", "A"))
       (filter (fun r => negb (is_fallback r))
               (results_df (post_solve scn_demand scn_capacity scn_rate
                                       (assigned scn_X)))
        ++ adjusted_rows (Lines scn_capacity)
             (augment_rate scn_demand scn_rate)
             (filter is_fallback
                     (results_df (post_solve scn_demand scn_capacity scn_rate
                                             (assigned scn_X))))).
Proof.
  apply (final_row_is_group_sum scn_demand scn_capacity scn_rate
           (assigned scn_X)
           (mkRow "P1" "Choc" "L1" "A"
                  (10 + 5000 * (1 # 100) / inject_Z 1 / 5)
                  (10 * 5 + 5000 * (1 # 100) / inject_Z 1))).
  left. reflexivity.
Defined.


(** ** Hours, rate and mass of a row *)

Lemma add_row_Forall (P : row -> Prop) (r : row) (acc : list row) :
  (forall a b, P a -> P b -> row_key b = row_key a -> P (merge_rows a b)) ->
  P r -> (forall a, In a acc -> P a) ->
  forall a, In a (add_row r acc) -> P a.
Proof.
  intros Hm Hr. induction acc as [|r' acc IH]; intros Hacc a; cbn [add_row].
  - intros [<-|[]]. exact Hr.
  - destruct (key4_compare (row_key r) (row_key r')) eqn:E.
    + apply key4_compare_Eq in E. intros [<-|H].
      * apply Hm; [apply Hacc; simpl; auto | exact Hr | exact E].
      * apply Hacc. simpl; auto.
    + intros [<-|H]; [exact Hr | apply Hacc; exact H].
    + intros [<-|H]; [apply Hacc; simpl; auto|].
      apply IH; [intros; apply Hacc; simpl; auto | exact H].
Qed.

Lemma groupby_sum_Forall (P : row -> Prop) (rows : list row) :
  (forall a b, P a -> P b -> row_key b = row_key a -> P (merge_rows a b)) ->
  (forall r, In r rows -> P r) ->
  forall r, In r (groupby_sum rows) -> P r.
Proof.
  intros Hm. unfold groupby_sum.
  assert (G : forall acc,
    (forall r, In r rows -> P r) -> (forall r, In r acc -> P r) ->
    forall r, In r (fold_left (fun acc r => add_row r acc) rows acc) -> P r).
  { induction rows as [|r0 rows IH]; intros acc Hrows Hacc; simpl; [exact Hacc|].
    apply IH; [intros; apply Hrows; simpl; auto|].
    apply add_row_Forall; [exact Hm | apply Hrows; simpl; auto | exact Hacc]. }
  intros Hrows. apply G; [exact Hrows | intros r []].
Qed.

(** Where the rows fed to the aggregation come from. *)
Lemma pre_aggregation_rows (d : demand_t) (cp : capacity_t) (rt : rate_t)
  value r :
  In r (filter (fun r => negb (is_fallback r))
               (results_df (post_solve d cp rt value))
        ++ adjusted_rows (Lines cp) (augment_rate d rt)
             (filter is_fallback (results_df (post_solve d cp rt value)))) ->
  In r (results_df (post_solve d cp rt value))
  \/ exists r0, In r0 (results_df (post_solve d cp rt value))
                /\ In r (redistribute_row (Lines cp) (augment_rate d rt) r0).
Proof.
  intros H. apply in_app_or in H as [H|H].
  - left. apply filter_In in H. tauto.
  - right. unfold adjusted_rows in H. apply in_flat_map in H as [r0 [H0 Hr]].
    apply filter_In in H0. exists r0. tauto.
Qed.

Lemma redistribute_row_hours_rate (Ls : list string) (rate : rate_t)
  (r0 r : row) :
  In r (redistribute_row Ls rate r0) ->
  Kg_Produced r == Hours r * dict_get_or key4_eqb rate (row_key r) 0.
Proof.
  intros Hr. unfold redistribute_row in Hr.
  destruct (eligible_lines Ls rate (Period r0) (Category r0) (Product r0))
    as [|l0 el]; [destruct Hr|].
  apply in_flat_map in Hr as [l1 [_ Hr]]. unfold redistribute_line in Hr.
  destruct (dict_get key4_eqb rate (Period r0, Category r0, l1, Product r0))
    as [q|] eqn:Eq; [|destruct Hr].
  destruct (Qltb 0 q) eqn:Epos; [|destruct Hr].
  destruct Hr as [<-|[]]. apply Qltb_lt in Epos.
  unfold row_key, dict_get_or.
  cbn [Period Category Line Product Hours Kg_Produced]. rewrite Eq.
  generalize (Kg_Produced r0 / inject_Z (Z.of_nat (List.length (l0 :: el)))).
  intros share. field. lra.
Qed.

Lemma final_rows_hours_rate (d : demand_t) (cp : capacity_t) (rt : rate_t)
  value r :
  In r (results_df_adjusted (post_solve d cp rt value)) ->
  Kg_Produced r
  == Hours r * dict_get_or key4_eqb (augment_rate d rt) (row_key r) 0.
Proof.
  rewrite final_table_eq. revert r. apply groupby_sum_Forall.
  - intros a b Ha Hb Hk.
    change (row_key (merge_rows a b)) with (row_key a).
    rewrite Kg_merge, Hours_merge, Ha, Hb, Hk. ring.
  - intros r Hr. apply pre_aggregation_rows in Hr as [Hr|[r0 [_ Hr]]].
    + apply In_extract in Hr as (_ & _ & _ & _ & _ & _ & ->). reflexivity.
    + eapply redistribute_row_hours_rate. exact Hr.
Qed.

(** X13.  In every row of the raw table and of the final table the mass is
    the hours times the (augmented) rate of the row's own key, 0 standing
    for a missing rate: redistribution and aggregation keep what the
    extraction establishes. *)
Theorem rows_mass_is_hours_times_rate (d : demand_t) (cp : capacity_t)
  (rt : rate_t) (value : key4 -> option Q) :
  (forall r, In r (results_df (post_solve d cp rt value)) ->
     Kg_Produced r
     == Hours r * dict_get_or key4_eqb (augment_rate d rt) (row_key r) 0)
  /\ (forall r, In r (results_df_adjusted (post_solve d cp rt value)) ->
        Kg_Produced r
        == Hours r * dict_get_or key4_eqb (augment_rate d rt) (row_key r) 0).
Proof.
  split.
  - intros r Hr. apply In_extract in Hr as (_ & _ & _ & _ & _ & _ & ->).
    reflexivity.
  - intros r. apply final_rows_hours_rate.
Qed.

Lemma rows_mass_is_hours_times_rate_witness :
  Kg_Produced (mkRow "P1" "Choc" "L1" "A" 10 (10 * 5))
  == Hours (mkRow "P1" "Choc" "L1" "A" 10 (10 * 5))
     * dict_get_or key4_eqb (augment_rate scn_demand scn_rate)
         (row_key (mkRow "P1" "Choc" "L1" "A" 10 (10 * 5))) 0.
Proof.
  apply (proj1 (rows_mass_is_hours_times_rate scn_demand scn_capacity scn_rate
                  (assigned scn_X))).
  left. reflexivity.
Defined.


(** ** Utilization Reporter *)

(** X14.  The utilization table has exactly one row per entry of the
    augmented capacity mapping, in the mapping's order: first the input's
    entries in their original order, then the fallback entries. *)
Theorem utilization_table_keys (d : demand_t) (cp : capacity_t) (rt : rate_t)
  (value : key4 -> option Q) :
  map (fun u => (rPeriod u, rCategory u, rLine u))
      (capacity_demand_ratio_df (post_solve d cp rt value))
  = map fst (augment_capacity d cp)
  /\ exists new,
       map fst (augment_capacity d cp) = (map fst cp ++ new)%list
       /\ forall k, In k new ->
            exists p c x q, k = (p, c, fictitious_line) /\ In ((p, c, x), q) d.
Proof.
  split.
  - change (capacity_demand_ratio_df (post_solve d cp rt value))
      with (capacity_demand_data (augment_capacity d cp) (augment_rate d rt)
              (results_df_adjusted (post_solve d cp rt value))).
    unfold capacity_demand_data. rewrite map_map.
    apply map_ext. intros [[[p c] l] e]. reflexivity.
  - destruct (set_all_keys_prefix key3_eqb (capacity_keys d) PInf cp)
      as [new [Hnew Hsub]].
    rewrite <- augment_capacity_fold in Hnew.
    exists new. split; [exact Hnew|].
    intros [[p c] l] Hk. apply Hsub, In_capacity_keys in Hk.
    destruct Hk as [-> [x [q Hd]]]. exists p, c, x, q. auto.
Qed.

Lemma utilization_table_keys_witness :
  map (fun u => (rPeriod u, rCategory u, rLine u))
      (capacity_demand_ratio_df
         (post_solve scn_demand scn_capacity scn_rate (assigned scn_X)))
  = [("P1", "Choc", "L1"); ("P1", "Choc", "Fallback_Line")].
Proof.
  exact (proj1 (utilization_table_keys scn_demand scn_capacity scn_rate
                  (assigned scn_X))).
Defined.



Lemma final_row_indices (d : demand_t) (cp : capacity_t) (rt : rate_t) value r :
  In r (results_df_adjusted (post_solve d cp rt value)) ->
  In (Period r) (Periods d) /\ In (Category r) (Categories d)
  /\ In (Product r) (Products d).
Proof.
  rewrite final_table_eq. intros H.
  apply groupby_sum_key in H as [r1 [Hin Hk]].
  unfold row_key in Hk. inversion Hk as [[Hp Hc Hl Hx]].
  rewrite Hp, Hc, Hx. clear Hk Hp Hc Hl Hx.
  apply pre_aggregation_rows in Hin as [Hin|[r0 [Hin Hr]]].
  - apply In_extract in Hin. tauto.
  - apply In_extract in Hin. apply In_redistribute_row in Hr as (-> & -> & -> & _).
    tauto.
Qed.

Lemma row_demand_hours_own (rate : rate_t) (r : row) :
  0 < dict_get_or key4_eqb rate (row_key r) 0 ->
  Kg_Produced r == Hours r * dict_get_or key4_eqb rate (row_key r) 0 ->
  row_demand_hours rate (Period r) (Category r) (Line r) r == Hours r.
Proof.
  intros Hpos Hk. unfold row_demand_hours. unfold row_key in *.
  apply Qltb_lt in Hpos. rewrite Hpos. apply Qltb_lt in Hpos.
  rewrite Hk. field. lra.
Qed.

(** X15.  With a single category in the demand (what the application always
    passes) and strictly positive rates for the products on a line, the
    realized-demand-hours of the capacity entry (p, c, l) are exactly the
    Hours the final table shows for that period, category and line, so the
    reported ratio is capacity / (final hours + 1e-9). *)
Theorem realized_hours_are_final_hours (d : demand_t) (cp : capacity_t)
  (rt : rate_t) (value : key4 -> option Q) p c l :
  (forall p' c' x q, In ((p', c', x), q) d -> c' = c) ->
  (forall x, In x (Products d) ->
             0 < dict_get_or key4_eqb (augment_rate d rt) (p, c, l, x) 0) ->
  total_demand_hours (augment_rate d rt)
    (results_df_adjusted (post_solve d cp rt value)) p c l
  == sum_by Hours (on_line p c l)
       (results_df_adjusted (post_solve d cp rt value)).
Proof.
  intros Hcat Hpos. rewrite total_demand_hours_sum.
  unfold sum_by, line_production.
  set (rows := results_df_adjusted (post_solve d cp rt value)).
  assert (Hrows : forall r, In r rows ->
            Category r = c /\ In (Product r) (Products d)
            /\ Kg_Produced r
               == Hours r * dict_get_or key4_eqb (augment_rate d rt)
                              (row_key r) 0).
  { intros r Hr. pose proof (final_row_indices d cp rt value r Hr)
      as (_ & Hc & Hx).
    split; [|split; [exact Hx|]].
    - apply In_sorted_set, in_map_iff in Hc.
      destruct Hc as [[[[p' c'] x] q] [E Hin]]. simpl in E. subst c'.
      eapply Hcat. exact Hin.
    - apply (final_rows_hours_rate d cp rt value). exact Hr. }
  clearbody rows.
  induction rows as [|r rows IH]; [reflexivity|].
  assert (IH' : sumQ (map (row_demand_hours (augment_rate d rt) p c l)
                        (filter (fun r => String.eqb (Period r) p
                                          && String.eqb (Line r) l) rows))
                == sumQ (map Hours (filter (on_line p c l) rows)))
    by (apply IH; intros; apply Hrows; simpl; auto).
  destruct (Hrows r (or_introl eq_refl)) as (Hc & Hx & Hk).
  cbn [filter]. unfold on_line at 1. rewrite Hc, String.eqb_refl, andb_true_r.
  destruct (String.eqb (Period r) p) eqn:Ep; cbn [andb]; [|exact IH'].
  destruct (String.eqb (Line r) l) eqn:El; cbn [andb]; [|exact IH'].
  cbn [map sumQ fold_right]. apply String.eqb_eq in Ep, El.
  assert (Hown : row_demand_hours (augment_rate d rt) p c l r == Hours r).
  { rewrite <- Ep, <- El, <- Hc. apply row_demand_hours_own.
    - unfold row_key. rewrite Ep, El, Hc. apply Hpos. exact Hx.
    - exact Hk. }
  change (sumQ (map Hours (filter (on_line p c l) rows)))
    with (fold_right Qplus 0 (map Hours (filter (on_line p c l) rows))) in IH'.
  unfold sumQ in IH'. rewrite Hown, IH'. reflexivity.
Qed.

Lemma realized_hours_are_final_hours_witness :
  total_demand_hours (augment_rate scn_demand scn_rate)
    (results_df_adjusted
       (post_solve scn_demand scn_capacity scn_rate (assigned scn_X)))
    "P1" "Choc" "L1"
  == sum_by Hours (on_line "P1" "Choc" "L1")
       (results_df_adjusted
          (post_solve scn_demand scn_capacity scn_rate (assigned scn_X))).
Proof.
  apply (realized_hours_are_final_hours scn_demand scn_capacity scn_rate
           (assigned scn_X) "P1" "Choc" "L1").
  - intros p' c' x q [H|[]]. inversion H. reflexivity.
  - intros x [<-|[]]. reflexivity.
Defined.


(** ** When the fallback line is not used *)

Lemma fit_optimal : optimal (build_model scn_demand fit_capacity fit_rate) fit_X.
Proof.
  split; [reflexivity|].
  intros Y HY.
  change (build_model scn_demand fit_capacity fit_rate)
    with (mkModel ["P1"] ["Choc"] ["A"] ["L1"; "L2"; "Fallback_Line"] scn_demand
            [(("P1", "Choc", "L1"), Fin 10); (("P1", "Choc", "L2"), Fin 10);
             (("P1", "Choc", "Fallback_Line"), PInf)]
            [(("P1", "Choc", "L1", "A"), 5); (("P1", "Choc", "L2", "A"), 5);
             (("P1", "Choc", "Fallback_Line", "A"), 1 # 100)]) in *.
  unfold feasible in HY. lp_norm_in HY. lp_split HY.
  lp_norm. lra.
Qed.

Lemma final_sums_without_fallback (f : row -> Q)
  (f_merge : forall r' r, f (merge_rows r' r) == f r' + f r)
  (P : row -> bool) (P_key : forall r r', row_key r = row_key r' -> P r = P r')
  (d : demand_t) (cp : capacity_t) (rt : rate_t) value :
  filter is_fallback (results_df (post_solve d cp rt value)) = [] ->
  sum_by f P (results_df_adjusted (post_solve d cp rt value))
  == sum_by f P (results_df (post_solve d cp rt value)).
Proof.
  intros Hno. rewrite final_table_eq.
  rewrite (sum_by_groupby_sum f f_merge P P_key).
  rewrite (sum_by_split f P is_fallback (results_df (post_solve d cp rt value))).
  rewrite Hno. cbn [adjusted_rows flat_map]. rewrite app_nil_r, sum_by_nil. lra.
Qed.

(** X16.  When the optimal solution puts no hours on the fallback line (the
    raw table has no fallback row), nothing is redistributed: the final
    table keeps every real line with a stated non-negative capacity within
    that capacity, and covers every stated demand. *)
Theorem no_fallback_final_table_is_sound (d : demand_t) (cp : capacity_t)
  (rt : rate_t) (X : assignment) :
  optimal (build_model d cp rt) X ->
  filter is_fallback (RawAllocationTable d cp rt X) = [] ->
  (forall p c l e,
     dict_get key3_eqb cp (p, c, l) = Some e -> l <> fallback_name ->
     ext_leb 0 e = true ->
     ext_leb (sum_by Hours (on_line p c l) (AllocationTable d cp rt X)) e = true)
  /\ (forall p c x q,
        dict_get key3_eqb d (p, c, x) = Some q ->
        q <= sum_by Kg_Produced (on_product p c x) (AllocationTable d cp rt X)).
Proof.
  intros Hopt Hno. split.
  - intros p c l e He Hl Hnn.
    eapply ext_leb_Qeq;
      [|eapply raw_hours_within_capacity; eassumption].
    apply (final_sums_without_fallback Hours Hours_merge _ (on_line_key p c l)).
    exact Hno.
  - intros p c x q Hq. unfold AllocationTable.
    rewrite (final_sums_without_fallback Kg_Produced Kg_merge _
               (on_product_key p c x)) by exact Hno.
    apply raw_mass_covers; [exact (proj1 Hopt) | exact Hq].
Qed.

Lemma no_fallback_final_table_is_sound_witness :
  ext_leb (sum_by Hours (on_line "P1" "Choc" "L2")
             (AllocationTable scn_demand fit_capacity fit_rate fit_X))
          (Fin 10) = true
  /\ 100 <= sum_by Kg_Produced (on_product "P1" "Choc" "A")
              (AllocationTable scn_demand fit_capacity fit_rate fit_X).
Proof.
  destruct (no_fallback_final_table_is_sound scn_demand fit_capacity fit_rate
              fit_X fit_optimal eq_refl) as [Hcap Hdem].
  split.
  - apply (Hcap "P1" "Choc" "L2" (Fin 10)); [reflexivity | discriminate
                                            | reflexivity].
  - apply (Hdem "P1" "Choc" "A" 100). reflexivity.
Defined.

(** ** Redistribution never creates mass *)

Lemma redistribute_row_mass_le (Ls : list string) (rate : rate_t) (r : row) :
  0 <= Kg_Produced r ->
  0 <= sumQ (map Kg_Produced (redistribute_row Ls rate r))
  /\ sumQ (map Kg_Produced (redistribute_row Ls rate r)) <= Kg_Produced r.
Proof.
  intros Hk. unfold redistribute_row.
  destruct (eligible_lines Ls rate (Period r) (Category r) (Product r))
    as [|l0 el] eqn:E.
  - cbn [map sumQ fold_right]. lra.
  - rewrite redistribute_lines_mass_paying.
    set (el' := l0 :: el).
    set (f := fun l => Qltb 0 (dict_get_or key4_eqb rate
                                 (Period r, Category r, l, Product r) 0)).
    set (n := inject_Z (Z.of_nat (List.length el'))).
    set (m := inject_Z (Z.of_nat (List.length (filter f el')))).
    assert (Hn : 0 < n).
    { unfold n. replace 0 with (inject_Z 0) by reflexivity.
      rewrite <- Zlt_Qlt. unfold el'. simpl List.length. lia. }
    assert (Hm0 : 0 <= m).
    { unfold m. replace 0 with (inject_Z 0) by reflexivity.
      rewrite <- Zle_Qle. lia. }
    assert (Hmn : m <= n).
    { unfold m, n. rewrite <- Zle_Qle.
      pose proof (length_filter_le f el'). lia. }
    assert (Heq : m * (Kg_Produced r / n) == Kg_Produced r * (m / n))
      by (field; lra).
    rewrite Heq.
    assert (H01 : 0 <= m / n) by (apply Qdiv_nonneg; assumption).
    assert (H11 : m / n <= 1) by (apply Qle_shift_div_r; [exact Hn | lra]).
    revert H01 H11. generalize (m / n). intros t H01 H11.
    split; nra.
Qed.

Lemma adjusted_rows_mass_le (Ls : list string) (rate : rate_t) p c x
  (fb : list row) :
  (forall r, In r fb -> 0 <= Kg_Produced r) ->
  0 <= sum_by Kg_Produced (on_product p c x) (adjusted_rows Ls rate fb)
  /\ sum_by Kg_Produced (on_product p c x) (adjusted_rows Ls rate fb)
     <= sum_by Kg_Produced (on_product p c x) fb.
Proof.
  intros Hnn. unfold adjusted_rows.
  induction fb as [|r fb IH].
  - cbn [flat_map]. rewrite sum_by_nil. lra.
  - cbn [flat_map]. rewrite sum_by_app, sum_by_cons.
    destruct IH as [IH0 IH1]; [intros; apply Hnn; simpl; auto|].
    assert (Hr : 0 <= Kg_Produced r) by (apply Hnn; simpl; auto).
    destruct (on_product p c x r) eqn:E.
    + rewrite (sum_by_all Kg_Produced (on_product p c x)
                 (redistribute_row Ls rate r)).
      * destruct (redistribute_row_mass_le Ls rate r Hr). lra.
      * intros r' Hr'. apply In_redistribute_row in Hr' as (Hp & Hc & Hx & _).
        unfold on_product in *. rewrite Hp, Hc, Hx. exact E.
    + rewrite (sum_by_none Kg_Produced (on_product p c x)
                 (redistribute_row Ls rate r)); [lra|].
      intros r' Hr'. apply In_redistribute_row in Hr' as (Hp & Hc & Hx & _).
      unfold on_product in *. rewrite Hp, Hc, Hx. exact E.
Qed.

(** X17.  For non-negative rates the final table never shows more mass for a
    (period, category, product) than the solver produced for it: it shows
    the raw mass minus whatever fallback mass was dropped or skipped, and at
    least the mass the real lines produced themselves. *)
Theorem final_mass_at_most_raw_mass (d : demand_t) (cp : capacity_t)
  (rt : rate_t) (value : key4 -> option Q) p c x :
  (forall k q, In (k, q) rt -> 0 <= q) ->
  sum_by Kg_Produced (on_product p c x)
         (filter (fun r => negb (is_fallback r))
                 (results_df (post_solve d cp rt value)))
  <= sum_by Kg_Produced (on_product p c x)
            (results_df_adjusted (post_solve d cp rt value))
  /\ sum_by Kg_Produced (on_product p c x)
            (results_df_adjusted (post_solve d cp rt value))
     <= sum_by Kg_Produced (on_product p c x)
               (results_df (post_solve d cp rt value)).
Proof.
  intros Hrt. rewrite final_table_eq.
  rewrite (sum_by_groupby_sum _ Kg_merge _ (on_product_key p c x)).
  rewrite sum_by_app.
  rewrite (sum_by_split Kg_Produced (on_product p c x) is_fallback
             (results_df (post_solve d cp rt value))).
  destruct (adjusted_rows_mass_le (Lines cp) (augment_rate d rt) p c x
              (filter is_fallback (results_df (post_solve d cp rt value))))
    as [H0 H1].
  - intros r Hr. apply filter_In in Hr as [Hr _].
    eapply extract_mass_nonneg; [|exact Hr].
    intros k. apply augment_rate_nonneg. exact Hrt.
  - split; lra.
Qed.

Lemma final_mass_at_most_raw_mass_witness :
  sum_by Kg_Produced (on_product "P1" "Choc" "A")
         (results_df_adjusted
            (post_solve scn_demand two_capacity two_rate (assigned scn_X)))
  <= sum_by Kg_Produced (on_product "P1" "Choc" "A")
            (results_df
               (post_solve scn_demand two_capacity two_rate (assigned scn_X))).
Proof.
  apply (final_mass_at_most_raw_mass scn_demand two_capacity two_rate
           (assigned scn_X) "P1" "Choc" "A").
  intros k q [H|[H|[]]]; inversion H; discriminate.
Defined.


(** * The application *)

(** ** Cell colours *)

Lemma Qdiv_lt_1 (q x : Q) : 0 < x -> (q / x < 1 <-> q < x).
Proof.
  intros Hx. assert (E : q == q / x * x) by (field; lra).
  revert E. generalize (q / x). intros t E. split; intros H; nra.
Qed.

Lemma Qdiv_ge (q x b : Q) : 0 < x -> (b <= q / x <-> b * x <= q).
Proof.
  intros Hx. assert (E : q == q / x * x) by (field; lra).
  revert E. generalize (q / x). intros t E. split; intros H; nra.
Qed.

(** X18.  Colour of a utilization cell: it is red exactly when the
    realized-demand-hours are positive and the (finite) capacity is below
    realized-demand-hours + 1e-9; blue exactly when they are positive and
    the capacity is infinite or at least 1.1 times that sum; and green
    otherwise, in particular for every NaN cell. *)
Theorem utilization_cell_colour (e : ext) (tdh : Q) :
  (color_capacity_demand_ratio (ratio_of e tdh) = "background-color: red"
   <-> 0 < tdh /\ exists q, e = Fin q /\ q < tdh + epsilon)
  /\ (color_capacity_demand_ratio (ratio_of e tdh) = "background-color: blue"
      <-> 0 < tdh
          /\ (e = PInf
              \/ exists q, e = Fin q /\ (11 # 10) * (tdh + epsilon) <= q))
  /\ (~ 0 < tdh ->
      color_capacity_demand_ratio (ratio_of e tdh) = "background-color: green")
  /\ color_capacity_demand_ratio NaN = "background-color: green".
Proof.
  pose proof epsilon_pos as He.
  unfold ratio_of. destruct (Qltb 0 tdh) eqn:Et.
  - apply Qltb_lt in Et.
    assert (Hx : 0 < tdh + epsilon) by lra.
    destruct e as [q|]; cbn [ext_div].
    + unfold color_capacity_demand_ratio, ratio_ltb, ratio_geb.
      destruct (Qltb (q / (tdh + epsilon)) 1) eqn:E1.
      * apply Qltb_lt in E1. apply (proj1 (Qdiv_lt_1 q _ Hx)) in E1.
        split; [|split; [|split]].
        -- split; [intros _; split; [exact Et | exists q; auto]
                  | reflexivity].
        -- split; [discriminate|].
           intros [_ [H|[q' [H Hq]]]]; [discriminate|].
           inversion H. subst q'. lra.
        -- intros H. contradiction.
        -- reflexivity.
      * apply Qltb_ge in E1.
        assert (Hge : tdh + epsilon <= q).
        { apply Qnot_lt_le. intros H. apply (proj2 (Qdiv_lt_1 q _ Hx)) in H. lra. }
        destruct (Qle_bool (11 # 10) (q / (tdh + epsilon))) eqn:E2.
        -- apply Qle_bool_iff in E2. apply (proj1 (Qdiv_ge q _ _ Hx)) in E2.
           split; [|split; [|split]].
           ++ split; [discriminate|].
              intros [_ [q' [H Hq]]]. inversion H. subst q'. lra.
           ++ split; [intros _; split; [exact Et | right; exists q; auto]
                     | reflexivity].
           ++ intros H. contradiction.
           ++ reflexivity.
        -- assert (Hlt : ~ (11 # 10) * (tdh + epsilon) <= q).
           { intros H. apply (proj2 (Qdiv_ge q _ (11 # 10) Hx)) in H.
             apply Qle_bool_iff in H. congruence. }
           split; [|split; [|split]].
           ++ split; [discriminate|].
              intros [_ [q' [H Hq]]]. inversion H. subst q'. lra.
           ++ split; [discriminate|].
              intros [_ [H|[q' [H Hq]]]]; [discriminate|].
              inversion H. subst q'. contradiction.
           ++ intros H. contradiction.
           ++ reflexivity.
    + split; [|split; [|split]].
      * split; [discriminate | intros [_ [q [H _]]]; discriminate].
      * split; [intros _; split; [exact Et | left; reflexivity] | reflexivity].
      * intros H. contradiction.
      * reflexivity.
  - apply Qltb_ge in Et.
    split; [|split; [|split]].
    + split; [discriminate | intros [H _]; lra].
    + split; [discriminate | intros [H _]; lra].
    + reflexivity.
    + reflexivity.
Qed.

Lemma utilization_cell_colour_witness :
  color_capacity_demand_ratio (ratio_of (Fin 10) 0) = "background-color: green".
Proof.
  apply (proj1 (proj2 (proj2 (utilization_cell_colour (Fin 10) 0)))).
  discriminate.
Defined.

(** ** Dictionaries built from items *)

Section DictOfItems.
Context {K V : Type}.
Variable eqb : K -> K -> bool.
Hypothesis eqb_eq : forall a b, eqb a b = true <-> a = b.

Lemma dict_get_app (a b : list (K * V)) k :
  dict_get eqb (a ++ b) k
  = match dict_get eqb a k with Some v => Some v | None => dict_get eqb b k end.
Proof.
  induction a as [|[k' v'] a IH]; simpl; [reflexivity|].
  destruct (eqb k' k); [reflexivity | exact IH].
Qed.

Lemma dict_get_set (d : list (K * V)) k0 v0 k :
  dict_get eqb (dict_set eqb d k0 v0) k
  = if eqb k0 k then Some v0 else dict_get eqb d k.
Proof.
  destruct (eqb k0 k) eqn:E.
  - apply eqb_eq in E. subst. apply (dict_get_set_same eqb eqb_eq).
  - apply (dict_get_set_other eqb eqb_eq). intros ->.
    rewrite (eqb_same eqb eqb_eq) in E. discriminate.
Qed.

Lemma dict_get_fold_items (items d : list (K * V)) k :
  dict_get eqb
    (fold_left (fun d kv => dict_set eqb d (fst kv) (snd kv)) items d) k
  = match dict_get eqb (rev items) k with
    | Some v => Some v
    | None => dict_get eqb d k
    end.
Proof.
  revert d. induction items as [|[k0 v0] items IH]; intros d; [reflexivity|].
  cbn [fold_left rev fst snd]. rewrite IH, dict_get_app, dict_get_set.
  destruct (dict_get eqb (rev items) k); [reflexivity|].
  simpl. destruct (eqb k0 k); reflexivity.
Qed.

Lemma dict_mem_keys (d : list (K * V)) k :
  dict_mem eqb d k = true <-> In k (map fst d).
Proof.
  unfold dict_mem. induction d as [|[k' v'] d IH]; simpl.
  - split; [discriminate | intros []].
  - destruct (eqb k' k) eqn:E.
    + apply eqb_eq in E. subst. split; auto.
    + rewrite IH. split; [auto|]. intros [H|H]; [|exact H].
      subst. rewrite (eqb_same eqb eqb_eq) in E. discriminate.
Qed.

Lemma dict_set_NoDup (d : list (K * V)) k v :
  NoDup (map fst d) -> NoDup (map fst (dict_set eqb d k v)).
Proof.
  intros Hnd. rewrite dict_set_keys.
  destruct (dict_mem eqb d k) eqn:E; [exact Hnd|].
  apply NoDup_app; [exact Hnd | constructor; [intros [] | constructor] |].
  intros k' Hk' [<-|[]]. apply dict_mem_keys in Hk'. congruence.
Qed.

Lemma dict_set_fresh (d : list (K * V)) k v :
  ~ In k (map fst d) -> dict_set eqb d k v = (d ++ [(k, v)])%list.
Proof.
  induction d as [|[k' v'] d IH]; intros Hk; simpl; [reflexivity|].
  rewrite (eqb_diff eqb eqb_eq) by (intros ->; apply Hk; simpl; auto).
  rewrite IH by (intros H; apply Hk; simpl; auto). reflexivity.
Qed.

Lemma fold_items_fresh (items d : list (K * V)) :
  NoDup (map fst (d ++ items)) ->
  fold_left (fun d kv => dict_set eqb d (fst kv) (snd kv)) items d
  = (d ++ items)%list.
Proof.
  revert d. induction items as [|[k v] items IH]; intros d Hnd.
  - rewrite app_nil_r. reflexivity.
  - cbn [fold_left fst snd]. rewrite dict_set_fresh.
    + rewrite IH; rewrite <- app_assoc; [reflexivity | exact Hnd].
    + rewrite map_app in Hnd. cbn [map fst] in Hnd.
      apply NoDup_remove_2 in Hnd. intros H. apply Hnd.
      apply in_or_app. left. exact H.
Qed.

(** A dict built from a sequence of (key, value) items has distinct keys,
    answers a lookup with the value of the last item that carries the key,
    and is the sequence itself when the items' keys are already distinct. *)
Lemma dict_of_items_spec (items : list (K * V)) :
  NoDup (map fst (dict_of_items eqb items))
  /\ (forall k, dict_get eqb (dict_of_items eqb items) k
                = dict_get eqb (rev items) k)
  /\ (NoDup (map fst items) -> dict_of_items eqb items = items).
Proof.
  unfold dict_of_items. split; [|split].
  - assert (G : forall d, NoDup (map fst d) ->
      NoDup (map fst (fold_left
                        (fun d kv => dict_set eqb d (fst kv) (snd kv))
                        items d))).
    { induction items as [|kv items IH]; intros d Hd; simpl; [exact Hd|].
      apply IH. apply dict_set_NoDup. exact Hd. }
    apply G. constructor.
  - intros k. rewrite dict_get_fold_items.
    destruct (dict_get eqb (rev items) k); reflexivity.
  - intros Hnd. apply (fold_items_fresh items []). exact Hnd.
Qed.
End DictOfItems.

Lemma dict_get_map_find {R K V : Type} (eqb : K -> K -> bool)
  (key : R -> K) (val : R -> V) (l : list R) (k : K) :
  dict_get eqb (map (fun r => (key r, val r)) l) k
  = option_map val (find (fun r => eqb (key r) k) l).
Proof.
  induction l as [|r l IH]; simpl; [reflexivity|].
  destruct (eqb (key r) k); [reflexivity | exact IH].
Qed.

(** X19.  The dictionaries the script at the end of Solver.py builds from
    the three sheets have distinct keys, and a lookup returns the value of
    the last sheet row that carries the key: an earlier duplicate row is
    silently overwritten. *)
Theorem sheet_dictionaries_keep_last_row (demand_df : list demand_row)
  (line_capacity_df : list capacity_row) (production_df : list production_row) :
  (NoDup (map fst (demand_of_sheet demand_df))
   /\ forall k, dict_get key3_eqb (demand_of_sheet demand_df) k
        = option_map dDemand
            (find (fun r => key3_eqb (dPeriod r, dCategory r, dProduct r) k)
                  (rev demand_df)))
  /\ (NoDup (map fst (line_capacity_of_sheet line_capacity_df))
      /\ forall k, dict_get key3_eqb (line_capacity_of_sheet line_capacity_df) k
           = option_map cHours
               (find (fun r => key3_eqb (cPeriod r, cCategory r, cLine r) k)
                     (rev line_capacity_df)))
  /\ (NoDup (map fst (production_rate_of_sheet production_df))
      /\ forall k, dict_get key4_eqb (production_rate_of_sheet production_df) k
           = option_map xRate
               (find (fun r => key4_eqb
                                 (xPeriod r, xCategory r, xLine r, xProduct r) k)
                     (rev production_df))).
Proof.
  unfold demand_of_sheet, line_capacity_of_sheet, production_rate_of_sheet.
  split; [|split].
  - destruct (dict_of_items_spec key3_eqb key3_eqb_eq
                (map (fun r => ((dPeriod r, dCategory r, dProduct r), dDemand r))
                     demand_df)) as (Hnd & Hget & _).
    split; [exact Hnd|]. intros k.
    rewrite Hget, <- map_rev. apply dict_get_map_find.
  - destruct (dict_of_items_spec key3_eqb key3_eqb_eq
                (map (fun r => ((cPeriod r, cCategory r, cLine r), cHours r))
                     line_capacity_df)) as (Hnd & Hget & _).
    split; [exact Hnd|]. intros k.
    rewrite Hget, <- map_rev. apply dict_get_map_find.
  - destruct (dict_of_items_spec key4_eqb key4_eqb_eq
                (map (fun r => ((xPeriod r, xCategory r, xLine r, xProduct r),
                                xRate r)) production_df)) as (Hnd & Hget & _).
    split; [exact Hnd|]. intros k.
    rewrite Hget, <- map_rev. apply dict_get_map_find.
Qed.

(** ** The dictionaries the application passes *)

Section Flatten.
Context {V W K : Type}.
Variable eqbK : K -> K -> bool.
Hypothesis eqbK_eq : forall a b, eqbK a b = true <-> a = b.
Variable mk : string -> string -> K.
Hypothesis mk_inj : forall a b a' b', mk a b = mk a' b' -> a = a' /\ b = b'.
Variable g : V -> W.

Lemma flatten_block_get (a0 : string) (inner : list (string * V)) a b :
  dict_get eqbK (map (fun e2 : string * V => (mk a0 (fst e2), g (snd e2))) inner)
           (mk a b)
  = if String.eqb a0 a then option_map g (dict_get String.eqb inner b) else None.
Proof.
  induction inner as [|[b0 v0] inner IH]; simpl.
  - destruct (String.eqb a0 a); reflexivity.
  - destruct (eqbK (mk a0 b0) (mk a b)) eqn:E.
    + apply eqbK_eq, mk_inj in E as [-> ->].
      rewrite !String.eqb_refl. reflexivity.
    + rewrite IH. destruct (String.eqb a0 a) eqn:Ea; [|reflexivity].
      apply String.eqb_eq in Ea. subst a0.
      destruct (String.eqb b0 b) eqn:Eb; [|reflexivity].
      apply String.eqb_eq in Eb. subst b0.
      rewrite (eqb_same eqbK eqbK_eq) in E. discriminate.
Qed.

Lemma flatten_get_absent (n : list (string * list (string * V))) a b :
  ~ In a (map fst n) -> dict_get eqbK (flatten_with mk g n) (mk a b) = None.
Proof.
  induction n as [|[a0 inner] n IH]; intros Ha; [reflexivity|].
  unfold flatten_with in *. cbn [flat_map fst snd].
  rewrite dict_get_app, flatten_block_get.
  rewrite (proj2 (String.eqb_neq a0 a)) by (intros ->; apply Ha; simpl; auto).
  apply IH. intros H. apply Ha. simpl; auto.
Qed.

Lemma flatten_get (n : list (string * list (string * V))) a b :
  NoDup (map fst n) ->
  dict_get eqbK (flatten_with mk g n) (mk a b) = option_map g (nested_get n a b).
Proof.
  unfold nested_get.
  induction n as [|[a0 inner] n IH]; intros Hnd; [reflexivity|].
  cbn [map fst] in Hnd. inversion Hnd as [|? ? Ha0 Hnd']; subst.
  unfold flatten_with in *. cbn [flat_map fst snd dict_get].
  rewrite dict_get_app, flatten_block_get.
  destruct (String.eqb a0 a) eqn:Ea.
  - apply String.eqb_eq in Ea. subst a0.
    destruct (dict_get String.eqb inner b) as [v|]; [reflexivity|].
    simpl. apply flatten_get_absent. exact Ha0.
  - apply IH. exact Hnd'.
Qed.

Lemma flatten_keys (n : list (string * list (string * V))) (k : K) :
  In k (map fst (flatten_with mk g n)) ->
  exists a b, k = mk a b /\ In a (map fst n).
Proof.
  unfold flatten_with. rewrite in_map_iff. intros [[k' w] [E Hin]]. simpl in E. subst k'.
  apply in_flat_map in Hin as [[a inner] [Ha Hin]].
  apply in_map_iff in Hin as [[b v] [E _]]. inversion E. subst.
  exists a, b. split; [reflexivity|]. apply in_map_iff. exists (a, inner). auto.
Qed.

Lemma flatten_NoDup (n : list (string * list (string * V))) :
  nested_ok n -> NoDup (map fst (flatten_with mk g n)).
Proof.
  intros [Hnd Hin]. induction n as [|[a0 inner] n IH]; [constructor|].
  cbn [map fst] in Hnd. inversion Hnd as [|? ? Ha0 Hnd']; subst.
  change (flatten_with mk g ((a0, inner) :: n))
    with (map (fun e2 : string * V => (mk a0 (fst e2), g (snd e2))) inner
          ++ flatten_with mk g n)%list.
  rewrite map_app. apply NoDup_app.
  - rewrite map_map. cbn [fst].
    pose proof (Hin (a0, inner) (or_introl eq_refl)) as Hi. cbn [snd] in Hi.
    clear -Hi mk_inj. induction inner as [|[b v] inner IH]; [constructor|].
    cbn [map fst] in *. inversion Hi as [|? ? Hb Hi']; subst.
    constructor; [|apply IH; exact Hi'].
    intros H. apply in_map_iff in H as [[b' v'] [E H]]. cbn [fst] in E.
    apply mk_inj in E as [_ ->]. apply Hb. apply in_map_iff.
    exists (b, v'). auto.
  - apply IH; [exact Hnd' | intros e He; apply Hin; simpl; auto].
  - intros k Hk1 Hk2. apply flatten_keys in Hk2 as (a & b & -> & Ha).
    rewrite map_map in Hk1. apply in_map_iff in Hk1 as [[b' v'] [E _]].
    cbn [fst] in E. apply mk_inj in E as [-> _]. contradiction.
Qed.
End Flatten.


Lemma In_dict_get_NoDup {K V : Type} (eqb : K -> K -> bool)
  (eqb_eq : forall a b, eqb a b = true <-> a = b) (d : list (K * V)) k v :
  NoDup (map fst d) -> In (k, v) d -> dict_get eqb d k = Some v.
Proof.
  induction d as [|[k' v'] d IH]; intros Hnd Hin; [destruct Hin|].
  cbn [map fst] in Hnd. inversion Hnd as [|? ? Hk Hnd']; subst.
  simpl. destruct Hin as [Hin|Hin].
  - inversion Hin. subst. rewrite (eqb_same eqb eqb_eq). reflexivity.
  - rewrite (eqb_diff eqb eqb_eq).
    + apply IH; assumption.
    + intros ->. apply Hk. apply in_map_iff. exists (k, v). auto.
Qed.

Lemma dict_get_None {K V : Type} (eqb : K -> K -> bool)
  (eqb_eq : forall a b, eqb a b = true <-> a = b) (d : list (K * V)) k :
  ~ In k (map fst d) -> dict_get eqb d k = None.
Proof.
  intros H. destruct (dict_get eqb d k) as [v|] eqn:E; [|reflexivity].
  apply (dict_get_In eqb eqb_eq) in E. exfalso. apply H.
  apply in_map_iff. exists (k, v). auto.
Qed.

Lemma dict_of_items_In {K V : Type} (eqb : K -> K -> bool)
  (eqb_eq : forall a b, eqb a b = true <-> a = b) (items : list (K * V)) k v :
  In (k, v) (dict_of_items eqb items) -> In (k, v) items.
Proof.
  intros Hin.
  destruct (dict_of_items_spec eqb eqb_eq items) as (Hnd & Hget & _).
  apply (In_dict_get_NoDup eqb eqb_eq _ _ _ Hnd) in Hin.
  rewrite Hget in Hin. apply (dict_get_In eqb eqb_eq) in Hin.
  apply in_rev. exact Hin.
Qed.

Lemma demand_dict_In (demand : list (string * list (string * Q))) p c x q :
  In ((p, c, x), q) (demand_dict demand) -> c = "Chocolate".
Proof.
  intros H. apply (dict_of_items_In key3_eqb key3_eqb_eq) in H.
  apply in_flat_map in H as [pe [_ H]].
  apply in_map_iff in H as [de [E _]]. inversion E. reflexivity.
Qed.

Lemma line_capacity_dict_In (lc : list (string * list (string * Q))) p c l e :
  In ((p, c, l), e) (line_capacity_dict lc) ->
  c = "Chocolate" /\ exists q, e = Fin q.
Proof.
  intros H. apply (dict_of_items_In key3_eqb key3_eqb_eq) in H.
  apply in_flat_map in H as [le [_ H]].
  apply in_map_iff in H as [de [E _]]. inversion E.
  split; [reflexivity | exists (snd de); reflexivity].
Qed.

Lemma production_rate_dict_In
  (pr : list (string * list (string * list (string * Q)))) p c l x q :
  In ((p, c, l, x), q) (production_rate_dict pr) -> c = "Chocolate".
Proof.
  intros H. apply (dict_of_items_In key4_eqb key4_eqb_eq) in H.
  apply in_flat_map in H as [pe [_ H]]. apply in_flat_map in H as [xe [_ H]].
  apply in_map_iff in H as [le [E _]]. inversion E. reflexivity.
Qed.

Lemma capacity_demand_keys (cap : capacity_t) (rate : rate_t) (rows : list row) :
  map (fun u => (rPeriod u, rCategory u, rLine u))
      (capacity_demand_data cap rate rows)
  = map fst cap.
Proof.
  unfold capacity_demand_data. rewrite map_map.
  apply map_ext. intros [[[p c] l] e]. reflexivity.
Qed.

Lemma augment_capacity_In (d : demand_t) (cp : capacity_t) p c l :
  In (p, c, l) (map fst (augment_capacity d cp)) ->
  In (p, c, l) (map fst cp) \/ exists x q, In ((p, c, x), q) d.
Proof.
  intros H.
  destruct (set_all_keys_prefix key3_eqb (capacity_keys d) PInf cp)
    as [new [Hnew Hsub]].
  rewrite <- augment_capacity_fold in Hnew. rewrite Hnew in H.
  apply in_app_or in H as [H|H]; [left; exact H|].
  right. apply Hsub, In_capacity_keys in H. tauto.
Qed.

(** X20.  Everything the application passes to the solver carries the one
    category "Chocolate" (capacities are finite numbers), so every row of
    the raw table, of the final table and of the utilization table it gets
    back has Category "Chocolate": the cross-category accumulation of the
    utilization loop cannot arise from the application's own calls. *)
Theorem application_uses_one_category
  (demand line_capacity : list (string * list (string * Q)))
  (production_ratio : list (string * list (string * list (string * Q))))
  (value : key4 -> option Q) :
  (forall p c x q, In ((p, c, x), q) (demand_dict demand) -> c = "Chocolate")
  /\ (forall p c l e, In ((p, c, l), e) (line_capacity_dict line_capacity) ->
        c = "Chocolate" /\ exists q, e = Fin q)
  /\ (forall p c l x q,
        In ((p, c, l, x), q) (production_rate_dict production_ratio) ->
        c = "Chocolate")
  /\ (forall r,
        In r (results_df (post_solve (demand_dict demand)
                            (line_capacity_dict line_capacity)
                            (production_rate_dict production_ratio) value)) ->
        Category r = "Chocolate")
  /\ (forall r,
        In r (results_df_adjusted
                (post_solve (demand_dict demand)
                   (line_capacity_dict line_capacity)
                   (production_rate_dict production_ratio) value)) ->
        Category r = "Chocolate")
  /\ (forall u,
        In u (capacity_demand_ratio_df
                (post_solve (demand_dict demand)
                   (line_capacity_dict line_capacity)
                   (production_rate_dict production_ratio) value)) ->
        rCategory u = "Chocolate").
Proof.
  assert (Hcat : forall c, In c (Categories (demand_dict demand)) ->
                           c = "Chocolate").
  { intros c Hc. apply In_sorted_set, in_map_iff in Hc.
    destruct Hc as [[[[p c'] x] q] [E Hin]]. simpl in E. subst c'.
    eapply demand_dict_In. exact Hin. }
  split; [intros p c x q; apply demand_dict_In|].
  split; [intros p c l e; apply line_capacity_dict_In|].
  split; [intros p c l x q; apply production_rate_dict_In|].
  split; [|split].
  - intros r Hr. apply In_extract in Hr. apply Hcat. tauto.
  - intros r Hr. apply final_row_indices in Hr. apply Hcat. tauto.
  - intros u Hu.
    assert (Hk : In (rPeriod u, rCategory u, rLine u)
                    (map fst (augment_capacity (demand_dict demand)
                                (line_capacity_dict line_capacity)))).
    { rewrite <- (capacity_demand_keys _
                    (augment_rate (demand_dict demand)
                       (production_rate_dict production_ratio))
                    (results_df_adjusted
                       (post_solve (demand_dict demand)
                          (line_capacity_dict line_capacity)
                          (production_rate_dict production_ratio) value))).
      apply (in_map (fun u => (rPeriod u, rCategory u, rLine u))). exact Hu. }
    apply augment_capacity_In in Hk as [Hk|[x [q Hk]]].
    + apply in_map_iff in Hk as [[k e] [E Hk]]. simpl in E. subst k.
      apply line_capacity_dict_In in Hk. tauto.
    + eapply demand_dict_In. exact Hk.
Qed.

Lemma application_uses_one_category_witness :
  rCategory (mkRatio "P1" "Chocolate" "Fallback_Line" NaN) = "Chocolate".
Proof.
  apply (proj2 (proj2 (proj2 (proj2 (proj2
           (application_uses_one_category
              [("A", [("P1", 100)])] [("L1", [("P1", 10)])]
              [("P1", [("A", [("L1", 5)])])] (fun _ => None))))))).
  right. left. reflexivity.
Defined.


Lemma dict_of_items_get_NoDup {K V : Type} (eqb : K -> K -> bool)
  (eqb_eq : forall a b, eqb a b = true <-> a = b) (items : list (K * V)) k :
  NoDup (map fst items) ->
  dict_get eqb (dict_of_items eqb items) k = dict_get eqb items k.
Proof.
  intros Hnd.
  rewrite (proj2 (proj2 (dict_of_items_spec eqb eqb_eq items)) Hnd).
  reflexivity.
Qed.

Lemma demand_key_inj (a b a' b' : string) :
  (b, "Chocolate", a) = (b', "Chocolate", a') -> a = a' /\ b = b'.
Proof. intros H. inversion H. auto. Qed.

Lemma rate_key_inj (p a b a' b' : string) :
  (p, "Chocolate", b, a) = (p, "Chocolate", b', a') -> a = a' /\ b = b'.
Proof. intros H. inversion H. auto. Qed.

(** The items of the three-level comprehension. *)
Lemma production_items_NoDup
  (pr : list (string * list (string * list (string * Q)))) :
  nested3_ok pr ->
  NoDup (map fst
    (flat_map (fun pe : string * list (string * list (string * Q)) =>
       flatten_with (K := key4) (fun x l => (fst pe, "Chocolate", l, x))
                    (fun v : Q => v)
                    (snd pe)) pr)).
Proof.
  intros [Hnd Hok]. induction pr as [|[p0 pd] pr IH]; [constructor|].
  cbn [map fst] in Hnd. inversion Hnd as [|? ? Hp0 Hnd']; subst.
  cbn [flat_map fst snd]. rewrite map_app. apply NoDup_app.
  - apply (flatten_NoDup (fun x l => (p0, "Chocolate", l, x))
             (rate_key_inj p0)).
    apply (Hok (p0, pd)). left. reflexivity.
  - apply IH; [exact Hnd' | intros e He; apply Hok; simpl; auto].
  - intros k Hk1 Hk2.
    apply flatten_keys in Hk1 as (a & b & -> & _).
    apply in_map_iff in Hk2 as [[k' v] [E Hk2]]. simpl in E. subst k'.
    apply in_flat_map in Hk2 as [[p1 pd1] [Hp1 Hk2]]. cbn [fst snd] in Hk2.
    assert (Hk3 : In (p0, "Chocolate", b, a)
                     (map fst (flatten_with (K := key4)
                                 (fun x l => (p1, "Chocolate", l, x))
                                 (fun v : Q => v) pd1)))
      by (apply in_map_iff; exists ((p0, "Chocolate", b, a), v); auto).
    apply flatten_keys in Hk3 as (a' & b' & E & _). inversion E. subst p1.
    apply Hp0. apply in_map_iff. exists (p0, pd1). auto.
Qed.

Lemma production_items_get
  (pr : list (string * list (string * list (string * Q)))) p l x :
  nested3_ok pr ->
  dict_get key4_eqb
    (flat_map (fun pe : string * list (string * list (string * Q)) =>
       flatten_with (K := key4) (fun x l => (fst pe, "Chocolate", l, x))
                    (fun v : Q => v)
                    (snd pe)) pr)
    (p, "Chocolate", l, x)
  = nested3_get pr p x l.
Proof.
  unfold nested3_get.
  intros [Hnd Hok]. induction pr as [|[p0 pd] pr IH]; [reflexivity|].
  cbn [map fst] in Hnd. inversion Hnd as [|? ? Hp0 Hnd']; subst.
  cbn [flat_map fst snd dict_get]. rewrite dict_get_app.
  destruct (String.eqb p0 p) eqn:Ep.
  - apply String.eqb_eq in Ep. subst p0.
    rewrite (flatten_get key4_eqb key4_eqb_eq
               (fun x l => (p, "Chocolate", l, x)) (rate_key_inj p)
               (fun v : Q => v) pd x l)
      by (apply (Hok (p, pd)); left; reflexivity).
    destruct (nested_get pd x l) as [v|]; [reflexivity|]. cbn [option_map].
    apply (dict_get_None key4_eqb key4_eqb_eq).
    intros H. apply in_map_iff in H as [[k' v] [E H]]. simpl in E. subst k'.
    apply in_flat_map in H as [[p1 pd1] [Hp1 H]]. cbn [fst snd] in H.
    assert (H3 : In (p, "Chocolate", l, x)
                    (map fst (flatten_with (K := key4)
                                (fun x l => (p1, "Chocolate", l, x))
                                (fun v : Q => v) pd1)))
      by (apply in_map_iff; exists ((p, "Chocolate", l, x), v); auto).
    apply flatten_keys in H3 as (a' & b' & E & _). inversion E. subst p1.
    apply Hp0. apply in_map_iff. exists (p, pd1). auto.
  - rewrite (dict_get_None key4_eqb key4_eqb_eq
               (flatten_with (K := key4) (fun x l => (p0, "Chocolate", l, x))
                             (fun v : Q => v) pd)).
    + apply IH; [exact Hnd' | intros e He; apply Hok; simpl; auto].
    + intros H. apply flatten_keys in H as (a' & b' & E & _).
      inversion E. subst p0. rewrite String.eqb_refl in Ep. discriminate.
Qed.

Lemma demand_dict_flatten (demand : list (string * list (string * Q))) :
  demand_dict demand
  = dict_of_items key3_eqb
      (flatten_with (K := key3) (fun a b => (b, "Chocolate", a))
                    (fun v : Q => v) demand).
Proof. reflexivity. Qed.

Lemma line_capacity_dict_flatten (lc : list (string * list (string * Q))) :
  line_capacity_dict lc
  = dict_of_items key3_eqb
      (flatten_with (K := key3) (fun a b => (b, "Chocolate", a)) Fin lc).
Proof. reflexivity. Qed.

(** X21.  Round trip of the application's flattening, for nested
    dictionaries with distinct keys: the demand of (period, "Chocolate",
    product) is [demand[product][period]], the capacity of (period,
    "Chocolate", line) is [line_capacity[line][period]], the rate of
    (period, "Chocolate", line, product) is
    [production_ratio[period][product][line]], and a lookup under any other
    category finds nothing. *)
Theorem application_dictionaries_lookup
  (demand line_capacity : list (string * list (string * Q)))
  (production_ratio : list (string * list (string * list (string * Q)))) :
  nested_ok demand -> nested_ok line_capacity -> nested3_ok production_ratio ->
  (forall period c product,
     dict_get key3_eqb (demand_dict demand) (period, c, product)
     = if String.eqb c "Chocolate" then nested_get demand product period
       else None)
  /\ (forall period c line,
        dict_get key3_eqb (line_capacity_dict line_capacity) (period, c, line)
        = if String.eqb c "Chocolate"
          then option_map Fin (nested_get line_capacity line period)
          else None)
  /\ (forall period c line product,
        dict_get key4_eqb (production_rate_dict production_ratio)
                 (period, c, line, product)
        = if String.eqb c "Chocolate"
          then nested3_get production_ratio period product line
          else None).
Proof.
  intros Hd Hc Hp. split; [|split].
  - intros period c product. destruct (String.eqb c "Chocolate") eqn:E.
    + apply String.eqb_eq in E. subst c. rewrite demand_dict_flatten.
      rewrite (dict_of_items_get_NoDup key3_eqb key3_eqb_eq)
        by (apply (flatten_NoDup (fun a b => (b, "Chocolate", a))
                     demand_key_inj (fun v : Q => v)); exact Hd).
      rewrite (flatten_get key3_eqb key3_eqb_eq
                 (fun a b => (b, "Chocolate", a)) demand_key_inj
                 (fun v : Q => v) demand product period) by exact (proj1 Hd).
      destruct (nested_get demand product period); reflexivity.
    + apply (dict_get_None key3_eqb key3_eqb_eq). intros H.
      apply in_map_iff in H as [[k q] [Ek H]]. simpl in Ek. subst k.
      apply demand_dict_In in H. subst c. discriminate.
  - intros period c line. destruct (String.eqb c "Chocolate") eqn:E.
    + apply String.eqb_eq in E. subst c. rewrite line_capacity_dict_flatten.
      rewrite (dict_of_items_get_NoDup key3_eqb key3_eqb_eq)
        by (apply (flatten_NoDup (fun a b => (b, "Chocolate", a))
                     demand_key_inj Fin); exact Hc).
      apply (flatten_get key3_eqb key3_eqb_eq
               (fun a b => (b, "Chocolate", a)) demand_key_inj
               Fin line_capacity line period). exact (proj1 Hc).
    + apply (dict_get_None key3_eqb key3_eqb_eq). intros H.
      apply in_map_iff in H as [[k e] [Ek H]]. simpl in Ek. subst k.
      apply line_capacity_dict_In in H as [H _]. subst c. discriminate.
  - intros period c line product. destruct (String.eqb c "Chocolate") eqn:E.
    + apply String.eqb_eq in E. subst c. unfold production_rate_dict.
      rewrite (dict_of_items_get_NoDup key4_eqb key4_eqb_eq)
        by (apply production_items_NoDup; exact Hp).
      apply production_items_get. exact Hp.
    + apply (dict_get_None key4_eqb key4_eqb_eq). intros H.
      apply in_map_iff in H as [[k q] [Ek H]]. simpl in Ek. subst k.
      apply production_rate_dict_In in H. subst c. discriminate.
Qed.

Lemma application_dictionaries_lookup_witness :
  dict_get key3_eqb (demand_dict [("A", [("P1", 100); ("P2", 80)])])
           ("P2", "Chocolate", "A")
  = nested_get [("A", [("P1", 100); ("P2", 80)])] "A" "P2".
Proof.
  apply (proj1 (application_dictionaries_lookup
                  [("A", [("P1", 100); ("P2", 80)])] [] []
                  ltac:(split; [repeat constructor; simpl; tauto
                               | intros e [<-|[]]; repeat constructor; simpl;
                                 intuition discriminate])
                  ltac:(split; [constructor | intros e []])
                  ltac:(split; [constructor | intros e []]))
           "P2" "Chocolate" "A").
Defined.


(** ** Period range of the form *)

(** X22.  The period labels are in strictly increasing string order, so the
    form's string comparison [start <= period <= end] selects exactly the
    labels from the start's position to the end's position, both included,
    and nothing when the end comes before the start. *)
Theorem selected_periods_slice (i j : nat) :
  (i < 25)%nat -> (j < 25)%nat ->
  Sorted string_lt all_periods
  /\ selected_periods (nth i all_periods "") (nth j all_periods "")
     = firstn (S j - i) (skipn i all_periods).
Proof.
  intros Hi Hj. split.
  - unfold all_periods. repeat (constructor; try reflexivity).
  - assert (H : forallb (fun i => forallb (fun j =>
        if list_eq_dec string_dec
             (selected_periods (nth i all_periods "") (nth j all_periods ""))
             (firstn (S j - i) (skipn i all_periods))
        then true else false) (seq 0 25)) (seq 0 25) = true)
      by (vm_compute; reflexivity).
    rewrite forallb_forall in H.
    specialize (H i (proj2 (in_seq 25 0 i) (conj (Nat.le_0_l i) Hi))).
    rewrite forallb_forall in H.
    specialize (H j (proj2 (in_seq 25 0 j) (conj (Nat.le_0_l j) Hj))).
    destruct (list_eq_dec string_dec
                (selected_periods (nth i all_periods "") (nth j all_periods ""))
                (firstn (S j - i) (skipn i all_periods))) as [E|_];
      [exact E | discriminate].
Qed.

Lemma selected_periods_slice_witness :
  selected_periods "2025'Q3" "2026'Q1" = ["2025'Q3"; "2025'Q4"; "2026'Q1"].
Proof.
  apply (proj2 (selected_periods_slice 2 4 ltac:(lia) ltac:(lia))).
Defined.

(** ** Loading a stored simulation *)

Lemma dict_get_tabulate {V : Type} (f : string -> V) (ks : list string) k :
  dict_get String.eqb (map (fun k => (k, f k)) ks) k
  = if in_dec string_dec k ks then Some (f k) else None.
Proof.
  induction ks as [|k0 ks IH]; simpl; [reflexivity|].
  destruct (String.eqb k0 k) eqn:E.
  - apply String.eqb_eq in E. subst k0.
    destruct (string_dec k k) as [H|H]; [reflexivity | congruence].
  - apply String.eqb_neq in E. rewrite IH.
    destruct (string_dec k0 k) as [H|H]; [contradiction|].
    destruct (in_dec string_dec k ks); reflexivity.
Qed.

Lemma tabulate_keys {V : Type} (f : string -> V) (ks : list string) :
  map fst (map (fun k => (k, f k)) ks) = ks.
Proof. rewrite map_map. simpl. apply map_id. Qed.

Lemma is_empty_filter {A : Type} (f : A -> bool) (l : list A) :
  is_empty (filter f l) = true <-> forall x, In x l -> f x = false.
Proof.
  induction l as [|x l IH]; simpl.
  - split; [intros _ y [] | reflexivity].
  - destruct (f x) eqn:E; simpl.
    + split; [discriminate|]. intros H. specialize (H x (or_introl eq_refl)).
      congruence.
    + rewrite IH. split.
      * intros H y [<-|Hy]; auto.
      * intros H y Hy. apply H. auto.
Qed.

(** X23.  [load_simulation_data] returns nothing exactly when one of the
    three sheets has no row for the requested simulation.  Otherwise the
    periods and products are those of the simulation's demand rows and the
    lines those of its capacity rows (sorted, distinct), and the three
    nested tables are complete over them: every (line, period), (product,
    period) and (period, product, line) combination has an entry, holding
    the value of the first matching sheet row, or 0 when no row matches;
    nothing is stored outside these combinations. *)
Theorem load_simulation_data_complete (simulation_id : string)
  (demand_df : list demand_rec) (line_capacity_df : list capacity_rec)
  (production_df : list production_rec) :
  let dd := filter (fun r => String.eqb (de_Sim r) simulation_id) demand_df in
  let cd := filter (fun r => String.eqb (ca_Sim r) simulation_id)
                   line_capacity_df in
  let pd := filter (fun r => String.eqb (pr_Sim r) simulation_id)
                   production_df in
  let periods := sorted_set (map de_Period dd) in
  let lines := sorted_set (map ca_Line cd) in
  let products := sorted_set (map de_Product dd) in
  (load_simulation_data simulation_id demand_df line_capacity_df production_df
   = None
   <-> (forall r, In r demand_df -> de_Sim r <> simulation_id)
       \/ (forall r, In r line_capacity_df -> ca_Sim r <> simulation_id)
       \/ (forall r, In r production_df -> pr_Sim r <> simulation_id))
  /\ forall sd,
       load_simulation_data simulation_id demand_df line_capacity_df
                            production_df = Some sd ->
       sd_periods sd = periods
       /\ nested_ok (sd_line_capacity sd) /\ nested_ok (sd_demand sd)
       /\ nested3_ok (sd_production_ratio sd)
       /\ (forall line period,
             nested_get (sd_line_capacity sd) line period
             = if in_dec string_dec line lines
               then if in_dec string_dec period periods
                    then Some (capacity_cell cd line period) else None
               else None)
       /\ (forall product period,
             nested_get (sd_demand sd) product period
             = if in_dec string_dec product products
               then if in_dec string_dec period periods
                    then Some (demand_cell dd product period) else None
               else None)
       /\ (forall period product line,
             nested3_get (sd_production_ratio sd) period product line
             = if in_dec string_dec period periods
               then if in_dec string_dec product products
                    then if in_dec string_dec line lines
                         then Some (production_cell pd period product line)
                         else None
                    else None
               else None).
Proof.
  cbv zeta. unfold load_simulation_data.
  set (dd := filter (fun r => String.eqb (de_Sim r) simulation_id) demand_df).
  set (cd := filter (fun r => String.eqb (ca_Sim r) simulation_id)
                    line_capacity_df).
  set (pd := filter (fun r => String.eqb (pr_Sim r) simulation_id)
                    production_df).
  assert (Hd : is_empty dd = true
               <-> forall r, In r demand_df -> de_Sim r <> simulation_id).
  { unfold dd. rewrite is_empty_filter. split; intros H r Hr.
    - apply String.eqb_neq. auto.
    - apply String.eqb_neq. auto. }
  assert (Hc : is_empty cd = true
               <-> forall r, In r line_capacity_df -> ca_Sim r <> simulation_id).
  { unfold cd. rewrite is_empty_filter. split; intros H r Hr.
    - apply String.eqb_neq. auto.
    - apply String.eqb_neq. auto. }
  assert (Hp : is_empty pd = true
               <-> forall r, In r production_df -> pr_Sim r <> simulation_id).
  { unfold pd. rewrite is_empty_filter. split; intros H r Hr.
    - apply String.eqb_neq. auto.
    - apply String.eqb_neq. auto. }
  destruct (is_empty dd || is_empty cd || is_empty pd) eqn:E.
  - split; [|intros sd H; discriminate].
    split; [intros _|reflexivity].
    apply orb_true_iff in E as [E|E]; [apply orb_true_iff in E as [E|E]|].
    + left. apply Hd. exact E.
    + right; left. apply Hc. exact E.
    + right; right. apply Hp. exact E.
  - apply orb_false_iff in E as [E Ep]. apply orb_false_iff in E as [Ed Ec].
    split.
    + split; [discriminate|]. intros [H|[H|H]].
      * apply Hd in H. congruence.
      * apply Hc in H. congruence.
      * apply Hp in H. congruence.
    + intros sd H. inversion H. subst sd. clear H.
      cbn [sd_periods sd_line_capacity sd_demand sd_production_ratio].
      split; [reflexivity|].
      split; [|split; [|split; [|split; [|split]]]].
      * split; [rewrite tabulate_keys; apply NoDup_sorted_set|].
        intros e He. apply in_map_iff in He as [l [<- _]]. cbn [snd].
        rewrite tabulate_keys. apply NoDup_sorted_set.
      * split; [rewrite tabulate_keys; apply NoDup_sorted_set|].
        intros e He. apply in_map_iff in He as [l [<- _]]. cbn [snd].
        rewrite tabulate_keys. apply NoDup_sorted_set.
      * split; [rewrite tabulate_keys; apply NoDup_sorted_set|].
        intros e He. apply in_map_iff in He as [p [<- _]]. cbn [snd].
        split; [rewrite tabulate_keys; apply NoDup_sorted_set|].
        intros e He. apply in_map_iff in He as [x [<- _]]. cbn [snd].
        rewrite tabulate_keys. apply NoDup_sorted_set.
      * intros line period. unfold nested_get.
        rewrite (dict_get_tabulate
                   (fun line => map (fun period =>
                                       (period, capacity_cell cd line period))
                                    (sorted_set (map de_Period dd)))).
        destruct (in_dec string_dec line (sorted_set (map ca_Line cd)));
          [|reflexivity].
        apply (dict_get_tabulate (fun period => capacity_cell cd line period)).
      * intros product period. unfold nested_get.
        rewrite (dict_get_tabulate
                   (fun product => map (fun period =>
                                          (period,
                                           demand_cell dd product period))
                                       (sorted_set (map de_Period dd)))).
        destruct (in_dec string_dec product (sorted_set (map de_Product dd)));
          [|reflexivity].
        apply (dict_get_tabulate (fun period => demand_cell dd product period)).
      * intros period product line. unfold nested3_get, nested_get.
        rewrite (dict_get_tabulate
                   (fun period =>
                      map (fun product =>
                             (product,
                              map (fun line =>
                                     (line,
                                      production_cell pd period product line))
                                  (sorted_set (map ca_Line cd))))
                          (sorted_set (map de_Product dd)))).
        destruct (in_dec string_dec period (sorted_set (map de_Period dd)));
          [|reflexivity].
        rewrite (dict_get_tabulate
                   (fun product =>
                      map (fun line =>
                             (line, production_cell pd period product line))
                          (sorted_set (map ca_Line cd)))).
        destruct (in_dec string_dec product (sorted_set (map de_Product dd)));
          [|reflexivity].
        apply (dict_get_tabulate
                 (fun line => production_cell pd period product line)).
Qed.

Lemma load_simulation_data_complete_witness :
  load_simulation_data "S9" sim_demand_df sim_capacity_df sim_production_df
  = None
  /\ exists sd,
       load_simulation_data "S1" sim_demand_df sim_capacity_df
                            sim_production_df = Some sd
       /\ sd_periods sd = ["P1"; "P2"]
       /\ nested_get (sd_line_capacity sd) "L2" "P1" = Some 8
       /\ nested_get (sd_line_capacity sd) "L2" "P2" = Some 0
       /\ nested_get (sd_line_capacity sd) "L2" "P3" = None
       /\ nested_get (sd_demand sd) "A" "P1" = Some 100
       /\ nested3_get (sd_production_ratio sd) "P1" "A" "L1" = Some 5
       /\ nested3_get (sd_production_ratio sd) "P2" "B" "L2" = Some 0
       /\ nested3_get (sd_production_ratio sd) "P1" "A" "L3" = None.
Proof.
  split.
  - apply (proj1 (load_simulation_data_complete "S9" sim_demand_df
                    sim_capacity_df sim_production_df)).
    left. intros r [<-|[<-|[<-|[<-|[]]]]]; discriminate.
  - destruct (load_simulation_data "S1" sim_demand_df sim_capacity_df
                                   sim_production_df) as [sd|] eqn:E;
      [|discriminate E].
    exists sd. split; [reflexivity|].
    destruct (proj2 (load_simulation_data_complete "S1" sim_demand_df
                       sim_capacity_df sim_production_df) sd E)
      as (Hp & _ & _ & _ & Hc & Hd & Hr).
    rewrite Hp, !Hc, Hd, !Hr. repeat split; reflexivity.
Defined.
